(** * doze: the dependency-injection container

    A shallow embedding of [doze/di/container] (repository, factories,
    dependency extraction, cyclic-reference detector, container facade)
    together with the properties stated about it.

    Conventions of the embedding.
    - A Python class object is an element of [cls]; what the container reads
      from a class ([issubclass], [__name__], the signature of [__init__] and
      the behaviour of its constructor) is gathered in the [ClassTable]
      interface.
    - A raised exception is the [Raise] outcome of a computation; stateful
      methods take the state and give it back next to their outcome.
    - The recursion between factories ([get_object] calling [get_object] of the
      factories it was wired to, and constructors calling back into the
      container) is driven by a depth budget; [get_object_total] shows that the
      budget [S (number of factories)] always suffices.
    - Factory objects are referred to by their position in the repository.
      Where the model must answer a reference to no factory, which the
      program cannot hold, it answers [TypeError];
      [get_component_adequate] shows that this never happens from a state a
      container can be in. *)

From Stdlib Require Import List String Ascii Bool Arith Lia ZArith Sorted.
Import ListNotations.
Open Scope string_scope.
Open Scope list_scope.

Set Implicit Arguments.
Set Warnings "-register-all".

(* ================================================================== *)
(** ** Exceptions ([doze/ex.py], [doze/di/container/ex.py]) *)

(** Messages are kept only for [InvalidStateException], whose three raising
    sites are told apart by them; [CyclicDependencyException] keeps its
    [cyclic_list] payload.  [PyException] stands for whatever a component's
    own constructor raises, [IndexError] and [TypeError] for the built-in
    failures of [factories[0]] and of iterating [None]. *)
Inductive exn : Type :=
| InvalidArgumentException
| InvalidStateException (message : string)
| NameAlreadyDefinedException
| UnknownComponentException
| TooManyDefinitionsException
| TypeMismatchException
| CyclicDependencyException (cyclic_list : list string)
| IndexError
| TypeError
| PyException.

Inductive outcome (A : Type) : Type :=
| Ret (a : A)
| Raise (e : exn)
| OutOfFuel.

Arguments Ret {A} a.
Arguments Raise {A} e.
Arguments OutOfFuel {A}.

Definition is_out_of_fuel {A : Type} (r : outcome A) : bool :=
  match r with OutOfFuel => true | _ => false end.

(* ================================================================== *)
(** ** Assertions ([doze/assertions.py]) *)

Definition assert_true (true_value : bool) : outcome unit :=
  if negb true_value then Raise InvalidArgumentException else Ret tt.

Definition assert_state (state : bool) (message : string) : outcome unit :=
  if negb state then Raise (InvalidStateException message) else Ret tt.

(* ================================================================== *)
(** ** Enumerations

    A Python [Enum] class body is a sequence of [NAME = value] assignments.
    When the class is created, a name whose value is already held by an
    earlier member does not get a member of its own: it becomes another name
    for that earlier member. *)

Record EnumMember : Type := { member_name : string; member_value : Z }.

Fixpoint enum_by_value (v : Z) (body : list (string * Z)) : option EnumMember :=
  match body with
  | [] => None
  | (n, w) :: rest =>
      if Z.eqb w v then Some {| member_name := n; member_value := w |}
      else enum_by_value v rest
  end.

Definition enum_getattr (body : list (string * Z)) (attr : string)
  : option EnumMember :=
  match find (fun p => String.eqb (fst p) attr) body with
  | None => None
  | Some (_, v) => enum_by_value v body
  end.

(** [class DependencyType(Enum)] of [dependency.py]. *)
Definition DependencyType_body : list (string * Z) :=
  [("SIMPLE", 1%Z); ("LIST", 1%Z); ("SET", 2%Z); ("DICTIONARY", 3%Z)].

Definition DependencyType (attr : string) : EnumMember :=
  match enum_getattr DependencyType_body attr with
  | Some m => m
  | None => {| member_name := attr; member_value := 0%Z |}
  end.

Definition SIMPLE : EnumMember := DependencyType "SIMPLE".
Definition LIST : EnumMember := DependencyType "LIST".
Definition SET : EnumMember := DependencyType "SET".
Definition DICTIONARY : EnumMember := DependencyType "DICTIONARY".

(* ================================================================== *)
(** ** Name resolution ([name_resolution.py])

    Identifiers are taken to be ASCII. *)

Definition isupper (ch : ascii) : bool :=
  let n := nat_of_ascii ch in ((65 <=? n) && (n <=? 90))%nat.

Definition lower (ch : ascii) : ascii :=
  if isupper ch then ascii_of_nat (nat_of_ascii ch + 32) else ch.

Fixpoint to_component_name_loop (class_name component_name : string) : string :=
  match class_name with
  | EmptyString => component_name
  | String ch rest =>
      if isupper ch then
        let component_name :=
          if (0 <? String.length component_name)%nat
          then (component_name ++ "_")%string else component_name in
        to_component_name_loop rest (component_name ++ String (lower ch) EmptyString)%string
      else
        to_component_name_loop rest (component_name ++ String ch EmptyString)%string
  end.

(** What the loop does to the characters after the first: an underscore and
    the lower-case letter for an upper-case letter, the character itself
    otherwise. *)
Fixpoint snake_rest (class_name : string) : string :=
  match class_name with
  | EmptyString => EmptyString
  | String ch rest =>
      if isupper ch then String "_" (String (lower ch) (snake_rest rest))
      else String ch (snake_rest rest)
  end.

Fixpoint count_upper (s : string) : nat :=
  match s with
  | EmptyString => 0
  | String ch rest => (if isupper ch then 1 else 0) + count_upper rest
  end.

Fixpoint string_forallb (p : ascii -> bool) (s : string) : bool :=
  match s with
  | EmptyString => true
  | String ch rest => p ch && string_forallb p rest
  end.

(* ================================================================== *)
(** ** What the container reads from classes *)

Inductive ParameterKind : Type :=
| POSITIONAL_ONLY
| POSITIONAL_OR_KEYWORD
| VAR_POSITIONAL
| KEYWORD_ONLY
| VAR_KEYWORD.

(** Keys of [get_component] and [exist]: a [str], a [type], or any other
    value. *)
Inductive Key (cls : Type) : Type :=
| KStr (name : string)
| KType (component_type : cls)
| KOther.

Arguments KStr {cls} name.
Arguments KType {cls} component_type.
Arguments KOther {cls}.

(** Component instances.  [PyNone] is Python's [None]; [Self] is the
    container the state belongs to; [Extern id ty] is an object built by the
    caller and handed to [register_instance]; [Created serial ty args] is the
    [serial]-th object allocated by a creating factory, built by calling
    [ty] on [args].  Two references are identical exactly when the values are
    equal. *)
Inductive obj (cls : Type) : Type :=
| PyNone
| Self
| Extern (id : nat) (ty : cls)
| Created (serial : nat) (ty : cls) (args : list (obj cls)).

Arguments PyNone {cls}.
Arguments Self {cls}.
Arguments Extern {cls} id ty.
Arguments Created {cls} serial ty args.

Definition is_None {cls : Type} (o : obj cls) : bool :=
  match o with PyNone => true | _ => false end.

(** What running the body of a component's [__init__] does, as far as the
    container can tell: it may call [get_component] on the container (the
    keys, in order) and it may end by raising. *)
Record InitBody (cls : Type) : Type := {
  init_lookups : list (Key cls);
  init_raises : bool
}.

(** [inspect.Parameter]; [annotation = None] is [inspect.Parameter.empty]. *)
Record Param (cls : Type) : Type := {
  name : string;
  kind : ParameterKind;
  annotation : option cls
}.

Class ClassTable : Type := {
  cls : Type;
  cls_eq_dec : forall a b : cls, {a = b} + {a <> b};
  (** [issubclass(a, b)] *)
  issubclass : cls -> cls -> bool;
  (** the classes [object], [Container] and [type(None)] *)
  object_ : cls;
  Container_cls : cls;
  NoneType : cls;
  (** [c.__name__] *)
  __name__ : cls -> string;
  (** [inspect.signature(c.__init__)], [self] included *)
  __init__ : cls -> list (Param cls);
  (** the body of [c.__init__] run on the given arguments *)
  init_body : cls -> list (obj cls) -> InitBody cls
}.

(* ================================================================== *)
Section Model.

Context {CT : ClassTable}.

Definition cls_eqb (a b : cls) : bool :=
  if cls_eq_dec a b then true else false.

(** [type(instance)] *)
Definition type_of (instance : obj cls) : cls :=
  match instance with
  | PyNone => NoneType
  | Self => Container_cls
  | Extern _ ty => ty
  | Created _ ty _ => ty
  end.

(** [PascalToCamelCaseClassTypeResolverStrategy.to_component_name] *)
Definition to_component_name (class_type : cls) : string :=
  to_component_name_loop (__name__ class_type) "".

(* ------------------------------------------------------------------ *)
(** *** Dependencies ([dependency.py]) *)

Definition IGNORED_PARAMETERS_NAMES : list string := ["self"; "args"; "kwargs"].

Record Dependency : Type := {
  component_name : option string;
  component_type : cls;
  dependency_type : EnumMember
}.

(** The argument of [generate_dependency_list]: something that is not
    callable, a class, or a function or method with the signature
    [inspect.signature] gives for it. *)
Inductive PyValue : Type :=
| NonCallable
| ClassObject (c : cls)
| Function (sig : list (Param cls)).

Definition callable (c : PyValue) : bool :=
  match c with NonCallable => false | _ => true end.

Definition isclass (c : PyValue) : bool :=
  match c with ClassObject _ => true | _ => false end.

Definition signature (c : PyValue) : list (Param cls) :=
  match c with Function sig => sig | _ => [] end.

Definition str_in (x : string) (l : list string) : bool :=
  existsb (String.eqb x) l.

(** One turn of the loop over [sig.parameters]. *)
Definition dependency_step (dependencies : list Dependency)
  (param_conf : Param cls) : list Dependency :=
  let name := name param_conf in
  let cls := match annotation param_conf with
             | Some a => a
             | None => object_
             end in
  if negb (str_in name IGNORED_PARAMETERS_NAMES)
  then dependencies ++ [{| component_name := Some name;
                           component_type := cls;
                           dependency_type := SIMPLE |}]
  else dependencies.

Definition generate_dependency_list (c : PyValue) : outcome (list Dependency) :=
  match assert_true (callable c) with
  | Raise e => Raise e
  | OutOfFuel => OutOfFuel
  | Ret _ =>
      match assert_true (negb (isclass c)) with
      | Raise e => Raise e
      | OutOfFuel => OutOfFuel
      | Ret _ => Ret (fold_left dependency_step (signature c) [])
      end
  end.

(* ------------------------------------------------------------------ *)
(** *** Factories: the data ([factory.py], [factories.py]) *)

Inductive FactoryClass : Type :=
| StaticComponentFactory
| SingletonComponentFactory
| PrototypeComponentFactory.

(** A factory object.  Other objects refer to it by its position in the
    repository (a [nat]); [_init_factories] holds such references.  The
    attributes a subclass does not have keep their initial value. *)
Record Factory : Type := {
  factory_class : FactoryClass;
  _component_name : string;
  _component_type : cls;
  _initialized : bool;
  _init_dependencies : list string;
  _requirements : list Dependency;
  _init_factories : option (list nat);
  _instance : obj cls
}.

Definition StaticComponentFactory_init (component_name : string)
  (instance : obj cls) : Factory :=
  {| factory_class := StaticComponentFactory;
     _component_name := component_name;
     _component_type := type_of instance;
     _initialized := true;
     _init_dependencies := [];
     _requirements := [];
     _init_factories := None;
     _instance := instance |}.

Definition AbstractCreatingComponentFactory_init (k : FactoryClass)
  (component_name : string) (component_type : cls)
  (requirements : list Dependency) : Factory :=
  {| factory_class := k;
     _component_name := component_name;
     _component_type := component_type;
     _initialized := false;
     _init_dependencies := [];
     _requirements := requirements;
     _init_factories := None;
     _instance := PyNone |}.

Definition SingletonComponentFactory_init :=
  AbstractCreatingComponentFactory_init SingletonComponentFactory.

Definition PrototypeComponentFactory_init :=
  AbstractCreatingComponentFactory_init PrototypeComponentFactory.

Definition is_type_of (self : Factory) (c : cls) : bool :=
  issubclass (_component_type self) c.

Definition _set_initialized (self : Factory) : Factory :=
  {| factory_class := factory_class self;
     _component_name := _component_name self;
     _component_type := _component_type self;
     _initialized := true;
     _init_dependencies := _init_dependencies self;
     _requirements := _requirements self;
     _init_factories := _init_factories self;
     _instance := _instance self |}.

Definition set_instance (o : obj cls) (self : Factory) : Factory :=
  {| factory_class := factory_class self;
     _component_name := _component_name self;
     _component_type := _component_type self;
     _initialized := _initialized self;
     _init_dependencies := _init_dependencies self;
     _requirements := _requirements self;
     _init_factories := _init_factories self;
     _instance := o |}.

Definition set_init_factories (fs : option (list nat)) (self : Factory) : Factory :=
  {| factory_class := factory_class self;
     _component_name := _component_name self;
     _component_type := _component_type self;
     _initialized := _initialized self;
     _init_dependencies := _init_dependencies self;
     _requirements := _requirements self;
     _init_factories := fs;
     _instance := _instance self |}.

(** [self._init_factories.append(factory); self._init_dependencies.append(name)] *)
Definition append_resolved (name : string) (factory : nat) (self : Factory) : Factory :=
  {| factory_class := factory_class self;
     _component_name := _component_name self;
     _component_type := _component_type self;
     _initialized := _initialized self;
     _init_dependencies := _init_dependencies self ++ [name];
     _requirements := _requirements self;
     _init_factories :=
       match _init_factories self with
       | Some fs => Some (fs ++ [factory])
       | None => None
       end;
     _instance := _instance self |}.

(* ------------------------------------------------------------------ *)
(** *** Repository ([repository.py])

    [factory_by_name] is the dict, in insertion order; it is where the factory
    objects live.  [self.factories] is appended to exactly when the dict
    receives a new key, so it is the list of the dict's values, in the same
    order: the references [0 .. n-1]. *)

Record Repository : Type := {
  factory_by_name : list (string * Factory);
  available_component_types : list cls
}.

Definition Repository_init : Repository :=
  {| factory_by_name := []; available_component_types := [] |}.

Definition factories (r : Repository) : list nat :=
  seq 0 (List.length (factory_by_name r)).

Definition factory_at (i : nat) (r : Repository) : option Factory :=
  match nth_error (factory_by_name r) i with
  | Some (_, f) => Some f
  | None => None
  end.

Fixpoint find_from (k : nat) (component_name : string)
  (d : list (string * Factory)) : option (nat * Factory) :=
  match d with
  | [] => None
  | (n, f) :: rest =>
      if String.eqb n component_name then Some (k, f)
      else find_from (S k) component_name rest
  end.

(** [find_by_name]: the reference found and the object behind it. *)
Definition find_by_name (component_name : string) (r : Repository)
  : option (nat * Factory) :=
  find_from 0 component_name (factory_by_name r).

Fixpoint filter_type_from (k : nat) (component_type : cls)
  (d : list (string * Factory)) : list (string * nat) :=
  match d with
  | [] => []
  | (n, f) :: rest =>
      if is_type_of f component_type
      then (n, k) :: filter_type_from (S k) component_type rest
      else filter_type_from (S k) component_type rest
  end.

Definition find_by_type (component_type : cls) (r : Repository)
  : list (string * nat) :=
  filter_type_from 0 component_type (factory_by_name r).

Definition name_in (component_name : string) (d : list (string * Factory)) : bool :=
  existsb (fun e => String.eqb (fst e) component_name) d.

Definition type_in (c : cls) (l : list cls) : bool :=
  existsb (cls_eqb c) l.

Definition set_add (c : cls) (l : list cls) : list cls :=
  if type_in c l then l else l ++ [c].

Definition register_factory (component_name : string) (factory : Factory)
  (r : Repository) : outcome unit * Repository :=
  if name_in component_name (factory_by_name r) then
    (Raise NameAlreadyDefinedException, r)
  else
    (Ret tt,
     {| factory_by_name := factory_by_name r ++ [(component_name, factory)];
        available_component_types :=
          set_add (_component_type factory) (available_component_types r) |}).

(** [Repository.exist]; the text of the message of the last branch is not
    modelled. *)
Definition exist (key : Key cls) (r : Repository) : outcome bool :=
  match key with
  | KStr name => Ret (name_in name (factory_by_name r))
  | KType c => Ret (type_in c (available_component_types r))
  | KOther => Raise InvalidArgumentException
  end.

(** Writing an attribute of the factory object behind reference [i]. *)
Fixpoint update_nth (i : nat) (g : Factory -> Factory)
  (d : list (string * Factory)) : list (string * Factory) :=
  match d, i with
  | [], _ => []
  | (n, f) :: rest, 0 => (n, g f) :: rest
  | e :: rest, S j => e :: update_nth j g rest
  end.

Definition update_factory (i : nat) (g : Factory -> Factory) (r : Repository)
  : Repository :=
  {| factory_by_name := update_nth i g (factory_by_name r);
     available_component_types := available_component_types r |}.

(* ------------------------------------------------------------------ *)
(** *** Wiring: [AbstractCreatingComponentFactory.post_init] *)

(** The body of one turn of the loop up to the two [append]s: the name and
    the factory the requirement is resolved to. *)
Definition resolve (r : Repository) (req : Dependency) : outcome (string * nat) :=
  let by_name : outcome (option (string * nat)) :=
    match component_name req with
    | Some n =>
        match find_by_name n r with
        | Some (i, factory) =>
            if negb (is_type_of factory (component_type req))
            then Raise TypeMismatchException
            else Ret (Some (n, i))
        | None => Ret None
        end
    | None => Ret None
    end in
  match by_name with
  | Raise e => Raise e
  | OutOfFuel => OutOfFuel
  | Ret (Some found) => Ret found
  | Ret None =>
      let factories := find_by_type (component_type req) r in
      if (List.length factories =? 0)%nat then Raise UnknownComponentException
      else if (1 <? List.length factories)%nat then Raise TooManyDefinitionsException
      else match factories with
           | found :: _ => Ret found
           | [] => Raise IndexError
           end
  end.

(** The loop writes only [self._init_factories] and
    [self._init_dependencies], and reads from the repository only names and
    component types; so it is run on the factory [self], next to the
    repository as it was when the loop started. *)
Fixpoint post_init_loop (r : Repository) (reqs : list Dependency) (self : Factory)
  : outcome unit * Factory :=
  match reqs with
  | [] => (Ret tt, self)
  | req :: rest =>
      match resolve r req with
      | Ret (name, factory) => post_init_loop r rest (append_resolved name factory self)
      | Raise e => (Raise e, self)
      | OutOfFuel => (OutOfFuel, self)
      end
  end.

(** [factory.post_init()] for the factory behind reference [i]; for a static
    factory it is the inherited [ComponentFactory.post_init], which does
    nothing.  A reference to no object has no counterpart in the program and
    is answered with [TypeError]. *)
Definition post_init (i : nat) (r : Repository) : outcome unit * Repository :=
  match factory_at i r with
  | None => (Raise TypeError, r)
  | Some self =>
      match factory_class self with
      | StaticComponentFactory => (Ret tt, r)
      | _ =>
          let self := set_init_factories (Some []) self in
          match post_init_loop r (_requirements self) self with
          | (Ret _, self) => (Ret tt, update_factory i (fun _ => _set_initialized self) r)
          | (Raise e, self) => (Raise e, update_factory i (fun _ => self) r)
          | (OutOfFuel, self) => (OutOfFuel, update_factory i (fun _ => self) r)
          end
      end
  end.

(* ------------------------------------------------------------------ *)
(** *** The cyclic-reference detector ([DependencyCyclicDetector]) *)

(** [context.index(dependency_name)] *)
Fixpoint index (dependency_name : string) (context : list string) : nat :=
  match context with
  | [] => 0
  | x :: rest => if String.eqb x dependency_name then 0 else S (index dependency_name rest)
  end.

Definition push (dependency_name : string) (context : list string)
  : outcome unit * list string :=
  if str_in dependency_name context then
    let index_of_dependency := index dependency_name context in
    let cyclic_list := skipn index_of_dependency context in
    let cyclic_list := cyclic_list ++ [dependency_name] in
    (Raise (CyclicDependencyException cyclic_list), context)
  else
    (Ret tt, context ++ [dependency_name]).

Definition pop (dependency_name : string) (context : list string)
  : outcome unit * list string :=
  match rev context with
  | [] =>
      (Raise (InvalidStateException
                "Invalid request to pop dependency from stack (stack is empty)."),
       context)
  | popped_dep_name :: _ =>
      let context := removelast context in
      if negb (String.eqb popped_dep_name dependency_name)
      then (Raise (InvalidStateException "Invalid "), context)
      else (Ret tt, context)
  end.

(* ------------------------------------------------------------------ *)
(** *** The state of one container, seen from one thread

    [context] is the stack [DependencyCyclicDetector.__context] keeps for the
    calling thread; [allocated] counts the objects allocated so far by
    creating factories and gives each new one its identity. *)

Record State : Type := {
  _repository : Repository;
  context : list string;
  allocated : nat
}.

Definition with_repository (r : Repository) (s : State) : State :=
  {| _repository := r; context := context s; allocated := allocated s |}.

Definition with_context (c : list string) (s : State) : State :=
  {| _repository := _repository s; context := c; allocated := allocated s |}.

Definition allocate (s : State) : State :=
  {| _repository := _repository s; context := context s;
     allocated := S (allocated s) |}.

(** Computations on the state that may raise. *)
Definition M (A : Type) : Type := State -> outcome A * State.

Definition ret {A : Type} (a : A) : M A := fun s => (Ret a, s).

Definition raise {A : Type} (e : exn) : M A := fun s => (Raise e, s).

Definition bind {A B : Type} (m : M A) (k : A -> M B) : M B :=
  fun s =>
    match m s with
    | (Ret a, s1) => k a s1
    | (Raise e, s1) => (Raise e, s1)
    | (OutOfFuel, s1) => (OutOfFuel, s1)
    end.

Notation "x <- m ;; k" := (bind m (fun x => k))
  (at level 61, m at next level, right associativity).

Definition lift {A : Type} (r : outcome A) : M A := fun s => (r, s).

Definition on_context {A : Type}
  (op : list string -> outcome A * list string) : M A :=
  fun s => let (r, c) := op (context s) in (r, with_context c s).

Definition on_repository {A : Type}
  (op : Repository -> outcome A * Repository) : M A :=
  fun s => let (r, repo) := op (_repository s) in (r, with_repository repo s).

(** [with DependencyCyclicDetector(component_name): body].  [__enter__]
    pushes; when it raises, the block is not entered and [__exit__] is not
    run.  Otherwise [__exit__] pops however the body ended, and an exception
    it raises replaces the outcome of the body. *)
Definition with_DependencyCyclicDetector {A : Type} (component_name : string)
  (body : M A) : M A :=
  fun s =>
    match on_context (push component_name) s with
    | (Ret _, s1) =>
        let (r, s2) := body s1 in
        let (p, s3) := on_context (pop component_name) s2 in
        match r, p with
        | OutOfFuel, _ => (OutOfFuel, s3)
        | _, Raise e => (Raise e, s3)
        | _, _ => (r, s3)
        end
    | (Raise e, s1) => (Raise e, s1)
    | (OutOfFuel, s1) => (OutOfFuel, s1)
    end.

(* ------------------------------------------------------------------ *)
(** *** Producing components ([get_object], [Container.get_component])

    [get_object] of one factory calls [get_object] of the factories it was
    wired to, and a constructor may call [get_component] of the container;
    [rec] is that inner [get_object], by reference. *)

Section Producing.

Variable rec : nat -> M (obj cls).

(** The binding of [factory] in [Container.get_component]. *)
Definition lookup (key : Key cls) (r : Repository) : outcome nat :=
  match key with
  | KStr name =>
      match find_by_name name r with
      | None => Raise UnknownComponentException
      | Some (factory, _) => Ret factory
      end
  | KType c =>
      match exist key r with
      | Ret true =>
          let factories := find_by_type c r in
          if (1 <? List.length factories)%nat then Raise TooManyDefinitionsException
          else match factories with
               | (_, factory) :: _ => Ret factory
               | [] => Raise IndexError
               end
      | Ret false => Raise UnknownComponentException
      | Raise e => Raise e
      | OutOfFuel => OutOfFuel
      end
  | KOther => Raise InvalidArgumentException
  end.

Definition get_component_with (key : Key cls) : M (obj cls) :=
  fun s =>
    match lookup key (_repository s) with
    | Ret factory => rec factory s
    | Raise e => (Raise e, s)
    | OutOfFuel => (OutOfFuel, s)
    end.

(** [[f.get_object() for f in self._init_factories]] *)
Fixpoint get_objects (fs : list nat) : M (list (obj cls)) :=
  match fs with
  | [] => ret []
  | f :: rest =>
      o <- rec f ;;
      os <- get_objects rest ;;
      ret (o :: os)
  end.

(** The calls of [get_component] made by the body of a constructor. *)
Fixpoint run_lookups (keys : list (Key cls)) : M unit :=
  match keys with
  | [] => ret tt
  | key :: rest =>
      _ <- get_component_with key ;;
      run_lookups rest
  end.

(** [component_type] called on [args]: the object is allocated, then the
    body of [__init__] runs. *)
Definition construct (component_type : cls) (args : list (obj cls)) : M (obj cls) :=
  fun s =>
    let o := Created (allocated s) component_type args in
    let body := init_body component_type args in
    (_ <- run_lookups (init_lookups body) ;;
     if init_raises body then raise PyException else ret o) (allocate s).

(** [self._initialized], [self._init_factories], [self._component_name] and
    [self._component_type] are written by [__init__] and [post_init] only;
    they are read here from [self] as it was when [get_object] was entered. *)
Definition _create_component (self : Factory) : M (obj cls) :=
  with_DependencyCyclicDetector (_component_name self)
    (_ <- lift (assert_state (_initialized self) "Factory not initialized.") ;;
     match _init_factories self with
     | None => raise TypeError
     | Some fs =>
         args <- get_objects fs ;;
         construct (_component_type self) args
     end).

(** [get_object] of the factory behind reference [i], by its class. *)
Definition get_object_with (i : nat) : M (obj cls) :=
  fun s =>
    match factory_at i (_repository s) with
    | None => (Raise TypeError, s)
    | Some self =>
        match factory_class self with
        | StaticComponentFactory => (Ret (_instance self), s)
        | SingletonComponentFactory =>
            if is_None (_instance self) then
              match _create_component self s with
              | (Ret o, s1) =>
                  (Ret o,
                   with_repository
                     (update_factory i (set_instance o) (_repository s1)) s1)
              | other => other
              end
            else (Ret (_instance self), s)
        | PrototypeComponentFactory => _create_component self s
        end
    end.

End Producing.

(** [fuel] bounds how deep [get_object] calls may nest. *)
Fixpoint get_object (fuel : nat) : nat -> M (obj cls) :=
  match fuel with
  | 0 => fun _ s => (OutOfFuel, s)
  | S fuel' => get_object_with (get_object fuel')
  end.

(* ------------------------------------------------------------------ *)
(** *** The container ([container.py]) *)

Definition CONTAINER_COMPONENT_NAME : string := "container".

Definition get_component (fuel : nat) (key : Key cls) : M (obj cls) :=
  get_component_with (get_object fuel) key.


(** [component_type.__init__] is a function, whatever the class. *)
Definition _generate_component_requirements_list (component_type : cls)
  : outcome (list Dependency) :=
  generate_dependency_list (Function (__init__ component_type)).

Definition register_type (component_type : cls) (component_name : option string)
  : M unit :=
  let component_name :=
    match component_name with
    | None => to_component_name component_type
    | Some n => n
    end in
  requirements <- lift (_generate_component_requirements_list component_type) ;;
  let factory :=
    SingletonComponentFactory_init component_name component_type requirements in
  on_repository (register_factory component_name factory).

Definition register_instance (instance : obj cls) (component_name : string)
  : M unit :=
  let factory := StaticComponentFactory_init component_name instance in
  on_repository (register_factory component_name factory).

(** [register_types] on arguments that all are types. *)
Fixpoint register_types (all_args : list cls) : M unit :=
  match all_args with
  | [] => ret tt
  | component_type :: rest =>
      _ <- register_type component_type None ;;
      register_types rest
  end.

(** An argument of [register_types]: a class ([type(arg) == type]) or
    anything else. *)
Inductive Arg : Type :=
| ArgType (component_type : cls)
| ArgValue.

Definition is_type (arg : Arg) : bool :=
  match arg with ArgType _ => true | ArgValue => false end.

(** The first loop of [register_types]. *)
Fixpoint check_types (all_args : list Arg) : outcome unit :=
  match all_args with
  | [] => Ret tt
  | arg :: rest =>
      if negb (is_type arg) then Raise InvalidArgumentException
      else check_types rest
  end.

Fixpoint types_of (all_args : list Arg) : list cls :=
  match all_args with
  | [] => []
  | ArgType c :: rest => c :: types_of rest
  | ArgValue :: rest => types_of rest
  end.

(** [Container.register_types(first_arg, *rest_args)]: the check of all the
    arguments, then the registrations, which see classes only. *)
Definition Container_register_types (first_arg : Arg) (rest_args : list Arg)
  : M unit :=
  let all_args := first_arg :: rest_args in
  _ <- lift (check_types all_args) ;;
  register_types (types_of all_args).

Fixpoint setup_loop (fs : list nat) : M unit :=
  match fs with
  | [] => ret tt
  | factory :: rest =>
      _ <- on_repository (post_init factory) ;;
      setup_loop rest
  end.

Definition setup : M unit :=
  fun s => setup_loop (factories (_repository s)) s.

(** [Container.__init__], for a thread that is not resolving anything. *)
Definition Container_init : State :=
  snd (register_instance Self CONTAINER_COMPONENT_NAME
         {| _repository := Repository_init; context := []; allocated := 0 |}).

(* ------------------------------------------------------------------ *)
(** *** Vocabulary of the properties *)

(** A registration call: [register_type] or [register_instance]. *)
Inductive Registration : Type :=
| RegisterType (component_type : cls) (component_name : option string)
| RegisterInstance (instance : obj cls) (component_name : string).

Definition registration_name (reg : Registration) : string :=
  match reg with
  | RegisterType c None => to_component_name c
  | RegisterType _ (Some n) => n
  | RegisterInstance _ n => n
  end.

Definition register (reg : Registration) : M unit :=
  match reg with
  | RegisterType c n => register_type c n
  | RegisterInstance o n => register_instance o n
  end.

(** The factory a registration call builds. *)
Definition registered_factory (reg : Registration) : Factory :=
  match reg with
  | RegisterType c _ =>
      SingletonComponentFactory_init (registration_name reg) c
        (fold_left dependency_step (__init__ c) [])
  | RegisterInstance o n => StaticComponentFactory_init n o
  end.

(** The states a container goes through before [setup] is called. *)
Inductive registering : State -> Prop :=
| registering_init : registering Container_init
| registering_step reg s : registering s -> registering (snd (register reg s)).

(** The states a container can be in between two calls of its methods. *)
Inductive reachable : State -> Prop :=
| reachable_init : reachable Container_init
| reachable_register reg s : reachable s -> reachable (snd (register reg s))
| reachable_setup s : reachable s -> reachable (snd (setup s))
| reachable_get_component fuel key s :
    reachable s ->
    is_out_of_fuel (fst (get_component fuel key s)) = false ->
    reachable (snd (get_component fuel key s)).

(** A call leaves the wiring alone: between [s] and [s'] nothing changed but
    the cached instance of singleton factories and the number of allocated
    objects, which did not decrease. *)
Definition erase (e : string * Factory) : string * Factory :=
  (fst e,
   match factory_class (snd e) with
   | SingletonComponentFactory => set_instance PyNone (snd e)
   | _ => snd e
   end).

Definition frame (s s' : State) : Prop :=
  map erase (factory_by_name (_repository s))
  = map erase (factory_by_name (_repository s'))
  /\ available_component_types (_repository s)
     = available_component_types (_repository s')
  /\ context s = context s'
  /\ allocated s <= allocated s'.

Definition preserves {A : Type} (m : M A) : Prop :=
  forall s, frame s (snd (m s)).

(** [m] never runs out of its depth budget from a state where [P] holds. *)
Definition answers {A : Type} (P : State -> Prop) (m : M A) : Prop :=
  forall s, P s -> is_out_of_fuel (fst (m s)) = false.

Definition names (r : Repository) : list string :=
  map (fun e => _component_name (snd e)) (factory_by_name r).

(** The names on the stack are distinct names of factories, and [fuel]
    exceeds the number of factory names that are not on the stack. *)
Definition budget (fuel : nat) (s : State) : Prop :=
  NoDup (context s)
  /\ incl (context s) (names (_repository s))
  /\ List.length (names (_repository s)) < fuel + List.length (context s).


(** The factory [self] after the requirements of [post_init] were resolved,
    in order, to [resolved]. *)
Definition wired (self : Factory) (resolved : list (string * nat)) : Factory :=
  fold_left (fun f x => append_resolved (fst x) (snd x) f) resolved self.

(** The container's own factory is the first of the repository. *)
Definition container_first (s : State) : Prop :=
  hd_error (factory_by_name (_repository s))
  = Some (CONTAINER_COMPONENT_NAME,
          StaticComponentFactory_init CONTAINER_COMPONENT_NAME Self).

(** Every reference a factory was wired to is a reference to a factory of
    the repository, and a creating factory that is initialized was wired. *)
Definition well_wired (r : Repository) : Prop :=
  forall i f,
    factory_at i r = Some f ->
    (forall fs,
        _init_factories f = Some fs ->
        Forall (fun j => j < List.length (factory_by_name r)) fs)
    /\ (factory_class f <> StaticComponentFactory ->
        _initialized f = true -> _init_factories f <> None).

(** The outcome the model gives where the program has none: a reference to
    no factory, an initialized creating factory without its list of
    factories. *)
Definition model_only {A : Type} (r : outcome A) : bool :=
  match r with Raise TypeError => true | _ => false end.

(** [o] was allocated between [s] and [s'] as an instance of [c]. *)
Definition fresh (o : obj cls) (c : cls) (s s' : State) : Prop :=
  exists serial args,
    o = Created serial c args /\ allocated s <= serial < allocated s'.

(** A wired singleton factory named [n], behind reference [i], not yet
    built, whose only requirement was resolved to the factory behind [j]. *)
Definition requires (s : State) (i : nat) (n : string) (j : nat) : Prop :=
  exists f,
    factory_at i (_repository s) = Some f
    /\ factory_class f = SingletonComponentFactory
    /\ _component_name f = n
    /\ _initialized f = true
    /\ _instance f = PyNone
    /\ _init_factories f = Some [j].

(** The names the repository binds. *)
Definition keys (r : Repository) : list string :=
  map fst (factory_by_name r).

(** The three indices of the repository agree: no name is bound twice, a
    factory is bound under its own component name, and the set of available
    component types holds exactly the component types of the factories. *)
Definition consistent (r : Repository) : Prop :=
  NoDup (keys r)
  /\ (forall n f, In (n, f) (factory_by_name r) -> _component_name f = n)
  /\ (forall c,
         type_in c (available_component_types r) = true
         <-> exists n f, In (n, f) (factory_by_name r) /\ _component_type f = c).

(** What the lookups read of an entry: the name it is bound under, and the
    component name and type of its factory. *)
Definition outline (e : string * Factory) : string * (string * cls) :=
  (fst e, (_component_name (snd e), _component_type (snd e))).

(** Every requirement of the factory resolves in the repository. *)
Definition resolvable (r : Repository) (f : Factory) : Prop :=
  Forall (fun req => exists found, resolve r req = Ret found) (_requirements f).

(** A creating factory after a [post_init] that resolved its requirements to
    [resolved]. *)
Definition post_initialized (f : Factory) (resolved : list (string * nat))
  : Factory :=
  _set_initialized (wired (set_init_factories (Some []) f) resolved).

(** The outcome is a return, or an exception that [ok] admits. *)
Definition raises_only {A : Type} (ok : exn -> bool) (r : outcome A) : bool :=
  match r with
  | Ret _ => true
  | Raise e => ok e
  | OutOfFuel => false
  end.

(** The exceptions of wiring. *)
Definition wiring_exception (e : exn) : bool :=
  match e with
  | TypeMismatchException
  | UnknownComponentException
  | TooManyDefinitionsException => true
  | _ => false
  end.

(** The exceptions of [get_component]. *)
Definition lookup_exception (e : exn) : bool :=
  match e with
  | InvalidArgumentException
  | UnknownComponentException
  | TooManyDefinitionsException => true
  | _ => false
  end.

Definition production_exception (e : exn) : bool :=
  match e with
  | CyclicDependencyException _ | PyException => true
  | _ => lookup_exception e
  end.

Definition not_initialized (e : exn) : bool :=
  match e with
  | InvalidStateException m => String.eqb m "Factory not initialized."
  | _ => false
  end.

(** What [get_component] may raise: the exceptions of the lookup of the
    key, of the detector, of a constructor, and the one of a factory that
    is not initialized. *)
Definition get_component_exception (e : exn) : bool :=
  production_exception e || not_initialized e.

(** As [raises_only], for a computation that may stop for lack of depth
    budget. *)
Definition admits {A : Type} (ok : exn -> bool) (r : outcome A) : bool :=
  match r with
  | Raise e => ok e
  | _ => true
  end.

(** The static factories are initialized. *)
Definition statics_ready (r : Repository) : Prop :=
  forall i f,
    factory_at i r = Some f ->
    factory_class f = StaticComponentFactory -> _initialized f = true.

(** Every factory of the repository is initialized. *)
Definition all_initialized (r : Repository) : Prop :=
  forall i f, factory_at i r = Some f -> _initialized f = true.

(** A factory that holds its component: a static factory, or a singleton
    factory that has built its instance. *)
Definition holds_instance (f : Factory) : bool :=
  match factory_class f with
  | StaticComponentFactory => true
  | SingletonComponentFactory => negb (is_None (_instance f))
  | PrototypeComponentFactory => false
  end.

(** The factories of [r] that hold their component are factories of [r'],
    of the same class and holding the same component. *)
Definition keeps_held (r r' : Repository) : Prop :=
  forall i f,
    factory_at i r = Some f -> holds_instance f = true ->
    exists f',
      factory_at i r' = Some f'
      /\ factory_class f' = factory_class f
      /\ _instance f' = _instance f.

Definition keeps {A : Type} (m : M A) : Prop :=
  forall s, keeps_held (_repository s) (_repository (snd (m s))).

(** The components held by the factories behind the references [fs]. *)
Definition held_instances (r : Repository) (fs : list nat) : list (obj cls) :=
  map (fun j => match factory_at j r with
                | Some g => _instance g
                | None => PyNone
                end) fs.

(** The factories of [r] whose component name is among [c] are the same in
    [r']. *)
Definition guarded (c : list string) (r r' : Repository) : Prop :=
  forall i f,
    factory_at i r = Some f -> In (_component_name f) c ->
    factory_at i r' = Some f.

(** A computation leaves alone the factories whose name is on the stack. *)
Definition guards {A : Type} (m : M A) : Prop :=
  forall s, guarded (context s) (_repository s) (_repository (snd (m s))).

(** No name occurs twice in [l]. *)
Fixpoint distinct (l : list string) : bool :=
  match l with
  | [] => true
  | x :: rest => negb (str_in x rest) && distinct rest
  end.

(** [l] is a cycle over the names [ns]: it ends with the name it starts
    with, names nothing else twice, and names only members of [ns]. *)
Definition closed_cycle (ns l : list string) : bool :=
  match l with
  | [] => false
  | n :: rest =>
      match rev rest with
      | [] => false
      | m :: mid =>
          String.eqb m n && distinct (n :: rev mid)
          && forallb (fun x => str_in x ns) l
      end
  end.

Definition reports_cycle (ns : list string) (e : exn) : bool :=
  match e with
  | CyclicDependencyException l => closed_cycle ns l
  | _ => true
  end.

(** The component a factory holds is an instance of the factory's
    component type. *)
Definition typed (r : Repository) : Prop :=
  forall i f,
    factory_at i r = Some f -> holds_instance f = true ->
    type_of (_instance f) = _component_type f.

Definition keeps_typed {A : Type} (m : M A) : Prop :=
  forall s, typed (_repository s) -> typed (_repository (snd (m s))).

(** [s'] comes from [s] by calls of the container's methods. *)
Inductive evolves : State -> State -> Prop :=
| evolves_refl s : evolves s s
| evolves_register reg s s' :
    evolves s s' -> evolves s (snd (register reg s'))
| evolves_setup s s' : evolves s s' -> evolves s (snd (setup s'))
| evolves_get_component fuel key s s' :
    evolves s s' -> evolves s (snd (get_component fuel key s')).

(** What wiring does not touch of a factory. *)
Definition unwire (e : string * Factory) : string * Factory :=
  (fst e,
   {| factory_class := factory_class (snd e);
      _component_name := _component_name (snd e);
      _component_type := _component_type (snd e);
      _initialized := false;
      _init_dependencies := [];
      _requirements := _requirements (snd e);
      _init_factories := None;
      _instance := _instance (snd e) |}).

(** What the specification says [generate_dependency_list] keeps of a
    signature: every parameter but the implicit [self] and the variadic
    catch-alls. *)
Definition is_variadic (p : Param cls) : bool :=
  match kind p with
  | VAR_POSITIONAL | VAR_KEYWORD => true
  | _ => false
  end.

Definition spec_kept (p : Param cls) : bool :=
  negb (String.eqb (name p) "self") && negb (is_variadic p).

Definition requirement_of (p : Param cls) : Dependency :=
  {| component_name := Some (name p);
     component_type := match annotation p with Some a => a | None => object_ end;
     dependency_type := SIMPLE |}.

Definition spec_requirements (sig : list (Param cls)) : list Dependency :=
  map requirement_of (filter spec_kept sig).

(** What the code keeps: the parameters whose name is not reserved. *)
Definition code_kept (p : Param cls) : bool :=
  negb (str_in (name p) IGNORED_PARAMETERS_NAMES).

End Model.

(* ================================================================== *)
(** ** The classes and containers of the test suite

    The classes of [test/test_container.py], and a few more in the same
    style, as a [ClassTable]; the containers the tests build. *)

Module Fixtures.

Inductive test_cls : Type :=
| class_object
| class_Container
| class_NoneType
| class_str
| SampleClass
| InjectableComponent
| InjectableContainer
| class_A
| class_B
| class_C
| Looker
| Animal
| Dog
| Holder
| Failing.

Definition test_cls_eq_dec (a b : test_cls) : {a = b} + {a <> b}.
Proof. decide equality. Defined.

Definition test_issubclass (a b : test_cls) : bool :=
  match a, b with
  | _, class_object => true
  | Dog, Animal => true
  | _, _ => if test_cls_eq_dec a b then true else false
  end.

Definition test_name (c : test_cls) : string :=
  match c with
  | class_object => "object"
  | class_Container => "Container"
  | class_NoneType => "NoneType"
  | class_str => "str"
  | SampleClass => "SampleClass"
  | InjectableComponent => "InjectableComponent"
  | InjectableContainer => "InjectableContainer"
  | class_A => "A"
  | class_B => "B"
  | class_C => "C"
  | Looker => "Looker"
  | Animal => "Animal"
  | Dog => "Dog"
  | Holder => "Holder"
  | Failing => "Failing"
  end.

Definition param (n : string) (a : option test_cls) : Param test_cls :=
  {| name := n; kind := POSITIONAL_OR_KEYWORD; annotation := a |}.

(** The signature of [object.__init__], which a class without an
    [__init__] of its own inherits. *)
Definition object_init : list (Param test_cls) :=
  [ {| name := "self"; kind := POSITIONAL_ONLY; annotation := None |};
    {| name := "args"; kind := VAR_POSITIONAL; annotation := None |};
    {| name := "kwargs"; kind := VAR_KEYWORD; annotation := None |} ].

Definition test_init (c : test_cls) : list (Param test_cls) :=
  match c with
  | InjectableComponent => [param "self" None; param "sample_class" (Some SampleClass)]
  | InjectableContainer => [param "self" None; param "container" (Some class_Container)]
  | class_A => [param "self" None; param "b" None]
  | class_B => [param "self" None; param "c" None]
  | class_C => [param "self" None; param "a" None]
  | Looker => [param "self" None; param "container" (Some class_Container)]
  | Holder => [param "self" None; param "c" (Some class_Container)]
  | Failing => [param "self" None]
  | _ => object_init
  end.

(** [Looker.__init__] looks itself up in the container it is given;
    [Failing.__init__] raises. *)
Definition test_init_body (c : test_cls) (args : list (obj test_cls))
  : InitBody test_cls :=
  match c with
  | Looker => {| init_lookups := [KStr "looker"]; init_raises := false |}
  | Failing => {| init_lookups := []; init_raises := true |}
  | _ => {| init_lookups := []; init_raises := false |}
  end.

#[export] Instance test_classes : ClassTable :=
  {| cls := test_cls;
     cls_eq_dec := test_cls_eq_dec;
     issubclass := test_issubclass;
     object_ := class_object;
     Container_cls := class_Container;
     NoneType := class_NoneType;
     __name__ := test_name;
     __init__ := test_init;
     init_body := test_init_body |}.

(** Running a sequence of calls that are expected not to raise. *)
Definition after {A : Type} (m : M A) (s : State) : State := snd (m s).

(** [register_types(A, B, C).setup()] *)
Definition cyclic_container : State :=
  after setup (after (register_types [class_A; class_B; class_C]) Container_init).

(** [register_type(SampleClass, "sample_class")],
    [register_type(InjectableComponent)], [setup()] *)
Definition injecting_container : State :=
  after setup
    (after (register_type InjectableComponent None)
       (after (register_type SampleClass (Some "sample_class")) Container_init)).

(** [register_type(InjectableContainer).setup()] *)
Definition self_injecting_container : State :=
  after setup (after (register_type InjectableContainer None) Container_init).

(** [register_type(Looker).setup()] *)
Definition looking_container : State :=
  after setup (after (register_type Looker None) Container_init).

(** [register_type(Failing).setup()] *)
Definition failing_container : State :=
  after setup (after (register_type Failing None) Container_init).

(** [register_type(Dog).setup()], where [Dog] is a subclass of [Animal] *)
Definition dog_container : State :=
  after setup (after (register_type Dog None) Container_init).

(** A second container registered as an instance, and a component that
    asks for a [Container] under the parameter name [c]. *)
Definition two_containers : State :=
  after (register_type Holder None)
    (after (register_instance (Extern 7 class_Container) "other") Container_init).

(** A repository holding a prototype factory for [SampleClass], wired. *)
Definition prototype_container : State :=
  after setup
    (after (on_repository
              (register_factory "sample"
                 (PrototypeComponentFactory_init "sample" SampleClass [])))
       Container_init).

End Fixtures.
(* ================================================================== *)
(** ** Proofs *)

Unset Implicit Arguments.

Section Proofs.

Context {CT : ClassTable}.

(* ------------------------------------------------------------------ *)
(** *** The state record *)

Lemma with_context_same (s : State) : with_context (context s) s = s.
Proof. destruct s; reflexivity. Qed.

Lemma with_repository_same (s : State) : with_repository (_repository s) s = s.
Proof. destruct s; reflexivity. Qed.

Lemma with_context_twice (c c' : list string) (s : State) :
  with_context c (with_context c' s) = with_context c s.
Proof. reflexivity. Qed.

(* ------------------------------------------------------------------ *)
(** *** The detector *)

Lemma str_in_In (x : string) (l : list string) :
  str_in x l = true <-> In x l.
Proof.
  unfold str_in. rewrite existsb_exists. split.
  - intros [y [Hy He]]. apply String.eqb_eq in He. now subst.
  - intros H. exists x. split; [assumption | apply String.eqb_refl].
Qed.

Lemma str_in_not_In (x : string) (l : list string) :
  str_in x l = false <-> ~ In x l.
Proof.
  rewrite <- str_in_In. destruct (str_in x l); split; intros; congruence.
Qed.

Lemma push_fresh (n : string) (c : list string) :
  str_in n c = false -> push n c = (Ret tt, c ++ [n]).
Proof. intros H. unfold push. now rewrite H. Qed.

Lemma push_present (n : string) (c : list string) :
  str_in n c = true ->
  push n c = (Raise (CyclicDependencyException (skipn (index n c) c ++ [n])), c).
Proof. intros H. unfold push. now rewrite H. Qed.

Lemma pop_pushed (n : string) (c : list string) :
  pop n (c ++ [n]) = (Ret tt, c).
Proof.
  unfold pop. rewrite rev_app_distr. simpl.
  rewrite String.eqb_refl. simpl. now rewrite removelast_last.
Qed.

(** Whatever [push] answers, the stack it leaves is the one it found or that
    one with the name on top. *)
Lemma push_context (n : string) (c : list string) :
  snd (push n c) = c \/ (str_in n c = false /\ push n c = (Ret tt, c ++ [n])).
Proof.
  unfold push. destruct (str_in n c); [now left | right; split; reflexivity].
Qed.

(* ------------------------------------------------------------------ *)
(** *** What a call leaves alone *)

Lemma frame_refl (s : State) : frame s s.
Proof. unfold frame. auto. Qed.

Lemma frame_trans (s1 s2 s3 : State) : frame s1 s2 -> frame s2 s3 -> frame s1 s3.
Proof.
  unfold frame. intros (A1 & B1 & C1 & D1) (A2 & B2 & C2 & D2).
  repeat split; try congruence. lia.
Qed.

Lemma frame_allocate (s : State) : frame s (allocate s).
Proof. unfold frame. simpl. auto. Qed.

Lemma erase_class (e : string * Factory) :
  factory_class (snd (erase e)) = factory_class (snd e).
Proof.
  destruct e as [n f]. simpl. destruct (factory_class f) eqn:E; simpl; auto.
Qed.

Lemma erase_name (e : string * Factory) :
  _component_name (snd (erase e)) = _component_name (snd e).
Proof. destruct e as [n f]. simpl. destruct (factory_class f); reflexivity. Qed.

Lemma erase_type (e : string * Factory) :
  _component_type (snd (erase e)) = _component_type (snd e).
Proof. destruct e as [n f]. simpl. destruct (factory_class f); reflexivity. Qed.

Lemma erase_initialized (e : string * Factory) :
  _initialized (snd (erase e)) = _initialized (snd e).
Proof. destruct e as [n f]. simpl. destruct (factory_class f); reflexivity. Qed.

Lemma erase_init_factories (e : string * Factory) :
  _init_factories (snd (erase e)) = _init_factories (snd e).
Proof. destruct e as [n f]. simpl. destruct (factory_class f); reflexivity. Qed.

Lemma erase_other (e : string * Factory) :
  factory_class (snd e) <> SingletonComponentFactory -> erase e = e.
Proof.
  destruct e as [n f]. unfold erase. simpl.
  destruct (factory_class f); congruence.
Qed.

Lemma erase_set_instance (n : string) (f : Factory) (o : obj cls) :
  factory_class f = SingletonComponentFactory ->
  erase (n, set_instance o f) = erase (n, f).
Proof. intros H. unfold erase. simpl. now rewrite H. Qed.

Lemma map_erase_update (d : list (string * Factory)) (i : nat)
  (g : Factory -> Factory) :
  (forall n f, nth_error d i = Some (n, f) -> erase (n, g f) = erase (n, f)) ->
  map erase (update_nth i g d) = map erase d.
Proof.
  revert i. induction d as [|[n f] d IH]; intros i H; [now destruct i|].
  destruct i as [|i]; simpl.
  - f_equal. apply H. reflexivity.
  - f_equal. apply IH. intros n' f' Hn. apply H. exact Hn.
Qed.

Lemma find_from_erase (k : nat) (n : string) (d : list (string * Factory)) :
  option_map fst (find_from k n (map erase d)) = option_map fst (find_from k n d).
Proof.
  revert k. induction d as [|[m f] d IH]; intros k; [reflexivity|].
  simpl. destruct (String.eqb m n); [reflexivity | apply IH].
Qed.

Lemma filter_type_from_erase (k : nat) (c : cls) (d : list (string * Factory)) :
  filter_type_from k c (map erase d) = filter_type_from k c d.
Proof.
  revert k. induction d as [|[m f] d IH]; intros k; [reflexivity|].
  simpl.
  replace (is_type_of
             match factory_class f with
             | SingletonComponentFactory => set_instance PyNone f
             | _ => f
             end c) with (is_type_of f c)
    by (destruct (factory_class f); reflexivity).
  destruct (is_type_of f c); now rewrite IH.
Qed.

Lemma name_in_erase (n : string) (d : list (string * Factory)) :
  name_in n (map erase d) = name_in n d.
Proof.
  unfold name_in. induction d as [|[m f] d IH]; [reflexivity|].
  simpl. now rewrite IH.
Qed.

Lemma names_erase (d : list (string * Factory)) :
  map (fun e => _component_name (snd e)) (map erase d)
  = map (fun e => _component_name (snd e)) d.
Proof. rewrite map_map. apply map_ext. intros e. apply erase_name. Qed.

Lemma lookup_KStr (n : string) (r : Repository) :
  lookup (KStr n) r
  = match option_map fst (find_by_name n r) with
    | Some i => Ret i
    | None => Raise UnknownComponentException
    end.
Proof. simpl. destruct (find_by_name n r) as [[i f]|]; reflexivity. Qed.

Lemma lookup_KType (c : cls) (r : Repository) :
  lookup (KType c) r
  = if type_in c (available_component_types r) then
      match find_by_type c r with
      | [] => Raise IndexError
      | [(_, factory)] => Ret factory
      | _ :: _ :: _ => Raise TooManyDefinitionsException
      end
    else Raise UnknownComponentException.
Proof.
  simpl. destruct (type_in c (available_component_types r)); [|reflexivity].
  destruct (find_by_type c r) as [|[n i] [|y l]]; reflexivity.
Qed.

Lemma lookup_frame (key : Key cls) (s s' : State) :
  frame s s' -> lookup key (_repository s) = lookup key (_repository s').
Proof.
  intros (Hd & Ht & _). destruct key as [n|c|].
  - rewrite !lookup_KStr. unfold find_by_name.
    rewrite <- (find_from_erase 0 n (factory_by_name (_repository s))).
    rewrite <- (find_from_erase 0 n (factory_by_name (_repository s'))).
    now rewrite Hd.
  - simpl. unfold find_by_type. rewrite <- Ht.
    rewrite <- (filter_type_from_erase 0 c (factory_by_name (_repository s))).
    rewrite <- (filter_type_from_erase 0 c (factory_by_name (_repository s'))).
    now rewrite Hd.
  - reflexivity.
Qed.

Lemma names_frame (s s' : State) :
  frame s s' -> names (_repository s) = names (_repository s').
Proof.
  intros (Hd & _). unfold names.
  rewrite <- (names_erase (factory_by_name (_repository s))).
  rewrite <- (names_erase (factory_by_name (_repository s'))).
  now rewrite Hd.
Qed.

(** The factory behind a reference keeps everything but, for a singleton
    factory, its cached instance. *)
Lemma factory_at_erased (r r' : Repository) (i : nat) (f : Factory) :
  map erase (factory_by_name r) = map erase (factory_by_name r') ->
  factory_at i r = Some f ->
  exists f',
    factory_at i r' = Some f'
    /\ factory_class f' = factory_class f
    /\ _component_name f' = _component_name f
    /\ _component_type f' = _component_type f
    /\ _initialized f' = _initialized f
    /\ _init_factories f' = _init_factories f
    /\ (factory_class f <> SingletonComponentFactory -> f' = f).
Proof.
  intros Hd Hf. unfold factory_at in *.
  destruct (nth_error (factory_by_name r) i) as [[n f0]|] eqn:E;
    [|discriminate].
  injection Hf as ->.
  assert (He : nth_error (map erase (factory_by_name r')) i
               = Some (erase (n, f))).
  { rewrite <- Hd. rewrite nth_error_map, E. reflexivity. }
  rewrite nth_error_map in He.
  destruct (nth_error (factory_by_name r') i) as [[n' f']|];
    [|discriminate].
  assert (He' : erase (n', f') = erase (n, f))
    by (cbn [option_map] in He; congruence).
  clear He.
  assert (Hc := f_equal (fun e => factory_class (snd e)) He').
  assert (Hn := f_equal (fun e => _component_name (snd e)) He').
  assert (Ht := f_equal (fun e => _component_type (snd e)) He').
  assert (Hi := f_equal (fun e => _initialized (snd e)) He').
  assert (Hw := f_equal (fun e => _init_factories (snd e)) He').
  cbv beta in Hc, Hn, Ht, Hi, Hw.
  rewrite !erase_class in Hc. rewrite !erase_name in Hn.
  rewrite !erase_type in Ht. rewrite !erase_initialized in Hi.
  rewrite !erase_init_factories in Hw. simpl in Hc, Hn, Ht, Hi, Hw.
  exists f'. repeat split; auto.
  intros Hns.
  rewrite (erase_other (n', f')) in He' by (simpl; congruence).
  rewrite (erase_other (n, f)) in He' by (simpl; congruence).
  congruence.
Qed.

Lemma factory_at_frame (s s' : State) (i : nat) (f : Factory) :
  frame s s' ->
  factory_at i (_repository s) = Some f ->
  exists f',
    factory_at i (_repository s') = Some f'
    /\ factory_class f' = factory_class f
    /\ _component_name f' = _component_name f
    /\ _component_type f' = _component_type f
    /\ _initialized f' = _initialized f
    /\ _init_factories f' = _init_factories f
    /\ (factory_class f <> SingletonComponentFactory -> f' = f).
Proof. intros (Hd & _). now apply factory_at_erased. Qed.

Lemma preserves_ret (A : Type) (a : A) : preserves (ret a).
Proof. intros s. apply frame_refl. Qed.

Lemma preserves_raise (A : Type) (e : exn) : preserves (@raise CT A e).
Proof. intros s. apply frame_refl. Qed.

Lemma preserves_lift (A : Type) (r : outcome A) : preserves (lift r).
Proof. intros s. apply frame_refl. Qed.

Lemma preserves_bind (A B : Type) (m : M A) (k : A -> M B) :
  preserves m -> (forall a, preserves (k a)) -> preserves (bind m k).
Proof.
  intros Hm Hk s. unfold bind. specialize (Hm s).
  destruct (m s) as [[a|e|] s1]; simpl in *; auto.
  eapply frame_trans; [exact Hm | apply Hk].
Qed.

Lemma with_detector_preserves (A : Type) (n : string) (body : M A) :
  preserves body -> preserves (with_DependencyCyclicDetector n body).
Proof.
  intros Hb s. unfold with_DependencyCyclicDetector, on_context at 1, push.
  destruct (str_in n (context s)).
  - simpl. rewrite with_context_same. apply frame_refl.
  - specialize (Hb (with_context (context s ++ [n]) s)).
    destruct (body (with_context (context s ++ [n]) s)) as [r s2].
    simpl in Hb. destruct Hb as (Hd & Ht & Hc & Ha). simpl in Hd, Ht, Hc, Ha.
    unfold on_context. rewrite <- Hc, pop_pushed.
    assert (F : frame s (with_context (context s) s2))
      by (unfold frame; simpl; auto).
    destruct r; exact F.
Qed.

Section Producing_preserves.

Variable rec : nat -> M (obj cls).
Hypothesis rec_preserves : forall i, preserves (rec i).

Lemma get_component_with_preserves (key : Key cls) :
  preserves (get_component_with rec key).
Proof.
  intros s. unfold get_component_with.
  destruct (lookup key (_repository s)); try apply frame_refl.
  apply rec_preserves.
Qed.

Lemma get_objects_preserves (fs : list nat) : preserves (get_objects rec fs).
Proof.
  induction fs as [|f fs IH]; simpl; [apply preserves_ret|].
  apply preserves_bind; [apply rec_preserves|]. intros o.
  apply preserves_bind; [exact IH|]. intros os. apply preserves_ret.
Qed.

Lemma run_lookups_preserves (keys : list (Key cls)) :
  preserves (run_lookups rec keys).
Proof.
  induction keys as [|k keys IH]; simpl; [apply preserves_ret|].
  apply preserves_bind; [apply get_component_with_preserves | intros _; exact IH].
Qed.

Lemma construct_preserves (c : cls) (args : list (obj cls)) :
  preserves (construct rec c args).
Proof.
  intros s. unfold construct.
  eapply frame_trans; [apply frame_allocate|].
  apply preserves_bind; [apply run_lookups_preserves|]. intros _.
  destruct (init_raises (init_body c args));
    [apply preserves_raise | apply preserves_ret].
Qed.

Lemma _create_component_preserves (self : Factory) :
  preserves (_create_component rec self).
Proof.
  unfold _create_component. apply with_detector_preserves.
  apply preserves_bind; [apply preserves_lift|]. intros _.
  destruct (_init_factories self) as [fs|]; [|apply preserves_raise].
  apply preserves_bind; [apply get_objects_preserves|]. intros args.
  apply construct_preserves.
Qed.

Lemma get_object_with_preserves (i : nat) : preserves (get_object_with rec i).
Proof.
  intros s. unfold get_object_with.
  destruct (factory_at i (_repository s)) as [self|] eqn:Hf; [|apply frame_refl].
  destruct (factory_class self) eqn:Hc; try apply frame_refl.
  - destruct (is_None (_instance self)); [|apply frame_refl].
    pose proof (_create_component_preserves self s) as F.
    destruct (_create_component rec self s) as [[o|e|] s1]; simpl in *; auto.
    eapply frame_trans; [exact F|].
    destruct (factory_at_frame _ _ i _ F Hf) as (f' & Hf' & Hc' & _).
    unfold frame. simpl. repeat split; auto.
    symmetry. apply map_erase_update. intros n f Hn.
    apply erase_set_instance. unfold factory_at in Hf'. rewrite Hn in Hf'.
    congruence.
  - apply _create_component_preserves.
Qed.

End Producing_preserves.

Lemma get_object_preserves (fuel i : nat) : preserves (get_object fuel i).
Proof.
  revert i. induction fuel as [|fuel IH]; intros i.
  - intros s. apply frame_refl.
  - simpl. apply get_object_with_preserves. exact IH.
Qed.

Lemma get_component_preserves (fuel : nat) (key : Key cls) :
  preserves (get_component fuel key).
Proof.
  apply get_component_with_preserves. intros i. apply get_object_preserves.
Qed.

(* ------------------------------------------------------------------ *)
(** *** The depth budget always suffices

    A nested [get_object] that reaches [_create_component] puts a name on the
    stack that was not there, and the names on the stack are names of
    factories; so the nesting is never deeper than the number of factories. *)

Lemma lookup_answers (key : Key cls) (r : Repository) :
  is_out_of_fuel (lookup key r) = false.
Proof.
  destruct key as [n|c|]; simpl; auto.
  - destruct (find_by_name n r) as [[i f]|]; reflexivity.
  - destruct (type_in c (available_component_types r)); [|reflexivity].
    destruct (1 <? List.length (find_by_type c r))%nat; [reflexivity|].
    destruct (find_by_type c r) as [|[m i] l]; reflexivity.
Qed.

Lemma budget_frame (fuel : nat) (s s' : State) :
  budget fuel s -> frame s s' -> budget fuel s'.
Proof.
  intros (Hn & Hi & Hl) F. pose proof (names_frame _ _ F) as Hnames.
  destruct F as (_ & _ & Hc & _). unfold budget.
  rewrite <- Hc, <- Hnames. auto.
Qed.

Section Producing_answers.

Variable rec : nat -> M (obj cls).
Hypothesis rec_preserves : forall i, preserves (rec i).

Variable P : State -> Prop.
Hypothesis P_frame : forall s s', P s -> frame s s' -> P s'.
Hypothesis rec_answers : forall i, answers P (rec i).

Lemma answers_bind (A B : Type) (m : M A) (k : A -> M B) :
  answers P m -> preserves m -> (forall a, answers P (k a)) ->
  answers P (bind m k).
Proof.
  intros Hm Hp Hk s HP. unfold bind.
  specialize (Hm s HP). specialize (Hp s).
  destruct (m s) as [[a|e|] s1]; simpl in *; auto.
  apply Hk. eapply P_frame; eauto.
Qed.

Lemma get_component_with_answers (key : Key cls) :
  answers P (get_component_with rec key).
Proof.
  intros s HP. unfold get_component_with.
  pose proof (lookup_answers key (_repository s)) as L.
  destruct (lookup key (_repository s)); simpl in *; auto.
  now apply rec_answers.
Qed.

Lemma get_objects_answers (fs : list nat) : answers P (get_objects rec fs).
Proof.
  induction fs as [|f fs IH]; simpl; [intros s _; reflexivity|].
  apply answers_bind; [apply rec_answers | apply rec_preserves |]. intros o.
  apply answers_bind; [exact IH | now apply get_objects_preserves |].
  intros os s _. reflexivity.
Qed.

Lemma run_lookups_answers (keys : list (Key cls)) :
  answers P (run_lookups rec keys).
Proof.
  induction keys as [|k keys IH]; simpl; [intros s _; reflexivity|].
  apply answers_bind;
    [apply get_component_with_answers
    | now apply get_component_with_preserves
    | intros _; exact IH].
Qed.

Lemma construct_answers (c : cls) (args : list (obj cls)) :
  answers P (construct rec c args).
Proof.
  intros s HP. unfold construct.
  apply answers_bind.
  - apply run_lookups_answers.
  - now apply run_lookups_preserves.
  - intros _ s' _. destruct (init_raises (init_body c args)); reflexivity.
  - eapply P_frame; [exact HP | apply frame_allocate].
Qed.

Lemma body_answers (self : Factory) :
  answers P
    (bind (lift (assert_state (_initialized self) "Factory not initialized."))
       (fun _ =>
          match _init_factories self with
          | None => raise TypeError
          | Some fs =>
              bind (get_objects rec fs)
                (fun args => construct rec (_component_type self) args)
          end)).
Proof.
  apply answers_bind.
  - intros s _. unfold lift, assert_state. simpl.
    destruct (_initialized self); reflexivity.
  - apply preserves_lift.
  - intros _. destruct (_init_factories self) as [fs|]; [|intros s _; reflexivity].
    apply answers_bind;
      [apply get_objects_answers
      | now apply get_objects_preserves
      | intros args; apply construct_answers].
Qed.

End Producing_answers.

Lemma factory_at_name (i : nat) (r : Repository) (f : Factory) :
  factory_at i r = Some f -> In (_component_name f) (names r).
Proof.
  unfold factory_at, names. intros H.
  destruct (nth_error (factory_by_name r) i) as [[n f0]|] eqn:E; [|discriminate].
  injection H as ->. apply nth_error_In in E.
  apply (in_map (fun e => _component_name (snd e))) in E. exact E.
Qed.

Lemma _create_component_answers (fuel i : nat) (self : Factory) (s : State) :
  (forall j, answers (budget fuel) (get_object fuel j)) ->
  factory_at i (_repository s) = Some self ->
  budget (S fuel) s ->
  is_out_of_fuel (fst (_create_component (get_object fuel) self s)) = false.
Proof.
  intros IH Hf (Hn & Hi & Hl).
  unfold _create_component, with_DependencyCyclicDetector, on_context at 1, push.
  destruct (str_in (_component_name self) (context s)) eqn:E; [reflexivity|].
  set (s1 := with_context (context s ++ [_component_name self]) s).
  assert (B1 : budget fuel s1).
  { unfold budget, s1. simpl. repeat split.
    - apply NoDup_app; auto.
      + constructor; [intros [] | constructor].
      + intros a Ha [<-|[]]. apply str_in_not_In in E. contradiction.
    - apply incl_app; auto. intros a [<-|[]]. eapply factory_at_name; eauto.
    - rewrite length_app. simpl. lia. }
  pose proof (@body_answers (get_object fuel) (get_object_preserves fuel)
                (budget fuel) (@budget_frame fuel) IH self s1 B1) as Hb.
  match goal with
  | |- context [let (r, s2) := ?b s1 in _] => destruct (b s1) as [r s2]
  end.
  simpl in Hb.
  destruct (on_context (pop (_component_name self)) s2) as [p s3].
  destruct r; [destruct p; reflexivity | destruct p; reflexivity | discriminate].
Qed.

Lemma get_object_answers (fuel : nat) :
  forall i, answers (budget fuel) (get_object fuel i).
Proof.
  induction fuel as [|fuel IH]; intros i s HB.
  - destruct HB as (Hn & Hi & Hl).
    pose proof (NoDup_incl_length Hn Hi). simpl in Hl. lia.
  - simpl. unfold get_object_with.
    destruct (factory_at i (_repository s)) as [self|] eqn:Hf; [|reflexivity].
    destruct (factory_class self); [reflexivity | |].
    + destruct (is_None (_instance self)); [|reflexivity].
      pose proof (@_create_component_answers fuel i self s IH Hf HB) as Hc.
      destruct (_create_component (get_object fuel) self s) as [[o|e|] s1];
        simpl in *; auto.
    + eapply _create_component_answers; eauto.
Qed.

(** With a budget above the number of factories, a call made while nothing
    is being resolved never runs out of it. *)
Lemma get_object_total (fuel i : nat) (s : State) :
  context s = [] ->
  List.length (factory_by_name (_repository s)) < fuel ->
  is_out_of_fuel (fst (get_object fuel i s)) = false.
Proof.
  intros Hc Hl. apply get_object_answers. unfold budget. rewrite Hc.
  repeat split.
  - constructor.
  - intros a [].
  - unfold names. rewrite length_map. simpl. lia.
Qed.

Lemma get_component_total (fuel : nat) (key : Key cls) (s : State) :
  context s = [] ->
  List.length (factory_by_name (_repository s)) < fuel ->
  is_out_of_fuel (fst (get_component fuel key s)) = false.
Proof.
  intros Hc Hl. unfold get_component, get_component_with.
  pose proof (lookup_answers key (_repository s)) as L.
  destruct (lookup key (_repository s)); simpl in *; auto.
  now apply get_object_total.
Qed.

(* ------------------------------------------------------------------ *)
(** *** [_create_component], path by path *)

Lemma with_detector_enter (A : Type) (n : string) (body : M A) (s : State) :
  preserves body ->
  str_in n (context s) = false ->
  with_DependencyCyclicDetector n body s
  = (fst (body (with_context (context s ++ [n]) s)),
     with_context (context s) (snd (body (with_context (context s ++ [n]) s)))).
Proof.
  intros Hb E. unfold with_DependencyCyclicDetector, on_context at 1.
  rewrite (push_fresh _ _ E).
  specialize (Hb (with_context (context s ++ [n]) s)).
  destruct (body (with_context (context s ++ [n]) s)) as [r s2].
  destruct Hb as (_ & _ & Hc & _). simpl in Hc. simpl fst. simpl snd.
  unfold on_context. rewrite <- Hc, pop_pushed. destruct r; reflexivity.
Qed.

Section Producing_paths.

Variable rec : nat -> M (obj cls).
Hypothesis rec_preserves : forall i, preserves (rec i).

Lemma body_preserves (self : Factory) :
  preserves
    (bind (lift (assert_state (_initialized self) "Factory not initialized."))
       (fun _ =>
          match _init_factories self with
          | None => raise TypeError
          | Some fs =>
              bind (get_objects rec fs)
                (fun args => construct rec (_component_type self) args)
          end)).
Proof.
  apply preserves_bind; [apply preserves_lift|]. intros _.
  destruct (_init_factories self) as [fs|]; [|apply preserves_raise].
  apply preserves_bind; [now apply get_objects_preserves|]. intros args.
  now apply construct_preserves.
Qed.

Lemma _create_component_cyclic (self : Factory) (s : State) :
  str_in (_component_name self) (context s) = true ->
  _create_component rec self s
  = (Raise (CyclicDependencyException
              (skipn (index (_component_name self) (context s)) (context s)
               ++ [_component_name self])), s).
Proof.
  intros E. unfold _create_component, with_DependencyCyclicDetector, on_context.
  rewrite (push_present _ _ E). now rewrite with_context_same.
Qed.

Lemma _create_component_uninitialized (self : Factory) (s : State) :
  str_in (_component_name self) (context s) = false ->
  _initialized self = false ->
  _create_component rec self s
  = (Raise (InvalidStateException "Factory not initialized."), s).
Proof.
  intros E Hi. unfold _create_component.
  rewrite with_detector_enter by (apply body_preserves || exact E).
  unfold bind, lift, assert_state. rewrite Hi. cbn [negb fst snd].
  now rewrite with_context_twice, with_context_same.
Qed.

Lemma _create_component_raise (self : Factory) (s : State) (j : nat) (e : exn) :
  str_in (_component_name self) (context s) = false ->
  _initialized self = true ->
  _init_factories self = Some [j] ->
  rec j (with_context (context s ++ [_component_name self]) s)
  = (Raise e, with_context (context s ++ [_component_name self]) s) ->
  _create_component rec self s = (Raise e, s).
Proof.
  intros E Hi Hw Hr. unfold _create_component.
  rewrite with_detector_enter by (apply body_preserves || exact E).
  unfold bind, lift, assert_state. rewrite Hi, Hw. cbn [negb get_objects].
  unfold bind. rewrite Hr. cbn [fst snd].
  now rewrite with_context_twice, with_context_same.
Qed.

(** When [_create_component] returns, what it returns was allocated during
    the call. *)
Lemma _create_component_fresh (self : Factory) (s s1 : State) (o : obj cls) :
  _create_component rec self s = (Ret o, s1) ->
  fresh o (_component_type self) s s1.
Proof.
  unfold _create_component. intros H.
  destruct (str_in (_component_name self) (context s)) eqn:E.
  - unfold with_DependencyCyclicDetector, on_context in H.
    rewrite (push_present _ _ E) in H. discriminate.
  - rewrite with_detector_enter in H by (apply body_preserves || exact E).
    set (s0 := with_context (context s ++ [_component_name self]) s) in H.
    match type of H with
    | (fst (?b s0), _) = _ => destruct (b s0) as [r s4] eqn:Hb
    end.
    cbn [fst snd] in H. injection H as -> <-.
    revert Hb. unfold bind at 1, lift, assert_state.
    destruct (_initialized self); cbn [negb]; [|discriminate].
    destruct (_init_factories self) as [fs|]; [|discriminate].
    unfold bind at 1.
    pose proof (get_objects_preserves rec rec_preserves fs s0) as F1.
    destruct (get_objects rec fs s0) as [[args|e|] s2]; try discriminate.
    unfold construct, bind.
    pose proof (run_lookups_preserves rec rec_preserves
                  (init_lookups (init_body (_component_type self) args))
                  (allocate s2)) as F2.
    destruct (run_lookups rec
                (init_lookups (init_body (_component_type self) args))
                (allocate s2)) as [[[]|e|] s3]; try discriminate.
    destruct (init_raises (init_body (_component_type self) args));
      [discriminate|].
    intros H. injection H as <- <-.
    exists (allocated s2), args. split; [reflexivity|].
    destruct F1 as (_ & _ & _ & A1). destruct F2 as (_ & _ & _ & A2).
    simpl in *. lia.
Qed.

End Producing_paths.

Lemma get_object_singleton_raise (fuel i : nat) (self : Factory) (s s' : State)
  (e : exn) :
  factory_at i (_repository s) = Some self ->
  factory_class self = SingletonComponentFactory ->
  _instance self = PyNone ->
  _create_component (get_object fuel) self s = (Raise e, s') ->
  get_object (S fuel) i s = (Raise e, s').
Proof.
  intros Hf Hc Hn Hr. simpl. unfold get_object_with.
  now rewrite Hf, Hc, Hn, Hr.
Qed.

(* ------------------------------------------------------------------ *)
(** *** The stack is released *)

(** C4.  Whatever a top-level [get_component] call does -- return, raise
    [CyclicDependencyException], [InvalidStateException] for a factory that
    is not initialized, or the exception of a constructor --, the stack of
    names in progress is empty again when the call is over; the call does
    end, within a depth budget above the number of factories; and so the
    next call starts, and ends, with an empty stack too. *)
Theorem detector_stack_released (fuel : nat) (key : Key cls) (s : State) :
  context s = [] ->
  context (snd (get_component fuel key s)) = []
  /\ (List.length (factory_by_name (_repository s)) < fuel ->
      is_out_of_fuel (fst (get_component fuel key s)) = false)
  /\ forall fuel' key',
       context (snd (get_component fuel' key' (snd (get_component fuel key s))))
       = [].
Proof.
  intros Hc.
  assert (H1 : context (snd (get_component fuel key s)) = []).
  { destruct (get_component_preserves fuel key s) as (_ & _ & Hk & _).
    congruence. }
  split; [exact H1|]. split.
  - intros Hl. now apply get_component_total.
  - intros fuel' key'.
    destruct (get_component_preserves fuel' key'
                (snd (get_component fuel key s))) as (_ & _ & Hk & _).
    congruence.
Qed.

(* ------------------------------------------------------------------ *)
(** *** Cycles *)

Lemma get_object_cycle (s : State) (iA iB iC : nat) (nA nB nC : string)
  (fuel : nat) :
  context s = [] ->
  requires s iA nA iB -> requires s iB nB iC -> requires s iC nC iA ->
  nA <> nB -> nB <> nC -> nC <> nA ->
  get_object (4 + fuel) iA s
  = (Raise (CyclicDependencyException [nA; nB; nC; nA]), s).
Proof.
  intros Hc (fA & HfA & HcA & HnA & HiA & HoA & HwA)
    (fB & HfB & HcB & HnB & HiB & HoB & HwB)
    (fC & HfC & HcC & HnC & HiC & HoC & HwC) Hab Hbc Hca.
  assert (P : forall f, forall i, preserves (get_object f i))
    by (intros f i; apply get_object_preserves).
  change (4 + fuel) with (S (S (S (S fuel)))).
  apply (get_object_singleton_raise _ _ fA); auto.
  apply (_create_component_raise _ (P _) _ _ iB); auto.
  { rewrite Hc. reflexivity. }
  rewrite Hc, HnA. simpl app.
  apply (get_object_singleton_raise _ _ fB); auto.
  apply (_create_component_raise _ (P _) _ _ iC); auto.
  { rewrite HnB. apply str_in_not_In. simpl. intros [?|[]]. congruence. }
  rewrite HnB. simpl app.
  apply (get_object_singleton_raise _ _ fC); auto.
  apply (_create_component_raise _ (P _) _ _ iA); auto.
  { rewrite HnC. apply str_in_not_In. simpl. intros [?|[?|[]]]; congruence. }
  rewrite HnC. simpl app.
  apply (get_object_singleton_raise _ _ fA); auto.
  rewrite (_create_component_cyclic _ fA).
  - rewrite HnA. simpl. now rewrite String.eqb_refl.
  - rewrite HnA. apply str_in_In. simpl. auto.
Qed.

(** C1, as the code has it.  In a container where, after [setup], the
    component named [nA] requires the one named [nB], which requires the one
    named [nC], which requires [nA], requesting any of the three raises
    [CyclicDependencyException]; the cycle it reports starts and ends at the
    component that was requested: [[nA; nB; nC; nA]] for the first,
    [[nB; nC; nA; nB]] for the second, [[nC; nA; nB; nC]] for the third.  The
    call leaves the state as it found it. *)
Theorem cyclic_dependency_reported (s : State) (iA iB iC : nat)
  (nA nB nC : string) (fuel : nat) (key : Key cls) :
  context s = [] ->
  requires s iA nA iB -> requires s iB nB iC -> requires s iC nC iA ->
  nA <> nB -> nB <> nC -> nC <> nA ->
  (lookup key (_repository s) = Ret iA ->
   get_component (4 + fuel) key s
   = (Raise (CyclicDependencyException [nA; nB; nC; nA]), s))
  /\ (lookup key (_repository s) = Ret iB ->
      get_component (4 + fuel) key s
      = (Raise (CyclicDependencyException [nB; nC; nA; nB]), s))
  /\ (lookup key (_repository s) = Ret iC ->
      get_component (4 + fuel) key s
      = (Raise (CyclicDependencyException [nC; nA; nB; nC]), s)).
Proof.
  intros Hc RA RB RC Hab Hbc Hca.
  unfold get_component, get_component_with.
  repeat split; intros ->.
  - now apply (get_object_cycle s iA iB iC).
  - now apply (get_object_cycle s iB iC iA).
  - now apply (get_object_cycle s iC iA iB).
Qed.

(* ------------------------------------------------------------------ *)
(** *** Registration *)

Lemma register_eq (reg : Registration) (s : State) :
  register reg s
  = on_repository
      (register_factory (registration_name reg) (registered_factory reg)) s.
Proof. destruct reg as [c [n|]|o n]; reflexivity. Qed.

Lemma name_in_app (n : string) (d d' : list (string * Factory)) :
  name_in n (d ++ d') = name_in n d || name_in n d'.
Proof. unfold name_in. apply existsb_app. Qed.

Lemma find_from_app_old (k : nat) (n : string) (d d' : list (string * Factory)) :
  name_in n d = true -> find_from k n (d ++ d') = find_from k n d.
Proof.
  revert k. induction d as [|[m f] d IH]; intros k H; [discriminate|].
  simpl in *. destruct (String.eqb m n); [reflexivity | now apply IH].
Qed.

Lemma find_from_app_new (k : nat) (n : string) (d : list (string * Factory))
  (f : Factory) :
  name_in n d = false ->
  find_from k n (d ++ [(n, f)]) = Some (k + List.length d, f).
Proof.
  revert k. induction d as [|[m g] d IH]; intros k H; simpl in *.
  - rewrite String.eqb_refl. f_equal. f_equal. lia.
  - destruct (String.eqb m n); [discriminate|].
    rewrite IH by assumption. f_equal. f_equal. lia.
Qed.

Lemma find_from_name_in (k : nat) (n : string) (d : list (string * Factory)) :
  name_in n d = false <-> find_from k n d = None.
Proof.
  revert k. induction d as [|[m f] d IH]; intros k; simpl; [tauto|].
  destruct (String.eqb m n); simpl; [split; discriminate | apply IH].
Qed.

(** A registration either finds the name taken and changes nothing, or adds
    its factory at the end of the repository. *)
Lemma register_cases (reg : Registration) (s : State) :
  (name_in (registration_name reg) (factory_by_name (_repository s)) = true
   /\ register reg s = (Raise NameAlreadyDefinedException, s))
  \/ (name_in (registration_name reg) (factory_by_name (_repository s)) = false
      /\ register reg s
         = (Ret tt,
            with_repository
              {| factory_by_name :=
                   factory_by_name (_repository s)
                   ++ [(registration_name reg, registered_factory reg)];
                 available_component_types :=
                   set_add (_component_type (registered_factory reg))
                     (available_component_types (_repository s)) |} s)).
Proof.
  rewrite register_eq. unfold on_repository, register_factory.
  destruct (name_in (registration_name reg) (factory_by_name (_repository s)));
    [left | right]; split; auto.
  now rewrite with_repository_same.
Qed.

Lemma name_in_registered (reg : Registration) (s : State) :
  name_in (registration_name reg)
    (factory_by_name (_repository (snd (register reg s)))) = true.
Proof.
  destruct (register_cases reg s) as [[H ->]|[H ->]]; simpl; [exact H|].
  rewrite name_in_app. simpl. rewrite String.eqb_refl.
  now rewrite orb_true_r.
Qed.

(** C9.  After a registration under a name -- of a type or of an instance,
    successful or not --, any registration under the same name raises
    [NameAlreadyDefinedException] and leaves the container, hence the
    repository and its indices, as it was; and when the first registration
    went through, the name is still bound to the factory it built. *)
Theorem duplicate_name_rejected (reg1 reg2 : Registration) (s : State) :
  registration_name reg1 = registration_name reg2 ->
  register reg2 (snd (register reg1 s))
  = (Raise NameAlreadyDefinedException, snd (register reg1 s))
  /\ (fst (register reg1 s) = Ret tt ->
      find_by_name (registration_name reg1)
        (_repository (snd (register reg2 (snd (register reg1 s)))))
      = Some (List.length (factory_by_name (_repository s)),
              registered_factory reg1)).
Proof.
  intros Hn.
  assert (H2 : register reg2 (snd (register reg1 s))
               = (Raise NameAlreadyDefinedException, snd (register reg1 s))).
  { pose proof (name_in_registered reg1 s) as H1. rewrite Hn in H1.
    destruct (register_cases reg2 (snd (register reg1 s))) as [[_ E]|[E _]];
      [exact E | congruence]. }
  split; [exact H2|].
  rewrite H2. cbn [snd].
  destruct (register_cases reg1 s) as [[_ ->]|[H ->]]; [discriminate|].
  intros _. unfold find_by_name. simpl.
  now rewrite find_from_app_new.
Qed.

(* ------------------------------------------------------------------ *)
(** *** Before [setup] *)

Lemma factory_at_app (i : nat) (d : list (string * Factory)) (n : string)
  (f g : Factory) (t t' : list cls) :
  factory_at i {| factory_by_name := d ++ [(n, f)];
                  available_component_types := t |} = Some g ->
  factory_at i {| factory_by_name := d; available_component_types := t' |}
  = Some g
  \/ (i = List.length d /\ g = f).
Proof.
  unfold factory_at. simpl. intros H.
  destruct (Nat.lt_ge_cases i (List.length d)) as [L|L].
  - left. now rewrite nth_error_app1 in H.
  - right. rewrite nth_error_app2 in H by assumption.
    destruct (i - List.length d) as [|k] eqn:E; simpl in H.
    + split; [lia | congruence].
    + destruct k; discriminate.
Qed.

(** Before [setup], nothing is being resolved and no singleton factory is
    initialized or has built its instance. *)
Lemma registering_fresh (s : State) :
  registering s ->
  context s = []
  /\ forall i f,
       factory_at i (_repository s) = Some f ->
       factory_class f = SingletonComponentFactory ->
       _initialized f = false /\ _instance f = PyNone.
Proof.
  induction 1 as [|reg s _ [IHc IHf]].
  - split; [reflexivity|]. intros i f Hf Hc.
    destruct i as [|[|i]]; simpl in Hf; try discriminate.
    injection Hf as <-. discriminate.
  - destruct (register_cases reg s) as [[_ ->]|[_ ->]]; [now split|].
    split; [exact IHc|]. intros i f Hf Hc. cbn [snd with_repository _repository] in Hf.
    apply (factory_at_app _ _ _ _ _ _ (available_component_types (_repository s)))
      in Hf.
    destruct Hf as [Hf|[_ ->]].
    + apply (IHf i). 2: exact Hc.
      destruct (_repository s); exact Hf.
    + destruct reg as [c n|o n]; [split; reflexivity | discriminate].
Qed.

(** C7.  Before [setup], in whatever state the registrations made so far
    left the container, a [get_component] call that reaches a singleton
    creating factory -- the factory [register_type] builds -- raises
    [InvalidStateException] (factory not initialized) and leaves the state,
    the factory's empty cache included, as it was: a call made after [setup]
    behaves as if the early call had not been made. *)
Theorem get_component_before_setup (s : State) (key : Key cls) (i : nat)
  (f : Factory) (fuel : nat) :
  registering s ->
  lookup key (_repository s) = Ret i ->
  factory_at i (_repository s) = Some f ->
  factory_class f = SingletonComponentFactory ->
  get_component (S fuel) key s
  = (Raise (InvalidStateException "Factory not initialized."), s)
  /\ forall fuel' key',
       get_component fuel' key' (snd (setup (snd (get_component (S fuel) key s))))
       = get_component fuel' key' (snd (setup s)).
Proof.
  intros Hr Hl Hf Hc.
  destruct (registering_fresh s Hr) as [Hctx Hfresh].
  destruct (Hfresh i f Hf Hc) as [Hi Ho].
  assert (E : get_component (S fuel) key s
              = (Raise (InvalidStateException "Factory not initialized."), s)).
  { unfold get_component, get_component_with. rewrite Hl.
    apply (get_object_singleton_raise _ _ f); auto.
    apply _create_component_uninitialized; auto.
    - intros j. apply get_object_preserves.
    - now rewrite Hctx. }
  split; [exact E|]. intros fuel' key'. now rewrite E.
Qed.

(** The factory [register_type] adds is a singleton creating factory, found
    under the name it was registered with. *)
Lemma register_type_lookup (c : cls) (n : option string) (s : State) :
  fst (register_type c n s) = Ret tt ->
  lookup (KStr (registration_name (RegisterType c n)))
    (_repository (snd (register_type c n s)))
  = Ret (List.length (factory_by_name (_repository s)))
  /\ factory_at (List.length (factory_by_name (_repository s)))
       (_repository (snd (register_type c n s)))
     = Some (registered_factory (RegisterType c n)).
Proof.
  change (register_type c n) with (register (RegisterType c n)).
  destruct (register_cases (RegisterType c n) s) as [[_ ->]|[H ->]];
    [discriminate|].
  intros _. cbn [snd with_repository _repository]. split.
  - rewrite lookup_KStr. unfold find_by_name. cbn [factory_by_name].
    now rewrite find_from_app_new.
  - unfold factory_at. cbn [factory_by_name].
    rewrite nth_error_app2 by lia. now rewrite Nat.sub_diag.
Qed.

(* ------------------------------------------------------------------ *)
(** *** Singletons and prototypes *)

Lemma factory_at_update (i : nat) (g : Factory -> Factory) (r : Repository)
  (f : Factory) :
  factory_at i r = Some f ->
  factory_at i (update_factory i g r) = Some (g f).
Proof.
  unfold factory_at, update_factory. cbn [factory_by_name].
  generalize (factory_by_name r). intros d. revert i.
  induction d as [|[n f0] d IH]; intros i H.
  - destruct i; discriminate.
  - destruct i as [|i]; simpl in *.
    + congruence.
    + now apply IH.
Qed.

(** What a singleton factory returns is what it holds afterwards; it is not
    [None]; and when the factory held nothing, it was built during the
    call. *)
Lemma get_object_singleton (fuel i : nat) (f : Factory) (s s1 : State)
  (o : obj cls) :
  factory_at i (_repository s) = Some f ->
  factory_class f = SingletonComponentFactory ->
  get_object fuel i s = (Ret o, s1) ->
  (exists f1,
     factory_at i (_repository s1) = Some f1
     /\ factory_class f1 = SingletonComponentFactory
     /\ _instance f1 = o)
  /\ is_None o = false
  /\ (_instance f = PyNone -> fresh o (_component_type f) s s1)
  /\ (_instance f <> PyNone -> s1 = s).
Proof.
  intros Hf Hc H. destruct fuel as [|fuel]; [discriminate|].
  simpl in H. unfold get_object_with in H. rewrite Hf, Hc in H.
  destruct (is_None (_instance f)) eqn:En.
  - pose proof (_create_component_preserves (get_object fuel)
                  (get_object_preserves fuel) f s) as F.
    pose proof (_create_component_fresh (get_object fuel)
                  (get_object_preserves fuel) f s) as Hfr.
    destruct (_create_component (get_object fuel) f s) as [[o'|e|] s'];
      try discriminate.
    injection H as -> <-. cbn [snd] in F.
    destruct (factory_at_frame _ _ i _ F Hf) as (f' & Hf' & Hc' & _).
    specialize (Hfr s' o eq_refl).
    repeat split.
    + exists (set_instance o f'). repeat split.
      * cbn [_repository with_repository]. now apply factory_at_update.
      * simpl. congruence.
    + destruct Hfr as (n & args & -> & _). reflexivity.
    + intros _. destruct Hfr as (n & args & -> & Hn).
      exists n, args. split; [reflexivity | exact Hn].
    + intros Hne. destruct (_instance f); try discriminate. congruence.
  - injection H as <- <-. repeat split.
    + exists f. auto.
    + exact En.
    + intros Hn. rewrite Hn in En. discriminate.
Qed.

Lemma get_object_prototype (fuel i : nat) (f : Factory) (s s1 : State)
  (o : obj cls) :
  factory_at i (_repository s) = Some f ->
  factory_class f = PrototypeComponentFactory ->
  get_object fuel i s = (Ret o, s1) ->
  fresh o (_component_type f) s s1
  /\ factory_at i (_repository s1) = Some f.
Proof.
  intros Hf Hc H.
  pose proof (get_object_preserves fuel i s) as F. rewrite H in F. cbn [snd] in F.
  destruct (factory_at_frame _ _ i _ F Hf) as (f' & Hf' & _ & _ & _ & _ & _ & He).
  rewrite He in Hf' by congruence. split; [|exact Hf'].
  destruct fuel as [|fuel]; [discriminate|].
  simpl in H. unfold get_object_with in H. rewrite Hf, Hc in H.
  eapply _create_component_fresh; [|exact H].
  apply get_object_preserves.
Qed.

(** C6.  A [get_component] call that reaches a singleton factory and
    returns leaves that factory such that every later call returns the very
    same object and changes nothing, so constructs nothing; the object was
    built during the first call if the factory held none, and no call builds
    anything if it held one.  Two [get_object] calls on a prototype factory
    that return give two distinct objects, each allocated during its own
    call. *)
Theorem singleton_once_prototype_fresh :
  (forall (s : State) (key : Key cls) (i : nat) (f : Factory) (fuel : nat)
          (o : obj cls) (s1 : State),
      lookup key (_repository s) = Ret i ->
      factory_at i (_repository s) = Some f ->
      factory_class f = SingletonComponentFactory ->
      get_component fuel key s = (Ret o, s1) ->
      (forall fuel', get_component (S fuel') key s1 = (Ret o, s1))
      /\ (_instance f = PyNone -> fresh o (_component_type f) s s1)
      /\ (_instance f <> PyNone -> s1 = s))
  /\ (forall (s : State) (i : nat) (f : Factory) (fuel1 fuel2 : nat)
             (o1 o2 : obj cls) (s1 s2 : State),
         factory_at i (_repository s) = Some f ->
         factory_class f = PrototypeComponentFactory ->
         get_object fuel1 i s = (Ret o1, s1) ->
         get_object fuel2 i s1 = (Ret o2, s2) ->
         o1 <> o2
         /\ fresh o1 (_component_type f) s s1
         /\ fresh o2 (_component_type f) s1 s2).
Proof.
  split.
  - intros s key i f fuel o s1 Hl Hf Hc H.
    pose proof (get_component_preserves fuel key s) as F.
    rewrite H in F. cbn [snd] in F.
    unfold get_component, get_component_with in H. rewrite Hl in H.
    destruct (get_object_singleton fuel i f s s1 o Hf Hc H)
      as ((f1 & Hf1 & Hc1 & Ho1) & Hnn & Hfresh & Hsame).
    repeat split; auto.
    intros fuel'. unfold get_component, get_component_with.
    rewrite <- (lookup_frame key s s1 F), Hl.
    simpl. unfold get_object_with. rewrite Hf1, Hc1, Ho1, Hnn. reflexivity.
  - intros s i f fuel1 fuel2 o1 o2 s1 s2 Hf Hc H1 H2.
    destruct (get_object_prototype fuel1 i f s s1 o1 Hf Hc H1) as [Fr1 Hf1].
    destruct (get_object_prototype fuel2 i f s1 s2 o2 Hf1 Hc H2) as [Fr2 _].
    repeat split; auto.
    destruct Fr1 as (n1 & a1 & -> & Hn1). destruct Fr2 as (n2 & a2 & -> & Hn2).
    intros E. injection E as E _. lia.
Qed.

(* ------------------------------------------------------------------ *)
(** *** The container as a component *)

Lemma container_first_init : container_first Container_init.
Proof. reflexivity. Qed.

Lemma container_first_frame (s s' : State) :
  frame s s' -> container_first s -> container_first s'.
Proof.
  unfold container_first. intros (Hd & _) H.
  apply (f_equal (@hd_error _)) in Hd.
  destruct (factory_by_name (_repository s)) as [|e d]; [discriminate|].
  destruct (factory_by_name (_repository s')) as [|e' d']; [discriminate|].
  cbn [map hd_error] in *.
  assert (He : erase e' = erase e) by congruence. clear Hd.
  assert (Hs : e = (CONTAINER_COMPONENT_NAME,
                    StaticComponentFactory_init CONTAINER_COMPONENT_NAME Self))
    by congruence.
  assert (Hc := f_equal (fun e => factory_class (snd e)) He).
  cbv beta in Hc. rewrite !erase_class in Hc.
  rewrite (erase_other e'), (erase_other e) in He;
    try (rewrite ?Hc, Hs; discriminate).
  congruence.
Qed.

Lemma container_first_register (reg : Registration) (s : State) :
  container_first s -> container_first (snd (register reg s)).
Proof.
  intros H. destruct (register_cases reg s) as [[_ ->]|[_ ->]]; [exact H|].
  unfold container_first in *. cbn [snd with_repository _repository factory_by_name].
  destruct (factory_by_name (_repository s)); [discriminate | exact H].
Qed.

Lemma container_first_post_init (i : nat) (s : State) :
  container_first s ->
  container_first (snd (on_repository (post_init i) s)).
Proof.
  unfold container_first, on_repository, post_init, factory_at. intros H.
  destruct (factory_by_name (_repository s)) as [|[n0 f0] d] eqn:Ed;
    [discriminate|].
  injection H as -> ->.
  destruct i as [|i].
  - simpl. rewrite Ed. reflexivity.
  - cbn [nth_error].
    destruct (nth_error d i) as [[n f]|];
      [|simpl; rewrite Ed; reflexivity].
    destruct (factory_class f); [simpl; rewrite Ed; reflexivity | |];
      destruct (post_init_loop (_repository s)
                  (_requirements (set_init_factories (Some []) f))
                  (set_init_factories (Some []) f)) as [[[]|e|] f'];
      simpl; rewrite Ed; reflexivity.
Qed.

Lemma container_first_setup_loop (fs : list nat) (s : State) :
  container_first s -> container_first (snd (setup_loop fs s)).
Proof.
  revert s. induction fs as [|i fs IH]; intros s H; [exact H|].
  simpl. unfold bind.
  pose proof (container_first_post_init i s H) as H1.
  destruct (on_repository (post_init i) s) as [[[]|e|] s1]; simpl in *; auto.
Qed.

Lemma reachable_container_first (s : State) :
  reachable s -> container_first s.
Proof.
  induction 1 as [|reg s _ IH|s _ IH|fuel key s _ IH _].
  - apply container_first_init.
  - now apply container_first_register.
  - now apply container_first_setup_loop.
  - eapply container_first_frame; [apply get_component_preserves | exact IH].
Qed.

Lemma reachable_context (s : State) : reachable s -> context s = [].
Proof.
  induction 1 as [|reg s _ IH|s _ IH|fuel key s _ IH _].
  - reflexivity.
  - destruct (register_cases reg s) as [[_ ->]|[_ ->]]; exact IH.
  - unfold setup. generalize (factories (_repository s)). intros fs.
    revert s IH. induction fs as [|i fs IHfs]; intros s IH; [exact IH|].
    simpl. unfold bind, on_repository at 1.
    destruct (post_init i (_repository s)) as [[[]|e|] r]; simpl; auto.
  - destruct (get_component_preserves fuel key s) as (_ & _ & Hk & _).
    congruence.
Qed.

(** C8, as the code has it.  In every state a container goes through, its
    first factory is the static factory registered by [__init__] under the
    name ["container"], holding the container itself, and that name is bound
    to it.  A requirement named ["container"] whose declared type is
    [Container] or one of its superclasses ([object] for a parameter without
    annotation) is resolved by [post_init] to that factory.  A requirement
    of type [Container] under a name that is not bound is resolved to it as
    well, provided the by-type lookup of [Container] finds one factory only.
    That factory's [get_object] returns the container itself, which is what
    a component wired to it is constructed with. *)
Theorem container_injects_itself (s : State) :
  reachable s ->
  find_by_name CONTAINER_COMPONENT_NAME (_repository s)
  = Some (0, StaticComponentFactory_init CONTAINER_COMPONENT_NAME Self)
  /\ (forall c k,
         issubclass Container_cls c = true ->
         resolve (_repository s)
           {| component_name := Some CONTAINER_COMPONENT_NAME;
              component_type := c; dependency_type := k |}
         = Ret (CONTAINER_COMPONENT_NAME, 0))
  /\ (forall n k,
         issubclass Container_cls Container_cls = true ->
         find_by_name n (_repository s) = None ->
         List.length (find_by_type Container_cls (_repository s)) = 1 ->
         resolve (_repository s)
           {| component_name := Some n;
              component_type := Container_cls; dependency_type := k |}
         = Ret (CONTAINER_COMPONENT_NAME, 0))
  /\ (forall fuel, get_object (S fuel) 0 s = (Ret Self, s))
  /\ (forall fuel, get_objects (get_object (S fuel)) [0] s = (Ret [Self], s)).
Proof.
  intros Hr. pose proof (reachable_container_first s Hr) as H.
  unfold container_first in H.
  destruct (factory_by_name (_repository s)) as [|[n0 f0] d] eqn:Ed;
    [discriminate|].
  injection H as -> ->.
  assert (Hfind : find_by_name CONTAINER_COMPONENT_NAME (_repository s)
                  = Some (0, StaticComponentFactory_init
                               CONTAINER_COMPONENT_NAME Self)).
  { unfold find_by_name. rewrite Ed. reflexivity. }
  assert (Hget : forall fuel, get_object (S fuel) 0 s = (Ret Self, s)).
  { intros fuel. simpl. unfold get_object_with, factory_at. rewrite Ed.
    reflexivity. }
  split; [exact Hfind|]. split; [|split; [|split]].
  - intros c k Hsub. unfold resolve. cbn [component_name component_type].
    rewrite Hfind. unfold is_type_of. cbn [_component_type
      StaticComponentFactory_init type_of]. now rewrite Hsub.
  - intros n k Hrefl Hn Hlen. unfold resolve.
    cbn [component_name component_type].
    rewrite Hn. revert Hlen. unfold find_by_type. rewrite Ed.
    cbn [filter_type_from].
    replace (is_type_of
               (StaticComponentFactory_init CONTAINER_COMPONENT_NAME Self)
               Container_cls) with true by (symmetry; exact Hrefl).
    destruct (filter_type_from 1 Container_cls d); [reflexivity|discriminate].
  - exact Hget.
  - intros fuel. cbn [get_objects]. unfold bind. rewrite Hget. reflexivity.
Qed.

(* ------------------------------------------------------------------ *)
(** *** References stay inside the repository

    The branches of the model that answer a reference to no factory, or an
    initialized factory without its list of factories, are never taken from
    a state a container can be in. *)

Lemma find_from_range (k : nat) (n : string) (d : list (string * Factory))
  (i : nat) (f : Factory) :
  find_from k n d = Some (i, f) -> k <= i < k + List.length d.
Proof.
  revert k. induction d as [|[m g] d IH]; intros k H; [discriminate|].
  simpl in *. destruct (String.eqb m n).
  - injection H as <- _. lia.
  - apply IH in H. lia.
Qed.

Lemma filter_type_from_range (k : nat) (c : cls) (d : list (string * Factory))
  (n : string) (i : nat) :
  In (n, i) (filter_type_from k c d) -> k <= i < k + List.length d.
Proof.
  revert k. induction d as [|[m g] d IH]; intros k H; [destruct H|].
  simpl in *. destruct (is_type_of g c).
  - destruct H as [H|H]; [injection H as _ <-; lia | apply IH in H; lia].
  - apply IH in H. lia.
Qed.

Lemma resolve_range (r : Repository) (req : Dependency) (n : string) (j : nat) :
  resolve r req = Ret (n, j) -> j < List.length (factory_by_name r).
Proof.
  unfold resolve. intros H.
  assert (T :
             (if (List.length (find_by_type (component_type req) r) =? 0)%nat
              then Raise UnknownComponentException
              else if (1 <? List.length (find_by_type (component_type req) r))%nat
                   then Raise TooManyDefinitionsException
                   else match find_by_type (component_type req) r with
                        | found :: _ => Ret found
                        | [] => Raise IndexError
                        end) = Ret (n, j) ->
             j < List.length (factory_by_name r)).
  { intros E.
    destruct (find_by_type (component_type req) r) as [|[m i] t] eqn:Ef;
      [discriminate|].
    assert (Hin : In (n, j) (find_by_type (component_type req) r)).
    { rewrite Ef. destruct (List.length ((m, i) :: t) =? 0)%nat; [discriminate|].
      destruct (1 <? List.length ((m, i) :: t))%nat; [discriminate|].
      injection E as -> ->. now left. }
    apply filter_type_from_range in Hin. lia. }
  destruct (component_name req) as [m|]; [|now apply T].
  destruct (find_by_name m r) as [[i f]|] eqn:Ef; [|now apply T].
  destruct (negb (is_type_of f (component_type req))); [discriminate|].
  injection H as _ <-. apply find_from_range in Ef. lia.
Qed.

Lemma post_init_loop_range (r : Repository) (reqs : list Dependency)
  (self self' : Factory) (out : outcome unit) :
  post_init_loop r reqs self = (out, self') ->
  (forall fs, _init_factories self = Some fs ->
              Forall (fun j => j < List.length (factory_by_name r)) fs) ->
  _init_factories self <> None ->
  (forall fs, _init_factories self' = Some fs ->
              Forall (fun j => j < List.length (factory_by_name r)) fs)
  /\ _init_factories self' <> None
  /\ factory_class self' = factory_class self
  /\ _initialized self' = _initialized self.
Proof.
  revert self. induction reqs as [|req reqs IH]; intros self H Hr Hs.
  - injection H as _ <-. auto.
  - simpl in H. destruct (resolve r req) as [[n j]|e|] eqn:Er;
      try (injection H as _ <-; auto).
    apply IH in H.
    + exact H.
    + intros fs. cbn [append_resolved _init_factories].
      destruct (_init_factories self) as [fs0|]; [|discriminate].
      intros E. injection E as <-. apply Forall_app. split; [now apply Hr|].
      constructor; [|constructor]. eapply resolve_range; eauto.
    + cbn [append_resolved _init_factories].
      destruct (_init_factories self); [discriminate | congruence].
Qed.

Lemma update_nth_length (i : nat) (g : Factory -> Factory)
  (d : list (string * Factory)) :
  List.length (update_nth i g d) = List.length d.
Proof.
  revert i. induction d as [|[n f] d IH]; intros i; [now destruct i|].
  destruct i; simpl; auto.
Qed.

Lemma factory_at_update_other (i j : nat) (g : Factory -> Factory)
  (r : Repository) :
  i <> j -> factory_at j (update_factory i g r) = factory_at j r.
Proof.
  unfold factory_at, update_factory. cbn [factory_by_name].
  generalize (factory_by_name r). intros d. revert i j.
  induction d as [|[n f] d IH]; intros i j H; [now destruct i|].
  destruct i as [|i], j as [|j]; simpl; auto; congruence.
Qed.

Lemma well_wired_update (i : nat) (self' : Factory) (r : Repository) :
  well_wired r ->
  (forall fs, _init_factories self' = Some fs ->
              Forall (fun j => j < List.length (factory_by_name r)) fs) ->
  (factory_class self' <> StaticComponentFactory ->
   _initialized self' = true -> _init_factories self' <> None) ->
  well_wired (update_factory i (fun _ => self') r).
Proof.
  intros W H1 H2 j f Hf.
  cbn [update_factory factory_by_name]. rewrite update_nth_length.
  destruct (Nat.eq_dec i j) as [<-|Hne].
  - destruct (factory_at i r) as [f0|] eqn:E.
    + rewrite (factory_at_update i _ r f0 E) in Hf. injection Hf as <-. auto.
    + exfalso. revert Hf E. unfold factory_at, update_factory.
      cbn [factory_by_name]. generalize (factory_by_name r). intros d.
      revert i. induction d as [|[n g] d IH]; intros i; [now destruct i|].
      destruct i; simpl; [discriminate | apply IH].
  - rewrite factory_at_update_other in Hf by assumption. exact (W j f Hf).
Qed.

Lemma well_wired_post_init (i : nat) (r : Repository) :
  well_wired r -> well_wired (snd (post_init i r)).
Proof.
  intros W. unfold post_init.
  destruct (factory_at i r) as [self|] eqn:Hf; [|exact W].
  assert (L := post_init_loop_range r
                 (_requirements (set_init_factories (Some []) self))
                 (set_init_factories (Some []) self)).
  destruct (post_init_loop r (_requirements (set_init_factories (Some []) self))
              (set_init_factories (Some []) self)) as [out self'].
  destruct (L self' out eq_refl) as (H1 & H2 & H3 & H4).
  { intros fs E. injection E as <-. constructor. }
  { discriminate. }
  destruct (factory_class self); [exact W | |];
    destruct out as [[]|e|]; cbn [snd]; apply well_wired_update; auto.
Qed.

Lemma well_wired_setup_loop (fs : list nat) (s : State) :
  well_wired (_repository s) ->
  well_wired (_repository (snd (setup_loop fs s))).
Proof.
  revert s. induction fs as [|i fs IH]; intros s W; [exact W|].
  simpl. unfold bind, on_repository at 1.
  pose proof (well_wired_post_init i (_repository s) W) as W1.
  destruct (post_init i (_repository s)) as [[[]|e|] r1]; cbn [snd] in *; auto.
Qed.

Lemma well_wired_register (reg : Registration) (s : State) :
  well_wired (_repository s) ->
  well_wired (_repository (snd (register reg s))).
Proof.
  intros W. destruct (register_cases reg s) as [[_ ->]|[_ ->]]; [exact W|].
  cbn [snd with_repository _repository]. intros i f Hf.
  cbn [factory_by_name]. rewrite length_app. cbn [List.length].
  apply (factory_at_app _ _ _ _ _ _ (available_component_types (_repository s)))
    in Hf.
  destruct Hf as [Hf|[_ ->]].
  - destruct (W i f) as [H1 H2]; [destruct (_repository s); exact Hf|].
    split; [|exact H2]. intros fs E.
    eapply Forall_impl; [|apply (H1 fs E)]. cbv beta. intros; lia.
  - destruct reg as [c n|o n]; split; try discriminate.
    intros H. now contradiction H.
Qed.

Lemma well_wired_erased (r r' : Repository) :
  map erase (factory_by_name r) = map erase (factory_by_name r') ->
  well_wired r -> well_wired r'.
Proof.
  intros Hd W i f' Hf'.
  destruct (factory_at_erased r' r i f' (eq_sym Hd) Hf')
    as (f & Hf & Hc & _ & _ & Hi & Hw & _).
  destruct (W i f Hf) as [H1 H2].
  assert (Hl : List.length (factory_by_name r') = List.length (factory_by_name r)).
  { rewrite <- (length_map erase (factory_by_name r')), <- Hd.
    apply length_map. }
  rewrite Hl, <- Hw, <- Hc, <- Hi. split; [exact H1 | exact H2].
Qed.

Lemma reachable_well_wired (s : State) :
  reachable s -> well_wired (_repository s).
Proof.
  induction 1 as [|reg s _ IH|s _ IH|fuel key s _ IH _].
  - intros i f Hf. destruct i as [|[|i]]; simpl in Hf; try discriminate.
    injection Hf as <-. split; [discriminate|]. intros H. now contradiction H.
  - now apply well_wired_register.
  - now apply well_wired_setup_loop.
  - destruct (get_component_preserves fuel key s) as (Hd & _).
    exact (well_wired_erased _ _ Hd IH).
Qed.

Lemma frame_length (s s' : State) :
  frame s s' ->
  List.length (factory_by_name (_repository s'))
  = List.length (factory_by_name (_repository s)).
Proof.
  intros (Hd & _).
  rewrite <- (length_map erase (factory_by_name (_repository s'))), <- Hd.
  apply length_map.
Qed.

Lemma well_wired_frame (s s' : State) :
  frame s s' -> well_wired (_repository s) -> well_wired (_repository s').
Proof. intros (Hd & _). now apply well_wired_erased. Qed.

Lemma factory_at_valid (i : nat) (r : Repository) :
  i < List.length (factory_by_name r) -> exists f, factory_at i r = Some f.
Proof.
  intros H. unfold factory_at.
  destruct (nth_error (factory_by_name r) i) as [[n f]|] eqn:E; [now exists f|].
  apply nth_error_None in E. lia.
Qed.

Lemma lookup_range (key : Key cls) (r : Repository) (i : nat) :
  lookup key r = Ret i -> i < List.length (factory_by_name r).
Proof.
  destruct key as [n|c|]; [| |discriminate].
  - simpl. destruct (find_by_name n r) as [[j f]|] eqn:E; [|discriminate].
    intros H. injection H as <-. apply find_from_range in E. lia.
  - rewrite lookup_KType.
    destruct (type_in c (available_component_types r)); [|discriminate].
    destruct (find_by_type c r) as [|[n j] [|y l]] eqn:E; try discriminate.
    intros H. injection H as <-.
    assert (Hin : In (n, j) (find_by_type c r)) by (rewrite E; now left).
    apply filter_type_from_range in Hin. lia.
Qed.

Lemma lookup_adequate (key : Key cls) (r : Repository) :
  model_only (lookup key r) = false.
Proof.
  destruct key as [n|c|]; [| |reflexivity].
  - simpl. destruct (find_by_name n r) as [[j f]|]; reflexivity.
  - rewrite lookup_KType.
    destruct (type_in c (available_component_types r)); [|reflexivity].
    destruct (find_by_type c r) as [|[n j] [|y l]]; reflexivity.
Qed.

Section Producing_adequate.

Variable rec : nat -> M (obj cls).
Hypothesis rec_preserves : forall i, preserves (rec i).
Hypothesis rec_adequate :
  forall i s,
    well_wired (_repository s) ->
    i < List.length (factory_by_name (_repository s)) ->
    model_only (fst (rec i s)) = false.

Lemma get_component_with_adequate (key : Key cls) (s : State) :
  well_wired (_repository s) ->
  model_only (fst (get_component_with rec key s)) = false.
Proof.
  intros W. unfold get_component_with.
  pose proof (lookup_adequate key (_repository s)) as L.
  destruct (lookup key (_repository s)) as [i|e|] eqn:E; simpl in *; auto.
  apply rec_adequate; [exact W | now apply (lookup_range key)].
Qed.

Lemma get_objects_adequate (fs : list nat) (s : State) :
  well_wired (_repository s) ->
  Forall (fun j => j < List.length (factory_by_name (_repository s))) fs ->
  model_only (fst (get_objects rec fs s)) = false.
Proof.
  revert s. induction fs as [|f fs IH]; intros s W V; [reflexivity|].
  inversion V as [|? ? Vf Vfs]; subst. simpl. unfold bind at 1.
  pose proof (rec_adequate f s W Vf) as Hr.
  pose proof (rec_preserves f s) as F.
  destruct (rec f s) as [[o|e|] s1]; simpl in *; auto.
  unfold bind.
  assert (H1 : model_only (fst (get_objects rec fs s1)) = false).
  { apply IH; [now apply (well_wired_frame s)|].
    now rewrite (frame_length s s1 F). }
  destruct (get_objects rec fs s1) as [[os|e|] s2]; simpl in *; auto.
Qed.

Lemma run_lookups_adequate (keys : list (Key cls)) (s : State) :
  well_wired (_repository s) ->
  model_only (fst (run_lookups rec keys s)) = false.
Proof.
  revert s. induction keys as [|k keys IH]; intros s W; [reflexivity|].
  simpl. unfold bind.
  pose proof (get_component_with_adequate k s W) as Hr.
  pose proof (get_component_with_preserves rec rec_preserves k s) as F.
  destruct (get_component_with rec k s) as [[o|e|] s1]; simpl in *; auto.
  apply IH. now apply (well_wired_frame s).
Qed.

Lemma construct_adequate (c : cls) (args : list (obj cls)) (s : State) :
  well_wired (_repository s) ->
  model_only (fst (construct rec c args s)) = false.
Proof.
  intros W. unfold construct, bind.
  pose proof (run_lookups_adequate (init_lookups (init_body c args))
                (allocate s) W) as Hr.
  destruct (run_lookups rec (init_lookups (init_body c args)) (allocate s))
    as [[[]|e|] s1]; simpl in *; auto.
  destruct (init_raises (init_body c args)); reflexivity.
Qed.

Lemma _create_component_adequate (self : Factory) (s : State) :
  well_wired (_repository s) ->
  (forall fs, _init_factories self = Some fs ->
     Forall (fun j => j < List.length (factory_by_name (_repository s))) fs) ->
  (_initialized self = true -> _init_factories self <> None) ->
  model_only (fst (_create_component rec self s)) = false.
Proof.
  intros W V N. unfold _create_component.
  destruct (str_in (_component_name self) (context s)) eqn:E.
  - unfold with_DependencyCyclicDetector, on_context.
    rewrite (push_present _ _ E). reflexivity.
  - rewrite with_detector_enter by (now apply body_preserves || exact E).
    cbn [fst]. unfold bind at 1, lift, assert_state.
    destruct (_initialized self); cbn [negb]; [|reflexivity].
    destruct (_init_factories self) as [fs|]; [|now contradiction N].
    unfold bind.
    set (s0 := with_context (context s ++ [_component_name self]) s).
    pose proof (get_objects_adequate fs s0 W (V fs eq_refl)) as Hr.
    pose proof (get_objects_preserves rec rec_preserves fs s0) as F.
    destruct (get_objects rec fs s0) as [[args|e|] s1]; simpl in *; auto.
    apply construct_adequate. now apply (well_wired_frame s0).
Qed.

Lemma get_object_with_adequate (i : nat) (s : State) :
  well_wired (_repository s) ->
  i < List.length (factory_by_name (_repository s)) ->
  model_only (fst (get_object_with rec i s)) = false.
Proof.
  intros W V. unfold get_object_with.
  destruct (factory_at_valid i _ V) as [self Hf]. rewrite Hf.
  destruct (W i self Hf) as [H1 H2].
  destruct (factory_class self) eqn:Hc; [reflexivity | |].
  - destruct (is_None (_instance self)); [|reflexivity].
    assert (Hr : model_only (fst (_create_component rec self s)) = false).
    { apply _create_component_adequate; auto. apply H2. discriminate. }
    destruct (_create_component rec self s) as [[o|e|] s1]; simpl in *; auto.
  - apply _create_component_adequate; auto. apply H2. discriminate.
Qed.

End Producing_adequate.

Lemma get_object_adequate (fuel i : nat) (s : State) :
  well_wired (_repository s) ->
  i < List.length (factory_by_name (_repository s)) ->
  model_only (fst (get_object fuel i s)) = false.
Proof.
  revert i s. induction fuel as [|fuel IH]; intros i s W V; [reflexivity|].
  simpl. apply get_object_with_adequate; auto.
  intros j. apply get_object_preserves.
Qed.

(** From a state a container can be in, [get_component] never gives the
    outcome that stands for a broken reference. *)
Lemma get_component_adequate (fuel : nat) (key : Key cls) (s : State) :
  reachable s -> model_only (fst (get_component fuel key s)) = false.
Proof.
  intros R.
  exact (get_component_with_adequate (get_object fuel)
           (get_object_adequate fuel) key s (reachable_well_wired s R)).
Qed.

(* ------------------------------------------------------------------ *)
(** *** Wiring *)

Lemma wired_fields (resolved : list (string * nat)) (self : Factory) :
  factory_class (wired self resolved) = factory_class self
  /\ _initialized (wired self resolved) = _initialized self
  /\ _instance (wired self resolved) = _instance self
  /\ _init_dependencies (wired self resolved)
     = _init_dependencies self ++ map fst resolved
  /\ _init_factories (wired self resolved)
     = match _init_factories self with
       | Some fs => Some (fs ++ map snd resolved)
       | None => None
       end.
Proof.
  revert self. induction resolved as [|[n j] l IH]; intros self.
  - simpl. rewrite app_nil_r. repeat split; auto.
    destruct (_init_factories self); [now rewrite app_nil_r | reflexivity].
  - unfold wired in *. cbn [fold_left fst snd map].
    destruct (IH (append_resolved n j self)) as (H1 & H2 & H3 & H4 & H5).
    rewrite H1, H2, H3, H4, H5. simpl. repeat split; auto.
    + now rewrite <- app_assoc.
    + destruct (_init_factories self); [now rewrite <- app_assoc | reflexivity].
Qed.

Lemma post_init_loop_ok (r : Repository) (reqs : list Dependency)
  (resolved : list (string * nat)) (self : Factory) :
  Forall2 (fun req x => resolve r req = Ret x) reqs resolved ->
  post_init_loop r reqs self = (Ret tt, wired self resolved).
Proof.
  intros H. revert self. induction H as [|req [n j] reqs l Hx _ IH]; intros self.
  - reflexivity.
  - simpl. rewrite Hx. apply IH.
Qed.

Lemma post_init_loop_fail (r : Repository) (done rest : list Dependency)
  (req : Dependency) (resolved : list (string * nat)) (e : exn) (self : Factory) :
  Forall2 (fun req x => resolve r req = Ret x) done resolved ->
  resolve r req = Raise e ->
  post_init_loop r (done ++ req :: rest) self = (Raise e, wired self resolved).
Proof.
  intros H He. revert self. induction H as [|q [n j] qs l Hx _ IH]; intros self.
  - simpl. now rewrite He.
  - simpl. rewrite Hx. apply IH.
Qed.

(** C2.  One requirement is resolved as follows.  With a name under which a
    factory is found: to that factory when its component type is the
    declared type or a subclass of it, [TypeMismatchException] otherwise.
    Without a name, or with a name under which nothing is found: by type,
    [UnknownComponentException] when no factory matches,
    [TooManyDefinitionsException] when several do, the single match
    otherwise.  [post_init] of a creating factory resolves its requirements
    in order: when all resolve, it returns with the factory initialized and
    wired to the factories found; at the first that does not, it raises that
    requirement's exception and the factory is no more initialized than it
    was. *)
Theorem wiring_resolves :
  (forall (r : Repository) (req : Dependency),
      (forall n i f,
          component_name req = Some n ->
          find_by_name n r = Some (i, f) ->
          resolve r req
          = if is_type_of f (component_type req) then Ret (n, i)
            else Raise TypeMismatchException)
      /\ (component_name req = None
          \/ (exists n, component_name req = Some n /\ find_by_name n r = None) ->
          resolve r req
          = match find_by_type (component_type req) r with
            | [] => Raise UnknownComponentException
            | [found] => Ret found
            | _ :: _ :: _ => Raise TooManyDefinitionsException
            end))
  /\ (forall (r : Repository) (i : nat) (self : Factory),
         factory_at i r = Some self ->
         factory_class self <> StaticComponentFactory ->
         (forall resolved,
             Forall2 (fun req x => resolve r req = Ret x)
               (_requirements self) resolved ->
             fst (post_init i r) = Ret tt
             /\ exists self',
                  factory_at i (snd (post_init i r)) = Some self'
                  /\ _initialized self' = true
                  /\ _init_factories self' = Some (map snd resolved))
         /\ (forall done req rest resolved e,
                _requirements self = done ++ req :: rest ->
                Forall2 (fun req x => resolve r req = Ret x) done resolved ->
                resolve r req = Raise e ->
                fst (post_init i r) = Raise e
                /\ exists self',
                     factory_at i (snd (post_init i r)) = Some self'
                     /\ _initialized self' = _initialized self)).
Proof.
  split.
  - intros r req. split.
    + intros n i f Hn Hf. unfold resolve. rewrite Hn, Hf.
      destruct (is_type_of f (component_type req)); reflexivity.
    + intros H. unfold resolve.
      assert (E : match component_name req with
                  | Some n =>
                      match find_by_name n r with
                      | Some (i, factory) =>
                          if negb (is_type_of factory (component_type req))
                          then Raise TypeMismatchException
                          else Ret (Some (n, i))
                      | None => Ret None
                      end
                  | None => Ret None
                  end = Ret (@None (string * nat))).
      { destruct H as [->|(n & -> & ->)]; reflexivity. }
      rewrite E.
      destruct (find_by_type (component_type req) r) as [|x [|y l]]; reflexivity.
  - intros r i self Hf Hc. split.
    + intros resolved H. unfold post_init. rewrite Hf.
      assert (L : post_init_loop r
                    (_requirements (set_init_factories (Some []) self))
                    (set_init_factories (Some []) self)
                  = (Ret tt, wired (set_init_factories (Some []) self) resolved))
        by (apply post_init_loop_ok; exact H).
      destruct (wired_fields resolved (set_init_factories (Some []) self))
        as (_ & _ & _ & _ & W).
      destruct (factory_class self); [congruence | |];
        rewrite L; cbn [fst snd]; (split; [reflexivity|]);
        eexists; (split; [apply factory_at_update; exact Hf|]);
        (split; [reflexivity|]); cbn [_init_factories _set_initialized];
        rewrite W; reflexivity.
    + intros done req rest resolved e Hreqs H He. unfold post_init. rewrite Hf.
      assert (L : post_init_loop r
                    (_requirements (set_init_factories (Some []) self))
                    (set_init_factories (Some []) self)
                  = (Raise e, wired (set_init_factories (Some []) self) resolved)).
      { cbn [_requirements set_init_factories]. rewrite Hreqs.
        now apply post_init_loop_fail. }
      destruct (wired_fields resolved (set_init_factories (Some []) self))
        as (_ & W & _).
      destruct (factory_class self); [congruence | |];
        rewrite L; cbn [fst snd]; (split; [reflexivity|]);
        eexists; (split; [apply factory_at_update; exact Hf|]);
        rewrite W; reflexivity.
Qed.

(* ------------------------------------------------------------------ *)
(** *** Requirements of a signature *)

Lemma dependency_step_kept (dependencies : list Dependency) (p : Param cls) :
  dependency_step dependencies p
  = if code_kept p then dependencies ++ [requirement_of p] else dependencies.
Proof. reflexivity. Qed.

Lemma fold_dependency_step (sig : list (Param cls)) (acc : list Dependency) :
  fold_left dependency_step sig acc
  = acc ++ map requirement_of (filter code_kept sig).
Proof.
  revert acc. induction sig as [|p sig IH]; intros acc; simpl.
  - now rewrite app_nil_r.
  - rewrite IH, dependency_step_kept. destruct (code_kept p); [|reflexivity].
    simpl. now rewrite <- app_assoc.
Qed.

(** C5, as the code has it.  The requirements of a function or method are
    its parameters, in order, without those named [self], [args] or
    [kwargs] -- whatever their kind --, each giving the requirement of its
    name and of its annotation, [object] when it has none; something that is
    not callable, and a class, are refused with [InvalidArgumentException];
    a signature without parameters, and one whose only parameter is [self],
    give no requirement. *)
Theorem requirements_by_parameter_name (c : PyValue) :
  generate_dependency_list c
  = match c with
    | NonCallable => Raise InvalidArgumentException
    | ClassObject _ => Raise InvalidArgumentException
    | Function sig => Ret (map requirement_of (filter code_kept sig))
    end
  /\ generate_dependency_list (Function []) = Ret []
  /\ forall k a,
       generate_dependency_list
         (Function [{| name := "self"; kind := k; annotation := a |}])
       = Ret [].
Proof.
  repeat split; try reflexivity.
  destruct c as [|c|sig]; try reflexivity.
  unfold generate_dependency_list. simpl. now rewrite fold_dependency_step.
Qed.

(* ------------------------------------------------------------------ *)
(** *** The kinds of dependency *)

(** C10.  [DependencyType.LIST] is [DependencyType.SIMPLE]: one member, of
    value 1, under two names.  So a requirement of kind [LIST] is the
    requirement of kind [SIMPLE] with the same name and type, nothing that
    is computed from a requirement tells them apart, and wiring does not
    look at the kind at all. *)
Theorem list_is_simple :
  LIST = SIMPLE
  /\ member_value LIST = 1%Z
  /\ member_value SIMPLE = 1%Z
  /\ (forall n c,
         {| component_name := n; component_type := c; dependency_type := LIST |}
         = {| component_name := n; component_type := c;
              dependency_type := SIMPLE |})
  /\ (forall (A : Type) (treat : Dependency -> A) n c,
         treat {| component_name := n; component_type := c;
                  dependency_type := LIST |}
         = treat {| component_name := n; component_type := c;
                    dependency_type := SIMPLE |})
  /\ (forall r n c k k',
         resolve r {| component_name := n; component_type := c;
                      dependency_type := k |}
         = resolve r {| component_name := n; component_type := c;
                        dependency_type := k' |}).
Proof. repeat split; reflexivity. Qed.

(* ------------------------------------------------------------------ *)
(** *** The repository: lookups *)

Lemma cls_eqb_eq (a b : cls) : cls_eqb a b = true <-> a = b.
Proof.
  unfold cls_eqb. destruct (cls_eq_dec a b); split; congruence.
Qed.

Lemma type_in_In (c : cls) (l : list cls) : type_in c l = true <-> In c l.
Proof.
  unfold type_in. rewrite existsb_exists. split.
  - intros (x & Hx & E). apply cls_eqb_eq in E. now subst.
  - intros H. exists c. split; [exact H | now apply cls_eqb_eq].
Qed.

Lemma type_in_set_add (c d : cls) (l : list cls) :
  type_in c (set_add d l) = true <-> c = d \/ type_in c l = true.
Proof.
  unfold set_add. destruct (type_in d l) eqn:E.
  - split; [auto|]. intros [->|H]; assumption.
  - rewrite !type_in_In, in_app_iff. simpl. split.
    + intros [H|[H|[]]]; auto.
    + intros [H|H]; auto.
Qed.

Lemma name_in_In (n : string) (d : list (string * Factory)) :
  name_in n d = true <-> In n (map fst d).
Proof.
  unfold name_in. rewrite existsb_exists, in_map_iff. split.
  - intros (e & He & E). apply String.eqb_eq in E. now exists e.
  - intros (e & E & He). exists e. split; [exact He|]. now apply String.eqb_eq.
Qed.

(** What [find_from] finds is the first entry under the name. *)
Lemma find_from_nth (k : nat) (n : string) (d : list (string * Factory))
  (i : nat) (f : Factory) :
  find_from k n d = Some (i, f) ->
  k <= i
  /\ nth_error d (i - k) = Some (n, f)
  /\ forall j m g, j < i - k -> nth_error d j = Some (m, g) -> m <> n.
Proof.
  revert k. induction d as [|[m0 g0] d IH]; intros k H; [discriminate|].
  simpl in H. destruct (String.eqb m0 n) eqn:E.
  - injection H as <- <-. apply String.eqb_eq in E. subst.
    rewrite Nat.sub_diag. repeat split; auto. intros j m g Hj. lia.
  - destruct (IH _ H) as (Hk & Hn & Hfirst).
    replace (i - k) with (S (i - S k)) by lia.
    repeat split; [lia | exact Hn |].
    intros j m g Hj Hj'. destruct j as [|j].
    + simpl in Hj'. injection Hj' as <- <-. now apply String.eqb_neq.
    + apply (Hfirst j m g); [lia | exact Hj'].
Qed.


Lemma filter_type_from_In (k : nat) (c : cls) (d : list (string * Factory))
  (n : string) (i : nat) :
  In (n, i) (filter_type_from k c d)
  <-> exists f,
        k <= i /\ nth_error d (i - k) = Some (n, f) /\ is_type_of f c = true.
Proof.
  revert k. induction d as [|[m0 g0] d IH]; intros k.
  - simpl. split; [intros [] | intros (f & _ & H & _)].
    destruct (i - k); discriminate.
  - simpl. split.
    + intros H.
      assert (Hrest : In (n, i) (filter_type_from (S k) c d) ->
                      exists f, k <= i
                        /\ nth_error ((m0, g0) :: d) (i - k) = Some (n, f)
                        /\ is_type_of f c = true).
      { intros Hin. apply IH in Hin. destruct Hin as (f & Hk & Hn & Ht).
        exists f. replace (i - k) with (S (i - S k)) by lia.
        repeat split; [lia | exact Hn | exact Ht]. }
      destruct (is_type_of g0 c) eqn:E; [|now apply Hrest].
      destruct H as [H|H]; [|now apply Hrest].
      injection H as <- <-. exists g0. rewrite Nat.sub_diag. auto.
    + intros (f & Hk & Hn & Ht).
      destruct (Nat.eq_dec i k) as [->|Hne].
      * rewrite Nat.sub_diag in Hn. simpl in Hn. injection Hn as <- <-.
        rewrite Ht. now left.
      * assert (Hin : In (n, i) (filter_type_from (S k) c d)).
        { apply IH. exists f. replace (i - k) with (S (i - S k)) in Hn by lia.
          repeat split; [lia | exact Hn | exact Ht]. }
        destruct (is_type_of g0 c); [now right | exact Hin].
Qed.

Lemma filter_type_from_sorted (k : nat) (c : cls) (d : list (string * Factory)) :
  StronglySorted lt (map snd (filter_type_from k c d)).
Proof.
  revert k. induction d as [|[m0 g0] d IH]; intros k; [constructor|].
  simpl. destruct (is_type_of g0 c); [|apply IH].
  simpl. constructor; [apply IH|].
  apply Forall_forall. intros i Hi. apply in_map_iff in Hi.
  destruct Hi as ([n j] & <- & Hin). apply filter_type_from_range in Hin.
  simpl. lia.
Qed.




(** X2.  [find_by_name] and [exist] agree: a name is found exactly when
    [exist] answers true for it; what is found is the first entry the
    repository holds under that name, with its reference. *)
Theorem find_by_name_exist (r : Repository) (n : string) :
  (exist (KStr n) r = Ret true <-> exists i f, find_by_name n r = Some (i, f))
  /\ (exist (KStr n) r = Ret false <-> find_by_name n r = None)
  /\ (forall i f,
        find_by_name n r = Some (i, f) ->
        nth_error (factory_by_name r) i = Some (n, f)
        /\ forall j m g,
             j < i -> nth_error (factory_by_name r) j = Some (m, g) -> m <> n).
Proof.
  pose proof (find_from_name_in 0 n (factory_by_name r)) as E.
  unfold find_by_name. split; [|split].
  - simpl. split.
    + intros H. destruct (find_from 0 n (factory_by_name r)) as [[i f]|];
        [now exists i, f|].
      assert (name_in n (factory_by_name r) = false) by now apply E.
      congruence.
    + intros (i & f & Ef).
      destruct (name_in n (factory_by_name r)); [reflexivity|].
      assert (find_from 0 n (factory_by_name r) = None) by now apply E.
      congruence.
  - simpl. split.
    + intros H. apply E. congruence.
    + intros H. apply E in H. now rewrite H.
  - intros i f H. apply find_from_nth in H. rewrite Nat.sub_0_r in H.
    destruct H as (_ & Hn & Hfirst). split; [exact Hn|].
    intros j m g Hj. apply Hfirst. exact Hj.
Qed.

(** X3.  [find_by_type] is exact: it lists a name with a reference exactly
    when the repository holds, behind that reference and under that name, a
    factory whose component type is the given type or a subclass of it; the
    matches come in registration order, each once. *)
Theorem find_by_type_exact (r : Repository) (c : cls) :
  (forall n i,
      In (n, i) (find_by_type c r)
      <-> exists f,
            nth_error (factory_by_name r) i = Some (n, f)
            /\ issubclass (_component_type f) c = true)
  /\ StronglySorted lt (map snd (find_by_type c r)).
Proof.
  split.
  - intros n i. unfold find_by_type. rewrite filter_type_from_In.
    rewrite Nat.sub_0_r. split.
    + intros (f & _ & Hn & Ht). now exists f.
    + intros (f & Hn & Ht). exists f. repeat split; [lia | exact Hn | exact Ht].
  - apply filter_type_from_sorted.
Qed.

(* ------------------------------------------------------------------ *)
(** *** The repository: its indices agree *)

Lemma map_update_nth (B : Type) (h : string * Factory -> B)
  (d : list (string * Factory)) (i : nat) (g : Factory -> Factory) :
  (forall n f, nth_error d i = Some (n, f) -> h (n, g f) = h (n, f)) ->
  map h (update_nth i g d) = map h d.
Proof.
  revert i. induction d as [|[n f] d IH]; intros i H; [now destruct i|].
  destruct i as [|i]; simpl.
  - f_equal. apply H. reflexivity.
  - f_equal. apply IH. intros n' f' Hn. apply H. exact Hn.
Qed.

Lemma outline_erase (d : list (string * Factory)) :
  map outline (map erase d) = map outline d.
Proof.
  rewrite map_map. apply map_ext. intros [n f]. unfold outline, erase. simpl.
  destruct (factory_class f); reflexivity.
Qed.

Lemma outline_unwire (d : list (string * Factory)) :
  map outline (map unwire d) = map outline d.
Proof. rewrite map_map. apply map_ext. intros [n f]. reflexivity. Qed.

Lemma consistent_outline (r r' : Repository) :
  map outline (factory_by_name r) = map outline (factory_by_name r') ->
  available_component_types r = available_component_types r' ->
  consistent r -> consistent r'.
Proof.
  intros Ho Ht (Hk & Hn & Hty).
  assert (In_outline : forall (d : list (string * Factory)) n f,
             In (n, f) d -> In (outline (n, f)) (map outline d))
    by (intros d n f H; now apply in_map).
  assert (Back : forall x, In x (map outline (factory_by_name r')) ->
                           exists n f, In (n, f) (factory_by_name r)
                                       /\ outline (n, f) = x).
  { intros x Hx. rewrite <- Ho in Hx. apply in_map_iff in Hx.
    destruct Hx as ([n f] & E & Hin). now exists n, f. }
  assert (Forth : forall x, In x (map outline (factory_by_name r)) ->
                            exists n f, In (n, f) (factory_by_name r')
                                        /\ outline (n, f) = x).
  { intros x Hx. rewrite Ho in Hx. apply in_map_iff in Hx.
    destruct Hx as ([n f] & E & Hin). now exists n, f. }
  repeat split.
  - unfold keys in *.
    replace (map fst (factory_by_name r'))
      with (map fst (map outline (factory_by_name r')))
      by (rewrite map_map; reflexivity).
    rewrite <- Ho. rewrite map_map. exact Hk.
  - intros n f Hin.
    destruct (Back _ (In_outline _ n f Hin)) as (n0 & f0 & Hin0 & E).
    unfold outline in E. simpl in E. injection E as E1 E2 E3.
    rewrite <- E2, <- E1. now apply Hn.
  - rewrite <- Ht. intros H. apply Hty in H. destruct H as (n & f & Hin & E).
    destruct (Forth _ (In_outline _ n f Hin)) as (n' & f' & Hin' & E').
    exists n', f'. split; [exact Hin'|].
    unfold outline in E'. simpl in E'. injection E' as _ _ E3. congruence.
  - rewrite <- Ht. intros (n' & f' & Hin' & E').
    destruct (Back _ (In_outline _ n' f' Hin')) as (n & f & Hin & E).
    apply Hty. exists n, f. split; [exact Hin|].
    unfold outline in E. simpl in E. injection E as _ _ E3. congruence.
Qed.

Lemma consistent_init : consistent (_repository Container_init).
Proof.
  repeat split.
  - simpl. constructor; [intros [] | constructor].
  - simpl. intros n f [E|[]]. injection E as <- <-. reflexivity.
  - intros H. exists CONTAINER_COMPONENT_NAME,
      (StaticComponentFactory_init CONTAINER_COMPONENT_NAME Self).
    split; [now left|]. apply type_in_In in H. simpl in H.
    destruct H as [H|[]]. exact H.
  - intros (n & f & [E|[]] & Hc). injection E as <- <-.
    apply type_in_In. simpl in *. now left.
Qed.

Lemma registered_factory_name (reg : Registration) :
  _component_name (registered_factory reg) = registration_name reg.
Proof. destruct reg as [c n|o n]; reflexivity. Qed.

Lemma consistent_register (reg : Registration) (s : State) :
  consistent (_repository s) ->
  consistent (_repository (snd (register reg s))).
Proof.
  intros (Hk & Hn & Hty).
  destruct (register_cases reg s) as [[_ ->]|[Hfree ->]];
    [repeat split; auto; apply Hty|].
  cbn [snd with_repository _repository]. repeat split.
  - unfold keys in *. cbn [factory_by_name]. rewrite map_app. simpl.
    apply NoDup_app; auto.
    + constructor; [intros [] | constructor].
    + intros a Ha [<-|[]].
      assert (name_in (registration_name reg)
                (factory_by_name (_repository s)) = true)
        by now apply name_in_In.
      congruence.
  - cbn [factory_by_name]. intros n f Hin. apply in_app_iff in Hin.
    destruct Hin as [Hin|[E|[]]]; [now apply Hn|].
    injection E as <- <-. apply registered_factory_name.
  - cbn [available_component_types factory_by_name]. intros H.
    apply type_in_set_add in H. destruct H as [->|H].
    + exists (registration_name reg), (registered_factory reg).
      split; [|reflexivity]. apply in_app_iff. right. now left.
    + apply Hty in H. destruct H as (n & f & Hin & E).
      exists n, f. split; [|exact E]. apply in_app_iff. now left.
  - cbn [available_component_types factory_by_name].
    intros (n & f & Hin & E). apply type_in_set_add.
    apply in_app_iff in Hin. destruct Hin as [Hin|[E'|[]]].
    + right. apply Hty. now exists n, f.
    + left. injection E' as _ <-. now symmetry.
Qed.

Lemma post_init_loop_unwire (r : Repository) (reqs : list Dependency)
  (self self' : Factory) (out : outcome unit) (n : string) :
  post_init_loop r reqs self = (out, self') ->
  unwire (n, self') = unwire (n, self).
Proof.
  revert self. induction reqs as [|req reqs IH]; intros self H.
  - injection H as _ <-. reflexivity.
  - simpl in H. destruct (resolve r req) as [[m j]|e|];
      try (injection H as _ <-; reflexivity).
    apply IH in H. exact H.
Qed.

Lemma post_init_unwire (i : nat) (r : Repository) :
  map unwire (factory_by_name (snd (post_init i r)))
  = map unwire (factory_by_name r)
  /\ available_component_types (snd (post_init i r))
     = available_component_types r.
Proof.
  unfold post_init.
  destruct (factory_at i r) as [self|] eqn:Hf; [|split; reflexivity].
  assert (L := fun n self' out =>
                 post_init_loop_unwire r
                   (_requirements (set_init_factories (Some []) self))
                   (set_init_factories (Some []) self) self' out n).
  destruct (post_init_loop r (_requirements (set_init_factories (Some []) self))
              (set_init_factories (Some []) self)) as [out self'].
  assert (U : forall (g : Factory),
             (forall n, unwire (n, g) = unwire (n, self)) ->
             map unwire (factory_by_name (update_factory i (fun _ => g) r))
             = map unwire (factory_by_name r)).
  { intros g Hg. cbn [update_factory factory_by_name].
    apply map_update_nth. intros n f Hn. rewrite Hg.
    unfold factory_at in Hf. rewrite Hn in Hf. congruence. }
  assert (Hself' : forall n, unwire (n, self') = unwire (n, self)).
  { intros n. rewrite (L n self' out eq_refl). reflexivity. }
  destruct (factory_class self); [split; reflexivity | |];
    destruct out as [[]|e|]; cbn [snd]; (split; [|reflexivity]);
    apply U; intros n; rewrite <- Hself'; reflexivity.
Qed.

Lemma setup_loop_cons (i : nat) (fs : list nat) (s : State) :
  setup_loop (i :: fs) s
  = match post_init i (_repository s) with
    | (Ret _, r1) => setup_loop fs (with_repository r1 s)
    | (Raise e, r1) => (Raise e, with_repository r1 s)
    | (OutOfFuel, r1) => (OutOfFuel, with_repository r1 s)
    end.
Proof.
  simpl. unfold bind, on_repository.
  destruct (post_init i (_repository s)) as [[[]|e|] r1]; reflexivity.
Qed.

Lemma setup_loop_unwire (fs : list nat) (s : State) :
  map unwire (factory_by_name (_repository (snd (setup_loop fs s))))
  = map unwire (factory_by_name (_repository s))
  /\ available_component_types (_repository (snd (setup_loop fs s)))
     = available_component_types (_repository s)
  /\ context (snd (setup_loop fs s)) = context s
  /\ allocated (snd (setup_loop fs s)) = allocated s.
Proof.
  revert s. induction fs as [|i fs IH]; intros s; [auto|].
  rewrite setup_loop_cons.
  destruct (post_init_unwire i (_repository s)) as [U T].
  destruct (post_init i (_repository s)) as [[[]|e|] r1]; cbn [snd] in *;
    try (repeat split; assumption).
  destruct (IH (with_repository r1 s)) as (U1 & T1 & C1 & A1).
  cbn [_repository with_repository context allocated] in *.
  repeat split; congruence.
Qed.

Lemma reachable_consistent (s : State) :
  reachable s -> consistent (_repository s).
Proof.
  induction 1 as [|reg s _ IH|s _ IH|fuel key s _ IH _].
  - apply consistent_init.
  - now apply consistent_register.
  - destruct (setup_loop_unwire (factories (_repository s)) s) as (U & T & _).
    apply (consistent_outline (_repository s)); auto.
    rewrite <- (outline_unwire (factory_by_name (_repository s))).
    rewrite <- (outline_unwire (factory_by_name (_repository (snd (setup s))))).
    unfold setup. now rewrite U.
  - destruct (get_component_preserves fuel key s) as (Hd & Ht & _).
    apply (consistent_outline (_repository s)); auto.
    rewrite <- (outline_erase (factory_by_name (_repository s))).
    rewrite <- (outline_erase
                  (factory_by_name
                     (_repository (snd (get_component fuel key s))))).
    now rewrite Hd.
Qed.


(** X5.  What a key reaches, in a state a container can be in, when every
    class is a subclass of itself.  A name reaches the factory registered
    under it, and raises [UnknownComponentException] when nothing is.  A
    type raises [UnknownComponentException] when no registered factory has
    exactly that component type; otherwise it reaches the only factory
    whose component type is that type or a subclass of it, and raises
    [TooManyDefinitionsException] when there are several.  Any other key
    raises [InvalidArgumentException]. *)
Theorem lookup_decided (s : State) :
  reachable s ->
  (forall c, issubclass c c = true) ->
  (forall n,
      lookup (KStr n) (_repository s)
      = match find_by_name n (_repository s) with
        | Some (i, _) => Ret i
        | None => Raise UnknownComponentException
        end)
  /\ (forall c,
         (forall n f, In (n, f) (factory_by_name (_repository s)) ->
                      _component_type f <> c) ->
         lookup (KType c) (_repository s) = Raise UnknownComponentException)
  /\ (forall c n f,
         In (n, f) (factory_by_name (_repository s)) ->
         _component_type f = c ->
         lookup (KType c) (_repository s)
         = match find_by_type c (_repository s) with
           | [(_, i)] => Ret i
           | _ => Raise TooManyDefinitionsException
           end
         /\ find_by_type c (_repository s) <> [])
  /\ lookup KOther (_repository s) = Raise InvalidArgumentException.
Proof.
  intros R Hrefl. destruct (reachable_consistent s R) as (Hk & Hn & Hty).
  split; [|split; [|split]].
  - intros n. simpl. destruct (find_by_name n (_repository s)) as [[i f]|];
      reflexivity.
  - intros c Hnone. rewrite lookup_KType.
    destruct (type_in c (available_component_types (_repository s))) eqn:E;
      [|reflexivity].
    apply Hty in E. destruct E as (n & f & Hin & Hc).
    exfalso. exact (Hnone n f Hin Hc).
  - intros c n f Hin Hc.
    assert (E : type_in c (available_component_types (_repository s)) = true)
      by (apply Hty; now exists n, f).
    assert (Hne : find_by_type c (_repository s) <> []).
    { apply In_nth_error in Hin. destruct Hin as [i Hi].
      assert (Hfound : In (n, i) (find_by_type c (_repository s))).
      { unfold find_by_type. apply filter_type_from_In. exists f.
        rewrite Nat.sub_0_r. repeat split; [lia | exact Hi |].
        unfold is_type_of. rewrite Hc. apply Hrefl. }
      intros E0. rewrite E0 in Hfound. destruct Hfound. }
    split; [|exact Hne].
    rewrite lookup_KType, E.
    destruct (find_by_type c (_repository s)) as [|[m i] [|y l]];
      [congruence | reflexivity | reflexivity].
  - reflexivity.
Qed.

(* ------------------------------------------------------------------ *)
(** *** The detector's stack *)

Lemma index_first (n : string) (c : list string) :
  In n c ->
  exists before after,
    c = before ++ n :: after /\ ~ In n before
    /\ index n c = List.length before.
Proof.
  induction c as [|x c IH]; intros H; [destruct H|].
  simpl. destruct (String.eqb x n) eqn:E.
  - apply String.eqb_eq in E. subst. exists [], c. auto.
  - apply String.eqb_neq in E. destruct H as [H|H]; [congruence|].
    destruct (IH H) as (before & after & -> & Hn & Hi).
    exists (x :: before), after. repeat split.
    + intros [H'|H']; [congruence | contradiction].
    + simpl. now rewrite Hi.
Qed.

Lemma skipn_app_length (A : Type) (l l' : list A) :
  skipn (List.length l) (l ++ l') = l'.
Proof. induction l; simpl; auto. Qed.

(** X6.  The stack of the detector.  Pushing a name that is on the stack
    raises [CyclicDependencyException] and leaves the stack alone; the cycle
    it carries is the stack from the first occurrence of the name on,
    closed by the name.  Pushing a name that is not on the stack puts it on
    top, and popping that name then gives the stack back.  A stack without
    repetition stays without repetition.  Popping from the empty stack
    raises [InvalidStateException]; popping a name other than the one on
    top raises it too, after the top was removed. *)
Theorem detector_stack_discipline (n : string) (c : list string) :
  (In n c ->
   exists before after,
     c = before ++ n :: after /\ ~ In n before
     /\ push n c = (Raise (CyclicDependencyException (n :: after ++ [n])), c))
  /\ (~ In n c ->
      push n c = (Ret tt, c ++ [n]) /\ pop n (snd (push n c)) = (Ret tt, c))
  /\ (NoDup c -> NoDup (snd (push n c)))
  /\ pop n []
     = (Raise (InvalidStateException
                 "Invalid request to pop dependency from stack (stack is empty)."),
        [])
  /\ (forall m,
         pop n (c ++ [m])
         = (if String.eqb m n then Ret tt
            else Raise (InvalidStateException "Invalid "), c)).
Proof.
  split; [|split; [|split; [|split]]].
  - intros H. destruct (index_first n c H) as (before & after & E & Hn & Hi).
    exists before, after. repeat split; auto.
    rewrite push_present by now apply str_in_In.
    rewrite Hi, E, skipn_app_length. reflexivity.
  - intros H. apply str_in_not_In in H. rewrite (push_fresh _ _ H).
    split; [reflexivity | apply pop_pushed].
  - intros Hnd. destruct (str_in n c) eqn:E.
    + now rewrite push_present.
    + rewrite push_fresh by assumption. simpl.
      apply NoDup_app; auto.
      * constructor; [intros [] | constructor].
      * intros a Ha [<-|[]]. apply str_in_not_In in E. contradiction.
  - reflexivity.
  - intros m. unfold pop. rewrite rev_app_distr. simpl.
    rewrite removelast_last. destruct (String.eqb m n); reflexivity.
Qed.

(* ------------------------------------------------------------------ *)
(** *** Component names from class names *)

Lemma string_app_assoc (a b c : string) :
  ((a ++ b) ++ c)%string = (a ++ (b ++ c))%string.
Proof. induction a as [|ch a IH]; simpl; [reflexivity | now rewrite IH]. Qed.

Lemma string_app_nonempty (a : string) (ch : ascii) :
  (0 <? String.length (a ++ String ch EmptyString))%nat = true.
Proof. destruct a; reflexivity. Qed.

Lemma to_component_name_loop_nonempty (s acc : string) :
  (0 <? String.length acc)%nat = true ->
  to_component_name_loop s acc = (acc ++ snake_rest s)%string.
Proof.
  revert acc. induction s as [|ch s IH]; intros acc H; simpl.
  - clear H. induction acc as [|a acc IHa]; simpl; [reflexivity | now rewrite <- IHa].
  - rewrite H. destruct (isupper ch).
    + rewrite IH by apply string_app_nonempty.
      now rewrite !string_app_assoc.
    + rewrite IH by apply string_app_nonempty.
      now rewrite string_app_assoc.
Qed.

Lemma isupper_lower (ch : ascii) : isupper (lower ch) = false.
Proof.
  destruct ch as [[] [] [] [] [] [] [] []]; reflexivity.
Qed.

Lemma lower_not_upper (ch : ascii) : isupper ch = false -> lower ch = ch.
Proof. unfold lower. now intros ->. Qed.

Lemma snake_rest_lower (s : string) :
  string_forallb (fun ch => negb (isupper ch)) (snake_rest s) = true.
Proof.
  induction s as [|ch s IH]; [reflexivity|].
  simpl. destruct (isupper ch) eqn:E; simpl.
  - now rewrite isupper_lower, IH.
  - now rewrite E, IH.
Qed.

Lemma snake_rest_same (s : string) :
  string_forallb (fun ch => negb (isupper ch)) s = true -> snake_rest s = s.
Proof.
  induction s as [|ch s IH]; [reflexivity|].
  simpl. intros H. apply andb_true_iff in H. destruct H as [H1 H2].
  apply negb_true_iff in H1. rewrite H1. now rewrite IH.
Qed.

Lemma snake_rest_length (s : string) :
  String.length (snake_rest s) = String.length s + count_upper s.
Proof.
  induction s as [|ch s IH]; [reflexivity|].
  simpl. destruct (isupper ch); simpl; rewrite IH; lia.
Qed.

(** X7.  The component name derived from a class name: the first character
    in lower case; then, for every upper-case letter, an underscore and the
    letter in lower case, and every other character as it is.  So the name
    holds no upper-case letter; a class name without upper-case letter is
    its own component name; and the name is longer than the class name by
    the number of upper-case letters after the first character. *)
Theorem to_component_name_snake (c : cls) :
  to_component_name c
  = match __name__ c with
    | EmptyString => EmptyString
    | String ch rest => String (lower ch) (snake_rest rest)
    end
  /\ string_forallb (fun ch => negb (isupper ch)) (to_component_name c) = true
  /\ (string_forallb (fun ch => negb (isupper ch)) (__name__ c) = true ->
      to_component_name c = __name__ c)
  /\ String.length (to_component_name c)
     = String.length (__name__ c)
       + count_upper match __name__ c with
                     | EmptyString => EmptyString
                     | String _ rest => rest
                     end.
Proof.
  assert (E : to_component_name c
              = match __name__ c with
                | EmptyString => EmptyString
                | String ch rest => String (lower ch) (snake_rest rest)
                end).
  { unfold to_component_name. destruct (__name__ c) as [|ch rest];
      [reflexivity|].
    simpl. destruct (isupper ch) eqn:U; simpl.
    - now rewrite to_component_name_loop_nonempty.
    - rewrite to_component_name_loop_nonempty by reflexivity.
      now rewrite (lower_not_upper ch U). }
  rewrite E. split; [reflexivity|].
  destruct (__name__ c) as [|ch rest]; [repeat split; reflexivity|].
  split; [|split].
  - simpl. now rewrite isupper_lower, snake_rest_lower.
  - simpl. intros H. apply andb_true_iff in H. destruct H as [H1 H2].
    apply negb_true_iff in H1.
    now rewrite (lower_not_upper ch H1), (snake_rest_same rest H2).
  - simpl. now rewrite snake_rest_length.
Qed.

(* ------------------------------------------------------------------ *)
(** *** Bulk registration *)

Lemma check_types_forallb (all_args : list Arg) :
  check_types all_args
  = if forallb is_type all_args then Ret tt else Raise InvalidArgumentException.
Proof.
  induction all_args as [|a l IH]; [reflexivity|].
  simpl. destruct (is_type a); simpl; [exact IH | reflexivity].
Qed.

Lemma register_types_cons (c : cls) (l : list cls) (s : State) :
  register_types (c :: l) s
  = match register (RegisterType c None) s with
    | (Ret _, s1) => register_types l s1
    | (Raise e, s1) => (Raise e, s1)
    | (OutOfFuel, s1) => (OutOfFuel, s1)
    end.
Proof. reflexivity. Qed.

Lemma register_types_success (l : list cls) (s : State) :
  fst (register_types l s) = Ret tt
  <-> NoDup (map to_component_name l)
      /\ forall c, In c l ->
           name_in (to_component_name c) (factory_by_name (_repository s))
           = false.
Proof.
  revert s. induction l as [|c l IH]; intros s.
  - simpl. split; [intros _; split; [constructor | intros c []] | reflexivity].
  - rewrite register_types_cons.
    destruct (register_cases (RegisterType c None) s) as [[Hin ->]|[Hfree ->]].
    + simpl. split; [discriminate|]. intros [_ H].
      specialize (H c (or_introl eq_refl)). simpl in Hin. congruence.
    + rewrite IH. cbn [_repository with_repository factory_by_name].
      simpl registration_name. split.
      * intros [Hnd Hall]. split.
        -- simpl. constructor; [|exact Hnd]. intros Hc.
           apply in_map_iff in Hc. destruct Hc as (c' & E & Hc').
           specialize (Hall c' Hc'). rewrite name_in_app in Hall.
           apply orb_false_iff in Hall. destruct Hall as [_ Hall].
           simpl in Hall. rewrite E, String.eqb_refl in Hall. discriminate.
        -- intros c' [<-|Hc']; [exact Hfree|].
           specialize (Hall c' Hc'). rewrite name_in_app in Hall.
           apply orb_false_iff in Hall. tauto.
      * intros [Hnd Hall]. simpl in Hnd.
        inversion Hnd as [|? ? Hnotin Hnd']; subst. split; [exact Hnd'|].
        intros c' Hc'. rewrite name_in_app.
        rewrite (Hall c' (or_intror Hc')). simpl.
        destruct (String.eqb (to_component_name c) (to_component_name c'))
          eqn:E; [|reflexivity].
        apply String.eqb_eq in E. exfalso. apply Hnotin. rewrite E.
        now apply in_map.
Qed.

Lemma register_types_app (done rest : list cls) (s : State) :
  fst (register_types done s) = Ret tt ->
  register_types (done ++ rest) s
  = register_types rest (snd (register_types done s)).
Proof.
  revert s. induction done as [|c l IH]; intros s H; [reflexivity|].
  simpl app. rewrite !register_types_cons. rewrite register_types_cons in H.
  destruct (register (RegisterType c None) s) as [[[]|e|] s1];
    try discriminate.
  now apply IH.
Qed.

(** X8.  [register_types] checks all its arguments before it registers any:
    with an argument that is not a class it raises
    [InvalidArgumentException] and registers nothing, also when classes come
    before it.  With classes only, it registers them in order under the
    names derived from them; it succeeds exactly when those names are
    pairwise distinct and none of them is bound; and at the first class
    whose name is taken it raises [NameAlreadyDefinedException], the classes
    before it staying registered. *)
Theorem register_types_checked (first_arg : Arg) (rest_args : list Arg)
  (s : State) :
  (forallb is_type (first_arg :: rest_args) = false ->
   Container_register_types first_arg rest_args s
   = (Raise InvalidArgumentException, s))
  /\ (forallb is_type (first_arg :: rest_args) = true ->
      Container_register_types first_arg rest_args s
      = register_types (types_of (first_arg :: rest_args)) s)
  /\ (forall l,
         fst (register_types l s) = Ret tt
         <-> NoDup (map to_component_name l)
             /\ forall c, In c l ->
                  exist (KStr (to_component_name c)) (_repository s)
                  = Ret false)
  /\ (forall done c rest,
         fst (register_types done s) = Ret tt ->
         exist (KStr (to_component_name c))
           (_repository (snd (register_types done s))) = Ret true ->
         register_types (done ++ c :: rest) s
         = (Raise NameAlreadyDefinedException, snd (register_types done s))).
Proof.
  split; [|split; [|split]].
  - intros H. unfold Container_register_types, bind, lift.
    now rewrite check_types_forallb, H.
  - intros H. unfold Container_register_types, bind, lift.
    now rewrite check_types_forallb, H.
  - intros l. rewrite register_types_success. simpl. split.
    + intros [Hnd Hall]. split; [exact Hnd|]. intros c Hc.
      now rewrite (Hall c Hc).
    + intros [Hnd Hall]. split; [exact Hnd|]. intros c Hc.
      specialize (Hall c Hc). congruence.
  - intros done c rest Hd Hc. rewrite register_types_app by assumption.
    rewrite register_types_cons.
    destruct (register_cases (RegisterType c None)
                (snd (register_types done s))) as [[_ ->]|[Hfree _]];
      [reflexivity|].
    simpl in Hc, Hfree. congruence.
Qed.

(* ------------------------------------------------------------------ *)
(** *** [setup] *)

Lemma find_from_unwire (k : nat) (n : string) (d : list (string * Factory)) :
  find_from k n (map unwire d)
  = option_map (fun x => (fst x, snd (unwire (n, snd x)))) (find_from k n d).
Proof.
  revert k. induction d as [|[m f] d IH]; intros k; [reflexivity|].
  simpl. destruct (String.eqb m n); [reflexivity | apply IH].
Qed.

Lemma filter_type_from_unwire (k : nat) (c : cls) (d : list (string * Factory)) :
  filter_type_from k c (map unwire d) = filter_type_from k c d.
Proof.
  revert k. induction d as [|[m f] d IH]; intros k; [reflexivity|].
  simpl. unfold is_type_of at 1. simpl.
  change (issubclass (_component_type f) c) with (is_type_of f c).
  destruct (is_type_of f c); now rewrite IH.
Qed.

Lemma resolve_unwire (d : list (string * Factory)) (t t' : list cls)
  (req : Dependency) :
  resolve {| factory_by_name := map unwire d; available_component_types := t |}
    req
  = resolve {| factory_by_name := d; available_component_types := t' |} req.
Proof.
  unfold resolve, find_by_name, find_by_type. cbn [factory_by_name].
  rewrite filter_type_from_unwire.
  destruct (component_name req) as [n|]; [|reflexivity].
  rewrite find_from_unwire.
  destruct (find_from 0 n d) as [[i f]|]; reflexivity.
Qed.

Lemma resolve_rewired (r r' : Repository) (req : Dependency) :
  map unwire (factory_by_name r) = map unwire (factory_by_name r') ->
  resolve r req = resolve r' req.
Proof.
  intros H. destruct r as [d t], r' as [d' t']. simpl in H.
  rewrite <- (resolve_unwire d t t), <- (resolve_unwire d' t t'). now rewrite H.
Qed.

Lemma resolve_outcome (r : Repository) (req : Dependency) :
  raises_only wiring_exception (resolve r req) = true.
Proof.
  unfold resolve.
  assert (T : raises_only wiring_exception
                (if (List.length (find_by_type (component_type req) r) =? 0)%nat
                 then Raise UnknownComponentException
                 else if (1 <? List.length
                                 (find_by_type (component_type req) r))%nat
                      then Raise TooManyDefinitionsException
                      else match find_by_type (component_type req) r with
                           | found :: _ => Ret found
                           | [] => Raise IndexError
                           end) = true).
  { destruct (find_by_type (component_type req) r) as [|x [|y l]]; reflexivity. }
  destruct (component_name req) as [n|]; [|exact T].
  destruct (find_by_name n r) as [[i f]|]; [|exact T].
  destruct (negb (is_type_of f (component_type req))); reflexivity.
Qed.

(** What is resolved is registered, under the name recorded, and produces
    the declared type or a subclass of it. *)
Lemma resolve_sound (r : Repository) (req : Dependency) (n : string) (j : nat) :
  resolve r req = Ret (n, j) ->
  exists g,
    nth_error (factory_by_name r) j = Some (n, g)
    /\ issubclass (_component_type g) (component_type req) = true.
Proof.
  unfold resolve. intros H.
  assert (T : (if (List.length (find_by_type (component_type req) r) =? 0)%nat
               then Raise UnknownComponentException
               else if (1 <? List.length
                               (find_by_type (component_type req) r))%nat
                    then Raise TooManyDefinitionsException
                    else match find_by_type (component_type req) r with
                         | found :: _ => Ret found
                         | [] => Raise IndexError
                         end) = Ret (n, j) ->
              exists g,
                nth_error (factory_by_name r) j = Some (n, g)
                /\ issubclass (_component_type g) (component_type req) = true).
  { intros E.
    assert (Hin : In (n, j) (find_by_type (component_type req) r)).
    { destruct (find_by_type (component_type req) r) as [|x [|y l]];
        try discriminate.
      simpl in E. injection E as ->. now left. }
    apply filter_type_from_In in Hin. rewrite Nat.sub_0_r in Hin.
    destruct Hin as (g & _ & Hn & Ht). now exists g. }
  destruct (component_name req) as [m|]; [|now apply T].
  destruct (find_by_name m r) as [[i f]|] eqn:Ef; [|now apply T].
  destruct (is_type_of f (component_type req)) eqn:Et; [|discriminate].
  simpl in H. injection H as <- <-.
  apply find_from_nth in Ef. rewrite Nat.sub_0_r in Ef.
  destruct Ef as (_ & Hn & _). now exists f.
Qed.

Lemma post_init_loop_inv (r : Repository) (reqs : list Dependency)
  (self self' : Factory) :
  post_init_loop r reqs self = (Ret tt, self') ->
  exists resolved,
    Forall2 (fun req x => resolve r req = Ret x) reqs resolved
    /\ self' = wired self resolved.
Proof.
  revert self. induction reqs as [|req reqs IH]; intros self H.
  - injection H as <-. exists []. split; [constructor | reflexivity].
  - simpl in H. destruct (resolve r req) as [[n j]|e|] eqn:E; try discriminate.
    destruct (IH _ H) as (resolved & F & ->).
    exists ((n, j) :: resolved). split; [now constructor | reflexivity].
Qed.

Lemma post_init_loop_raise (r : Repository) (reqs : list Dependency)
  (self self' : Factory) (e : exn) :
  post_init_loop r reqs self = (Raise e, self') ->
  Exists (fun req => resolve r req = Raise e) reqs.
Proof.
  revert self. induction reqs as [|req reqs IH]; intros self H; [discriminate|].
  simpl in H. destruct (resolve r req) as [[n j]|e0|] eqn:E.
  - right. eapply IH; eauto.
  - injection H as <- _. now left.
  - discriminate.
Qed.

Lemma post_init_loop_no_fuel (r : Repository) (reqs : list Dependency)
  (self : Factory) :
  fst (post_init_loop r reqs self) <> OutOfFuel.
Proof.
  revert self. induction reqs as [|req reqs IH]; intros self; [discriminate|].
  simpl. pose proof (resolve_outcome r req) as O.
  destruct (resolve r req) as [[n j]|e|]; [apply IH | discriminate | discriminate].
Qed.

Lemma resolvable_Forall2 (r : Repository) (reqs : list Dependency) :
  Forall (fun req => exists found, resolve r req = Ret found) reqs ->
  exists resolved, Forall2 (fun req x => resolve r req = Ret x) reqs resolved.
Proof.
  induction 1 as [|req reqs [x Hx] _ [resolved IH]].
  - exists []. constructor.
  - exists (x :: resolved). now constructor.
Qed.

(** [post_init] of a creating factory, by cases. *)
Lemma post_init_cases (i : nat) (r : Repository) (self : Factory) :
  factory_at i r = Some self ->
  factory_class self <> StaticComponentFactory ->
  (exists resolved,
      Forall2 (fun req x => resolve r req = Ret x) (_requirements self) resolved
      /\ post_init i r
         = (Ret tt, update_factory i (fun _ => post_initialized self resolved) r))
  \/ (exists e, fst (post_init i r) = Raise e
                /\ wiring_exception e = true
                /\ Exists (fun req => resolve r req = Raise e)
                     (_requirements self)).
Proof.
  intros Hf Hc. unfold post_init. rewrite Hf.
  pose proof (post_init_loop_no_fuel r
                (_requirements (set_init_factories (Some []) self))
                (set_init_factories (Some []) self)) as NF.
  destruct (post_init_loop r (_requirements (set_init_factories (Some []) self))
              (set_init_factories (Some []) self)) as [[[]|e|] self'] eqn:L;
    [| |now contradiction NF].
  - left. apply post_init_loop_inv in L. destruct L as (resolved & F & ->).
    exists resolved. split; [exact F|].
    destruct (factory_class self); [congruence | reflexivity | reflexivity].
  - right. exists e. apply post_init_loop_raise in L.
    assert (W : wiring_exception e = true).
    { clear - L. induction L as [req l H|req l _ IH]; [|exact IH].
      pose proof (resolve_outcome r req) as O. rewrite H in O. exact O. }
    destruct (factory_class self); [congruence | |]; auto.
Qed.

Lemma update_factory_unwire (i : nat) (r : Repository) (self : Factory)
  (resolved : list (string * nat)) :
  factory_at i r = Some self ->
  map unwire
    (factory_by_name (update_factory i (fun _ => post_initialized self resolved) r))
  = map unwire (factory_by_name r).
Proof.
  intros Hf. cbn [update_factory factory_by_name]. apply map_update_nth.
  intros n f Hn. unfold factory_at in Hf. rewrite Hn in Hf. injection Hf as ->.
  unfold post_initialized, unwire. cbn [fst snd]. f_equal.
  destruct (wired_fields resolved (set_init_factories (Some []) self))
    as (H1 & _ & H3 & _).
  assert (Hn' : forall l g, _component_name (wired g l) = _component_name g
                            /\ _component_type (wired g l) = _component_type g
                            /\ _requirements (wired g l) = _requirements g).
  { clear. induction l as [|[m j] l IH]; intros g; [auto|].
    unfold wired in *. simpl. destruct (IH (append_resolved m j g)) as (A & B & C).
    rewrite A, B, C. auto. }
  destruct (Hn' resolved (set_init_factories (Some []) self)) as (A & B & C).
  cbn [_set_initialized factory_class _component_name _component_type
       _requirements _instance].
  rewrite H1, H3, A, B, C. reflexivity.
Qed.

Lemma resolvable_rewired (r r' : Repository) (f : Factory) :
  map unwire (factory_by_name r) = map unwire (factory_by_name r') ->
  resolvable r f <-> resolvable r' f.
Proof.
  intros H. unfold resolvable. split; apply Forall_impl; intros req [x Hx];
    exists x; [rewrite <- (resolve_rewired r r' req H)
              | rewrite (resolve_rewired r r' req H)]; exact Hx.
Qed.

Lemma post_init_other (i j : nat) (r : Repository) :
  j <> i -> factory_at j (snd (post_init i r)) = factory_at j r.
Proof.
  intros Hne. unfold post_init.
  destruct (factory_at i r) as [self|]; [|reflexivity].
  destruct (post_init_loop r (_requirements (set_init_factories (Some []) self))
              (set_init_factories (Some []) self)) as [[[]|e|] self'];
    destruct (factory_class self); cbn [snd];
    try reflexivity; apply factory_at_update_other; congruence.
Qed.

Lemma factory_class_static_dec (f : Factory) :
  {factory_class f = StaticComponentFactory}
  + {factory_class f <> StaticComponentFactory}.
Proof. destruct (factory_class f); [left | right | right]; congruence. Qed.

(** The loop of [setup] over distinct references to factories. *)
Lemma setup_loop_spec (fs : list nat) (s : State) :
  NoDup fs ->
  Forall (fun i => i < List.length (factory_by_name (_repository s))) fs ->
  (forall i, ~ In i fs ->
     factory_at i (_repository (snd (setup_loop fs s)))
     = factory_at i (_repository s))
  /\ raises_only wiring_exception (fst (setup_loop fs s)) = true
  /\ (fst (setup_loop fs s) = Ret tt
      <-> forall i f, In i fs -> factory_at i (_repository s) = Some f ->
            factory_class f <> StaticComponentFactory ->
            resolvable (_repository s) f)
  /\ (fst (setup_loop fs s) = Ret tt ->
      forall i f, In i fs -> factory_at i (_repository s) = Some f ->
        (factory_class f = StaticComponentFactory ->
         factory_at i (_repository (snd (setup_loop fs s))) = Some f)
        /\ (factory_class f <> StaticComponentFactory ->
            exists resolved,
              Forall2 (fun req x => resolve (_repository s) req = Ret x)
                (_requirements f) resolved
              /\ factory_at i (_repository (snd (setup_loop fs s)))
                 = Some (post_initialized f resolved))).
Proof.
  revert s. induction fs as [|i fs IH]; intros s Hnd Hv.
  - split; [|split; [|split]].
    + intros i _. reflexivity.
    + reflexivity.
    + split; [intros _ i f [] | reflexivity].
    + intros _ i f [].
  - inversion Hnd as [|? ? Hnotin Hnd']; subst.
    inversion Hv as [|? ? Hi Hv']; subst.
    rewrite setup_loop_cons.
    destruct (factory_at_valid i _ Hi) as [self Hf].
    destruct (factory_class_static_dec self) as [Hc|Hc].
    + (* a static factory: nothing happens *)
      assert (E : post_init i (_repository s) = (Ret tt, _repository s))
        by (unfold post_init; now rewrite Hf, Hc).
      rewrite E, with_repository_same.
      destruct (IH s Hnd' Hv') as (A & O & B & C).
      split; [|split; [exact O|split]].
      * intros j Hj. apply A. intros Hin. apply Hj. now right.
      * rewrite B. split.
        -- intros H j f [<-|Hin] Hfj; [congruence | now apply (H j)].
        -- intros H j f Hin. apply H. now right.
      * intros H j f [<-|Hin] Hfj.
        -- assert (f = self) by congruence. subst f.
           split; [|congruence]. intros _. now rewrite (A i Hnotin).
        -- now apply (C H j).
    + (* a creating factory *)
      destruct (post_init_cases i (_repository s) self Hf Hc)
        as [(resolved & F & E)|(e & E & W & X)].
      * rewrite E.
        set (r1 := update_factory i (fun _ => post_initialized self resolved)
                     (_repository s)).
        pose proof (update_factory_unwire i _ self resolved Hf) as U.
        fold r1 in U.
        assert (Hv1 : Forall (fun j => j < List.length
                                (factory_by_name
                                   (_repository (with_repository r1 s)))) fs).
        { cbn [_repository with_repository].
          assert (L : List.length (factory_by_name r1)
                      = List.length (factory_by_name (_repository s)))
            by apply update_nth_length.
          now rewrite L. }
        destruct (IH (with_repository r1 s) Hnd' Hv1) as (A & O & B & C).
        cbn [_repository with_repository] in A, B, C.
        assert (Other : forall j, j <> i ->
                   factory_at j r1 = factory_at j (_repository s))
          by (intros j Hj; apply factory_at_update_other; congruence).
        assert (Hr : forall f, resolvable r1 f <-> resolvable (_repository s) f)
          by (intros f; apply resolvable_rewired; exact U).
        split; [|split; [exact O|split]].
        -- intros j Hj. rewrite A by (intros Hin; apply Hj; now right).
           apply Other. intros ->. apply Hj. now left.
        -- rewrite B. split.
           ++ intros H j f [<-|Hin] Hfj Hcf.
              ** assert (f = self) by congruence. subst f.
                 unfold resolvable. clear - F.
                 induction F; constructor; eauto.
              ** apply Hr. apply (H j f Hin); [|exact Hcf].
                 rewrite Other; [exact Hfj|]. intros ->. contradiction.
           ++ intros H j f Hin Hfj Hcf. apply Hr.
              apply (H j f); [now right | | exact Hcf].
              rewrite <- Other; [exact Hfj|]. intros ->. contradiction.
        -- intros H j f [<-|Hin] Hfj.
           ++ assert (f = self) by congruence. subst f.
              split; [congruence|]. intros _. exists resolved.
              split; [exact F|]. rewrite (A i Hnotin).
              exact (factory_at_update i
                       (fun _ => post_initialized self resolved) _ self Hf).
           ++ assert (Hfj1 : factory_at j r1 = Some f).
              { rewrite Other; [exact Hfj|]. intros ->. contradiction. }
              destruct (C H j f Hin Hfj1) as [C1 C2]. split; [exact C1|].
              intros Hcf. destruct (C2 Hcf) as (res & F2 & E2).
              exists res. split; [|exact E2].
              clear - F2 U. induction F2 as [|req x l l' Hx _ IHF];
                constructor; auto.
              rewrite (resolve_rewired _ r1 req); [exact Hx|]. now symmetry.
      * pose proof (fun j Hj => post_init_other i j (_repository s) Hj) as Other.
        destruct (post_init i (_repository s)) as [[[]|e0|] r1];
          simpl in E; try discriminate.
        injection E as ->. cbn [fst snd _repository with_repository] in *.
        split; [|split; [exact W|split]].
        -- intros j Hj. apply Other. intros ->. apply Hj. now left.
        -- split; [discriminate|]. intros H. exfalso.
           specialize (H i self (or_introl eq_refl) Hf Hc).
           unfold resolvable in H. rewrite Forall_forall in H.
           apply Exists_exists in X. destruct X as (req & Hin & Hr).
           destruct (H req Hin) as [x Hx]. congruence.
        -- discriminate.
Qed.

Lemma factories_spec (r : Repository) :
  NoDup (factories r)
  /\ Forall (fun i => i < List.length (factory_by_name r)) (factories r)
  /\ forall i f, factory_at i r = Some f -> In i (factories r).
Proof.
  unfold factories. split; [apply seq_NoDup|]. split.
  - apply Forall_forall. intros i Hi. apply in_seq in Hi. lia.
  - intros i f Hf. apply in_seq. split; [lia|]. simpl.
    unfold factory_at in Hf.
    destruct (nth_error (factory_by_name r) i) eqn:E; [|discriminate].
    apply nth_error_Some. congruence.
Qed.

(** X9.  [setup] either returns or raises one of the three exceptions of
    wiring: [TypeMismatchException], [UnknownComponentException] or
    [TooManyDefinitionsException].  It returns exactly when every
    requirement of every creating factory resolves in the repository.
    Whatever the outcome, it leaves alone the names, the classes, the
    component names and types, the requirements and the instances of the
    factories, the set of available types, the detector's stack and the
    objects allocated. *)
Theorem setup_outcome (s : State) :
  raises_only wiring_exception (fst (setup s)) = true
  /\ (fst (setup s) = Ret tt
      <-> forall i f,
            factory_at i (_repository s) = Some f ->
            factory_class f <> StaticComponentFactory ->
            resolvable (_repository s) f)
  /\ map unwire (factory_by_name (_repository (snd (setup s))))
     = map unwire (factory_by_name (_repository s))
  /\ available_component_types (_repository (snd (setup s)))
     = available_component_types (_repository s)
  /\ context (snd (setup s)) = context s
  /\ allocated (snd (setup s)) = allocated s.
Proof.
  destruct (factories_spec (_repository s)) as (Hnd & Hv & Hin).
  destruct (setup_loop_spec (factories (_repository s)) s Hnd Hv)
    as (_ & O & B & _).
  destruct (setup_loop_unwire (factories (_repository s)) s) as (U & T & C & A).
  unfold setup. split; [exact O|]. split; [|auto].
  rewrite B. split.
  - intros H i f Hf. apply (H i f); [|exact Hf]. now apply (Hin i f).
  - intros H i f _. now apply H.
Qed.

(** X10.  After a [setup] that returned, every creating factory is
    initialized and wired: the factories it holds are, in the order of its
    requirements, what each requirement resolves to in the repository; each
    of them is registered under the name recorded for it -- these names are
    appended to the factory's [get_init_dependencies] -- and produces the
    type the requirement declares or a subclass of it.  Static factories
    are as they were. *)
Theorem setup_wires (s : State) (i : nat) (f : Factory) :
  fst (setup s) = Ret tt ->
  factory_at i (_repository s) = Some f ->
  exists f',
    factory_at i (_repository (snd (setup s))) = Some f'
    /\ (factory_class f = StaticComponentFactory -> f' = f)
    /\ (factory_class f <> StaticComponentFactory ->
        exists resolved,
          f' = post_initialized f resolved
          /\ _initialized f' = true
          /\ _init_factories f' = Some (map snd resolved)
          /\ _init_dependencies f' = _init_dependencies f ++ map fst resolved
          /\ Forall2
               (fun req found =>
                  resolve (_repository s) req = Ret found
                  /\ exists g,
                       nth_error (factory_by_name (_repository s)) (snd found)
                       = Some (fst found, g)
                       /\ issubclass (_component_type g) (component_type req)
                          = true)
               (_requirements f) resolved).
Proof.
  intros Hok Hf.
  destruct (factories_spec (_repository s)) as (Hnd & Hv & Hin).
  destruct (setup_loop_spec (factories (_repository s)) s Hnd Hv)
    as (_ & _ & _ & C).
  destruct (C Hok i f (Hin i f Hf) Hf) as [C1 C2].
  destruct (factory_class_static_dec f) as [Hc|Hc].
  - exists f. split; [now apply C1|]. split; [auto | congruence].
  - destruct (C2 Hc) as (resolved & F & E).
    exists (post_initialized f resolved). split; [exact E|].
    split; [congruence|]. intros _. exists resolved.
    destruct (wired_fields resolved (set_init_factories (Some []) f))
      as (_ & _ & _ & W4 & W5).
    split; [reflexivity|]. split; [reflexivity|]. split; [|split].
    + unfold post_initialized. cbn [_set_initialized _init_factories].
      now rewrite W5.
    + unfold post_initialized. cbn [_set_initialized _init_dependencies].
      now rewrite W4.
    + clear - F. induction F as [|req [n j] l l' Hx _ IH]; constructor; auto.
      split; [exact Hx|]. now apply resolve_sound.
Qed.

(* ------------------------------------------------------------------ *)
(** *** What [get_component] raises *)

Lemma admits_raises_only (A : Type) (ok : exn -> bool) (r : outcome A) :
  admits ok r = true -> is_out_of_fuel r = false -> raises_only ok r = true.
Proof. destruct r; simpl; congruence. Qed.

(** With consistent indices and reflexive [issubclass], a type that is in
    the set of available types is found by [find_by_type]. *)
Lemma find_by_type_available (r : Repository) (c : cls) :
  consistent r ->
  (forall c, issubclass c c = true) ->
  type_in c (available_component_types r) = true ->
  find_by_type c r <> [].
Proof.
  intros (_ & _ & Hty) Hrefl E. apply Hty in E.
  destruct E as (n & f & Hin & Hc).
  apply In_nth_error in Hin. destruct Hin as [i Hi].
  assert (Hfound : In (n, i) (find_by_type c r)).
  { unfold find_by_type. apply filter_type_from_In. exists f.
    rewrite Nat.sub_0_r. repeat split; [lia | exact Hi |].
    unfold is_type_of. rewrite Hc. apply Hrefl. }
  intros E0. rewrite E0 in Hfound. destruct Hfound.
Qed.

Lemma lookup_admits (r : Repository) (key : Key cls) :
  consistent r ->
  (forall c, issubclass c c = true) ->
  admits lookup_exception (lookup key r) = true.
Proof.
  intros C Hrefl. destruct key as [n|c|]; [| |reflexivity].
  - simpl. destruct (find_by_name n r) as [[i f]|]; reflexivity.
  - rewrite lookup_KType.
    destruct (type_in c (available_component_types r)) eqn:E; [|reflexivity].
    pose proof (find_by_type_available r c C Hrefl E) as Hne.
    destruct (find_by_type c r) as [|[m i] [|y l]];
      [congruence | reflexivity | reflexivity].
Qed.

Section Producing_admits.

Variable ok : exn -> bool.
Variable P : State -> Prop.
Hypothesis P_frame : forall s s', P s -> frame s s' -> P s'.
Hypothesis P_push :
  forall s i self,
    P s -> factory_at i (_repository s) = Some self ->
    str_in (_component_name self) (context s) = false ->
    P (with_context (context s ++ [_component_name self]) s).
Hypothesis P_wired : forall s, P s -> well_wired (_repository s).
Hypothesis ok_cyclic :
  forall s n,
    P s -> str_in n (context s) = true ->
    ok (CyclicDependencyException (skipn (index n (context s)) (context s) ++ [n]))
    = true.
Hypothesis ok_constructor : ok PyException = true.
Hypothesis ok_lookup :
  forall s key, P s -> admits ok (lookup key (_repository s)) = true.
Hypothesis ok_not_initialized :
  forall s i self,
    P s -> factory_at i (_repository s) = Some self ->
    factory_class self <> StaticComponentFactory ->
    _initialized self = false ->
    ok (InvalidStateException "Factory not initialized.") = true.

Variable rec : nat -> M (obj cls).
Hypothesis rec_preserves : forall i, preserves (rec i).
Hypothesis rec_admits :
  forall i s,
    P s -> i < List.length (factory_by_name (_repository s)) ->
    admits ok (fst (rec i s)) = true.

Lemma get_component_with_admits (key : Key cls) (s : State) :
  P s -> admits ok (fst (get_component_with rec key s)) = true.
Proof.
  intros HP. unfold get_component_with.
  pose proof (ok_lookup s key HP) as L.
  destruct (lookup key (_repository s)) as [i|e|] eqn:E; simpl in *; auto.
  apply rec_admits; [exact HP | now apply (lookup_range key)].
Qed.

Lemma get_objects_admits (fs : list nat) (s : State) :
  P s ->
  Forall (fun j => j < List.length (factory_by_name (_repository s))) fs ->
  admits ok (fst (get_objects rec fs s)) = true.
Proof.
  revert s. induction fs as [|f fs IH]; intros s HP V; [reflexivity|].
  inversion V as [|? ? Vf Vfs]; subst. simpl. unfold bind at 1.
  pose proof (rec_admits f s HP Vf) as Hr.
  pose proof (rec_preserves f s) as F.
  destruct (rec f s) as [[o|e|] s1]; simpl in *; auto.
  unfold bind.
  assert (H1 : admits ok (fst (get_objects rec fs s1)) = true).
  { apply IH; [now apply (P_frame s)|]. now rewrite (frame_length s s1 F). }
  destruct (get_objects rec fs s1) as [[os|e|] s2]; simpl in *; auto.
Qed.

Lemma run_lookups_admits (keys : list (Key cls)) (s : State) :
  P s -> admits ok (fst (run_lookups rec keys s)) = true.
Proof.
  revert s. induction keys as [|k keys IH]; intros s HP; [reflexivity|].
  simpl. unfold bind.
  pose proof (get_component_with_admits k s HP) as Hr.
  pose proof (get_component_with_preserves rec rec_preserves k s) as F.
  destruct (get_component_with rec k s) as [[o|e|] s1]; simpl in *; auto.
  apply IH. now apply (P_frame s).
Qed.

Lemma construct_admits (c : cls) (args : list (obj cls)) (s : State) :
  P s -> admits ok (fst (construct rec c args s)) = true.
Proof.
  intros HP. unfold construct, bind.
  assert (HP' : P (allocate s)) by (apply (P_frame s); [exact HP|apply frame_allocate]).
  pose proof (run_lookups_admits (init_lookups (init_body c args))
                (allocate s) HP') as Hr.
  destruct (run_lookups rec (init_lookups (init_body c args)) (allocate s))
    as [[[]|e|] s1]; simpl in *; auto.
  destruct (init_raises (init_body c args)); simpl; auto.
Qed.

Lemma _create_component_admits (i : nat) (self : Factory) (s : State) :
  P s ->
  factory_at i (_repository s) = Some self ->
  factory_class self <> StaticComponentFactory ->
  admits ok (fst (_create_component rec self s)) = true.
Proof.
  intros HP Hf Hc. unfold _create_component.
  destruct (P_wired s HP i self Hf) as [V N].
  destruct (str_in (_component_name self) (context s)) eqn:E.
  - unfold with_DependencyCyclicDetector, on_context.
    rewrite (push_present _ _ E). simpl. now apply ok_cyclic.
  - rewrite with_detector_enter by (now apply body_preserves || exact E).
    cbn [fst]. unfold bind at 1, lift, assert_state.
    destruct (_initialized self) eqn:Hi; cbn [negb].
    + destruct (_init_factories self) as [fs|]; [|now contradiction (N Hc eq_refl)].
      unfold bind.
      set (s0 := with_context (context s ++ [_component_name self]) s).
      assert (HP0 : P s0) by now apply (P_push s i self).
      pose proof (get_objects_admits fs s0 HP0 (V fs eq_refl)) as Hr.
      pose proof (get_objects_preserves rec rec_preserves fs s0) as F.
      destruct (get_objects rec fs s0) as [[args|e|] s1]; simpl in *; auto.
      apply construct_admits. now apply (P_frame s0).
    + simpl. now apply (ok_not_initialized s i self).
Qed.

Lemma get_object_with_admits (i : nat) (s : State) :
  P s ->
  i < List.length (factory_by_name (_repository s)) ->
  admits ok (fst (get_object_with rec i s)) = true.
Proof.
  intros HP V. unfold get_object_with.
  destruct (factory_at_valid i _ V) as [self Hf]. rewrite Hf.
  destruct (factory_class self) eqn:Hc; [reflexivity | |].
  - destruct (is_None (_instance self)); [|reflexivity].
    assert (Hr : admits ok (fst (_create_component rec self s)) = true).
    { apply (_create_component_admits i); auto. congruence. }
    destruct (_create_component rec self s) as [[o|e|] s1]; simpl in *; auto.
  - apply (_create_component_admits i); auto. congruence.
Qed.

End Producing_admits.

Lemma get_object_admits (ok : exn -> bool) (P : State -> Prop) :
  (forall s s', P s -> frame s s' -> P s') ->
  (forall s i self,
      P s -> factory_at i (_repository s) = Some self ->
      str_in (_component_name self) (context s) = false ->
      P (with_context (context s ++ [_component_name self]) s)) ->
  (forall s, P s -> well_wired (_repository s)) ->
  (forall s n,
      P s -> str_in n (context s) = true ->
      ok (CyclicDependencyException
            (skipn (index n (context s)) (context s) ++ [n])) = true) ->
  ok PyException = true ->
  (forall s key, P s -> admits ok (lookup key (_repository s)) = true) ->
  (forall s i self,
      P s -> factory_at i (_repository s) = Some self ->
      factory_class self <> StaticComponentFactory ->
      _initialized self = false ->
      ok (InvalidStateException "Factory not initialized.") = true) ->
  forall fuel key s,
    P s -> admits ok (fst (get_component fuel key s)) = true.
Proof.
  intros H1 H2 H3 H4 H5 H6 H7 fuel key s HP.
  apply (get_component_with_admits ok P H6); [|exact HP].
  clear key s HP. induction fuel as [|fuel IH]; intros i s HP V; [reflexivity|].
  simpl. apply (get_object_with_admits ok P H1 H2 H3 H4 H5 H6 H7); auto.
  intros j. apply get_object_preserves.
Qed.

Lemma admits_weaken (A : Type) (ok ok' : exn -> bool) (r : outcome A) :
  (forall e, ok e = true -> ok' e = true) ->
  admits ok r = true -> admits ok' r = true.
Proof. intros H. destruct r; simpl; auto. Qed.

Lemma consistent_frame (s s' : State) :
  frame s s' -> consistent (_repository s) -> consistent (_repository s').
Proof.
  intros (Hd & Ht & _). apply consistent_outline; [|exact Ht].
  rewrite <- (outline_erase (factory_by_name (_repository s))).
  rewrite <- (outline_erase (factory_by_name (_repository s'))).
  now rewrite Hd.
Qed.

Lemma all_initialized_frame (s s' : State) :
  frame s s' ->
  all_initialized (_repository s) -> all_initialized (_repository s').
Proof.
  intros (Hd & _) H i f' Hf'.
  destruct (factory_at_erased _ _ i f' (eq_sym Hd) Hf')
    as (f & Hf & _ & _ & _ & Hi & _).
  rewrite <- Hi. now apply (H i f).
Qed.

(** X11.  From a state a container can be in, with every class a subclass
    of itself and a depth budget above the number of factories, a
    [get_component] call returns or raises one of:
    [InvalidArgumentException], [UnknownComponentException] or
    [TooManyDefinitionsException] for the key (its own or one a constructor
    asks for), [CyclicDependencyException], the exception of a constructor,
    or [InvalidStateException] for a factory that is not initialized.  It
    never raises the detector's own [InvalidStateException] (every [pop]
    finds its name on top), nor [NameAlreadyDefinedException],
    [TypeMismatchException] or a built-in error of a lookup. *)
Theorem get_component_raises (s : State) (fuel : nat) (key : Key cls) :
  reachable s ->
  (forall c, issubclass c c = true) ->
  List.length (factory_by_name (_repository s)) < fuel ->
  raises_only get_component_exception (fst (get_component fuel key s)) = true.
Proof.
  intros R Hrefl Hfuel. apply admits_raises_only.
  - apply (get_object_admits get_component_exception
             (fun s => well_wired (_repository s) /\ consistent (_repository s))).
    + intros s0 s1 [W C] F. split;
        [now apply (well_wired_frame s0) | now apply (consistent_frame s0)].
    + intros s0 i self H _ _. exact H.
    + intros s0 [W _]. exact W.
    + reflexivity.
    + reflexivity.
    + intros s0 k [_ C].
      apply (admits_weaken _ lookup_exception);
        [|now apply lookup_admits].
      intros e He. unfold get_component_exception, production_exception.
      destruct e; simpl in *; congruence.
    + reflexivity.
    + split; [now apply reachable_well_wired | now apply reachable_consistent].
  - apply get_component_total; [now apply reachable_context | exact Hfuel].
Qed.

Lemma statics_ready_post_init (i : nat) (r : Repository) :
  statics_ready r -> statics_ready (snd (post_init i r)).
Proof.
  intros H j f' Hf' Hc'.
  destruct (Nat.eq_dec j i) as [->|Hne];
    [|rewrite post_init_other in Hf' by assumption; now apply (H j)].
  revert Hf'. unfold post_init.
  destruct (factory_at i r) as [self|] eqn:Hf; [|intros Hf'; now apply (H i)].
  assert (L := post_init_loop_range r
                 (_requirements (set_init_factories (Some []) self))
                 (set_init_factories (Some []) self)).
  destruct (post_init_loop r (_requirements (set_init_factories (Some []) self))
              (set_init_factories (Some []) self)) as [out self'].
  destruct (L self' out eq_refl) as (_ & _ & H3 & _).
  { intros fs E. injection E as <-. constructor. }
  { discriminate. }
  cbn [set_init_factories factory_class] in H3.
  destruct (factory_class self) eqn:Hc;
    [intros Hf'; now apply (H i) | |];
    destruct out as [[]|e|]; cbn [snd];
    rewrite (factory_at_update i _ r self Hf); intros E; injection E as <-;
    simpl in Hc'; congruence.
Qed.

Lemma statics_ready_setup_loop (fs : list nat) (s : State) :
  statics_ready (_repository s) ->
  statics_ready (_repository (snd (setup_loop fs s))).
Proof.
  revert s. induction fs as [|i fs IH]; intros s H; [exact H|].
  rewrite setup_loop_cons.
  pose proof (statics_ready_post_init i _ H) as H1.
  destruct (post_init i (_repository s)) as [[[]|e|] r1]; cbn [snd] in *; auto.
Qed.

Lemma reachable_statics_ready (s : State) :
  reachable s -> statics_ready (_repository s).
Proof.
  induction 1 as [|reg s _ IH|s _ IH|fuel key s _ IH _].
  - intros i f Hf _. destruct i as [|[|i]]; simpl in Hf; try discriminate.
    injection Hf as <-. reflexivity.
  - destruct (register_cases reg s) as [[_ ->]|[_ ->]]; [exact IH|].
    cbn [snd with_repository _repository]. intros i f Hf Hc.
    apply (factory_at_app _ _ _ _ _ _ (available_component_types (_repository s)))
      in Hf.
    destruct Hf as [Hf|[_ ->]].
    + apply (IH i); [|exact Hc]. destruct (_repository s); exact Hf.
    + destruct reg as [c n|o n]; [discriminate | reflexivity].
  - now apply statics_ready_setup_loop.
  - intros i f' Hf' Hc'.
    destruct (get_component_preserves fuel key s) as (Hd & _).
    destruct (factory_at_erased _ _ i f' (eq_sym Hd) Hf')
      as (f & Hf & Hc & _ & _ & Hi & _).
    rewrite <- Hi. apply (IH i f Hf). congruence.
Qed.

Lemma setup_all_initialized (s : State) :
  statics_ready (_repository s) ->
  fst (setup s) = Ret tt ->
  all_initialized (_repository (snd (setup s))).
Proof.
  intros Hs Hok i f' Hf'.
  destruct (factories_spec (_repository s)) as (Hnd & Hv & Hin).
  destruct (setup_loop_spec (factories (_repository s)) s Hnd Hv)
    as (_ & _ & _ & C).
  destruct (setup_loop_unwire (factories (_repository s)) s) as (U & _).
  assert (V : i < List.length (factory_by_name (_repository s))).
  { rewrite <- (length_map unwire (factory_by_name (_repository s))), <- U.
    rewrite length_map. unfold factory_at, setup in Hf'.
    destruct (nth_error (factory_by_name (_repository (snd (setup_loop
                (factories (_repository s)) s)))) i) eqn:E; [|discriminate].
    apply nth_error_Some. congruence. }
  destruct (factory_at_valid i _ V) as [f Hf].
  destruct (C Hok i f (Hin i f Hf) Hf) as [C1 C2].
  unfold setup in Hf'.
  destruct (factory_class_static_dec f) as [Hc|Hc].
  - rewrite (C1 Hc) in Hf'. injection Hf' as <-. now apply (Hs i).
  - destruct (C2 Hc) as (resolved & _ & E). rewrite E in Hf'.
    injection Hf' as <-. reflexivity.
Qed.

(** X12.  A [setup] that returns leaves every factory initialized; and
    while every factory is initialized, a [get_component] call returns or
    raises an exception of the lookup of a key,
    [CyclicDependencyException] or the exception of a constructor -- never
    [InvalidStateException] --, and leaves every factory initialized. *)
Theorem initialized_container_serves (s : State) (fuel : nat) (key : Key cls) :
  reachable s ->
  (forall c, issubclass c c = true) ->
  List.length (factory_by_name (_repository s)) < fuel ->
  (fst (setup s) = Ret tt -> all_initialized (_repository (snd (setup s))))
  /\ (all_initialized (_repository s) ->
      raises_only production_exception (fst (get_component fuel key s)) = true
      /\ all_initialized (_repository (snd (get_component fuel key s)))).
Proof.
  intros R Hrefl Hfuel. split.
  - apply setup_all_initialized. now apply reachable_statics_ready.
  - intros Hall. split.
    + apply admits_raises_only.
      * apply (get_object_admits production_exception
                 (fun s => (well_wired (_repository s)
                            /\ consistent (_repository s))
                           /\ all_initialized (_repository s))).
        -- intros s0 s1 [[W C] A] F. split; [split|].
           ++ now apply (well_wired_frame s0).
           ++ now apply (consistent_frame s0).
           ++ now apply (all_initialized_frame s0).
        -- intros s0 i self H _ _. exact H.
        -- intros s0 [[W _] _]. exact W.
        -- reflexivity.
        -- reflexivity.
        -- intros s0 k [[_ C] _].
           apply (admits_weaken _ lookup_exception);
             [|now apply lookup_admits].
           intros e He. unfold production_exception.
           destruct e; simpl in *; congruence.
        -- intros s0 i self [_ A] Hf _ Hi.
           rewrite (A i self Hf) in Hi. discriminate.
        -- split; [split|].
           ++ now apply reachable_well_wired.
           ++ now apply reachable_consistent.
           ++ exact Hall.
      * apply get_component_total; [now apply reachable_context | exact Hfuel].
    + apply (all_initialized_frame s); [apply get_component_preserves | exact Hall].
Qed.

(* ------------------------------------------------------------------ *)
(** *** Components that are held stay *)

Lemma holds_instance_same (f f' : Factory) :
  factory_class f' = factory_class f -> _instance f' = _instance f ->
  holds_instance f' = holds_instance f.
Proof. unfold holds_instance. now intros -> ->. Qed.

Lemma keeps_held_refl (r : Repository) : keeps_held r r.
Proof. intros i f Hf _. now exists f. Qed.

Lemma keeps_held_trans (r1 r2 r3 : Repository) :
  keeps_held r1 r2 -> keeps_held r2 r3 -> keeps_held r1 r3.
Proof.
  intros H12 H23 i f Hf Hh.
  destruct (H12 i f Hf Hh) as (f2 & Hf2 & Hc2 & Ho2).
  assert (Hh2 : holds_instance f2 = true)
    by (rewrite (holds_instance_same f f2); auto).
  destruct (H23 i f2 Hf2 Hh2) as (f3 & Hf3 & Hc3 & Ho3).
  exists f3. repeat split; congruence.
Qed.

Lemma keeps_bind (A B : Type) (m : M A) (k : A -> M B) :
  keeps m -> (forall a, keeps (k a)) -> keeps (bind m k).
Proof.
  intros Hm Hk s. unfold bind. specialize (Hm s).
  destruct (m s) as [[a|e|] s1]; simpl in *; auto.
  eapply keeps_held_trans; [exact Hm | apply Hk].
Qed.

Lemma keeps_same (A : Type) (m : M A) :
  (forall s, _repository (snd (m s)) = _repository s) -> keeps m.
Proof. intros H s. rewrite H. apply keeps_held_refl. Qed.

Lemma on_context_repository (A : Type)
  (op : list string -> outcome A * list string) (s : State) :
  _repository (snd (on_context op s)) = _repository s.
Proof. unfold on_context. destruct (op (context s)). reflexivity. Qed.

Lemma keeps_with_detector (A : Type) (n : string) (body : M A) :
  keeps body -> keeps (with_DependencyCyclicDetector n body).
Proof.
  intros Hb s. unfold with_DependencyCyclicDetector.
  pose proof (on_context_repository _ (push n) s) as E1.
  destruct (on_context (push n) s) as [[[]|e|] s1]; cbn [snd] in *;
    try (rewrite E1; apply keeps_held_refl).
  specialize (Hb s1). rewrite E1 in Hb.
  destruct (body s1) as [r s2]. cbn [snd] in Hb.
  pose proof (on_context_repository _ (pop n) s2) as E2.
  destruct (on_context (pop n) s2) as [p s3]. cbn [snd] in E2.
  assert (K : keeps_held (_repository s) (_repository s3)) by now rewrite E2.
  destruct r; destruct p; exact K.
Qed.

Section Producing_keeps.

Variable rec : nat -> M (obj cls).
Hypothesis rec_keeps : forall i, keeps (rec i).

Lemma get_component_with_keeps (key : Key cls) :
  keeps (get_component_with rec key).
Proof.
  intros s. unfold get_component_with.
  destruct (lookup key (_repository s)); try apply keeps_held_refl.
  apply rec_keeps.
Qed.

Lemma get_objects_keeps (fs : list nat) : keeps (get_objects rec fs).
Proof.
  induction fs as [|f fs IH]; simpl; [now apply keeps_same|].
  apply keeps_bind; [apply rec_keeps|]. intros o.
  apply keeps_bind; [exact IH|]. intros os. now apply keeps_same.
Qed.

Lemma run_lookups_keeps (keys : list (Key cls)) : keeps (run_lookups rec keys).
Proof.
  induction keys as [|k keys IH]; simpl; [now apply keeps_same|].
  apply keeps_bind; [apply get_component_with_keeps | intros _; exact IH].
Qed.

Lemma construct_keeps (c : cls) (args : list (obj cls)) :
  keeps (construct rec c args).
Proof.
  intros s. unfold construct.
  change (_repository s) with (_repository (allocate s)).
  apply keeps_bind; [apply run_lookups_keeps|]. intros _.
  destruct (init_raises (init_body c args)); now apply keeps_same.
Qed.

Lemma _create_component_keeps (self : Factory) :
  keeps (_create_component rec self).
Proof.
  unfold _create_component. apply keeps_with_detector.
  apply keeps_bind; [now apply keeps_same|]. intros _.
  destruct (_init_factories self) as [fs|]; [|now apply keeps_same].
  apply keeps_bind; [apply get_objects_keeps|]. intros args.
  apply construct_keeps.
Qed.

Lemma get_object_with_keeps (i : nat) : keeps (get_object_with rec i).
Proof.
  intros s. unfold get_object_with.
  destruct (factory_at i (_repository s)) as [self|] eqn:Hf;
    [|apply keeps_held_refl].
  destruct (factory_class self) eqn:Hc; try apply keeps_held_refl.
  - destruct (is_None (_instance self)) eqn:En; [|apply keeps_held_refl].
    pose proof (_create_component_keeps self s) as K.
    destruct (_create_component rec self s) as [[o|e|] s1]; simpl in *; auto.
    intros j f Hfj Hh.
    destruct (K j f Hfj Hh) as (f' & Hf' & Hc' & Ho').
    assert (Hne : i <> j).
    { intros ->. assert (f = self) by congruence. subst f.
      unfold holds_instance in Hh. rewrite Hc, En in Hh. discriminate. }
    exists f'. rewrite factory_at_update_other by assumption. auto.
  - apply _create_component_keeps.
Qed.

End Producing_keeps.

Lemma get_object_keeps (fuel i : nat) : keeps (get_object fuel i).
Proof.
  revert i. induction fuel as [|fuel IH]; intros i.
  - now apply keeps_same.
  - simpl. apply get_object_with_keeps. exact IH.
Qed.

Lemma factory_at_unwired (r r' : Repository) (i : nat) (f : Factory) :
  map unwire (factory_by_name r) = map unwire (factory_by_name r') ->
  factory_at i r = Some f ->
  exists f',
    factory_at i r' = Some f'
    /\ factory_class f' = factory_class f
    /\ _instance f' = _instance f
    /\ _component_type f' = _component_type f.
Proof.
  intros Hd Hf. unfold factory_at in *.
  destruct (nth_error (factory_by_name r) i) as [[n f0]|] eqn:E;
    [|discriminate].
  injection Hf as ->.
  assert (He : nth_error (map unwire (factory_by_name r')) i
               = Some (unwire (n, f))).
  { rewrite <- Hd. rewrite nth_error_map, E. reflexivity. }
  rewrite nth_error_map in He.
  destruct (nth_error (factory_by_name r') i) as [[n' f']|]; [|discriminate].
  assert (He' : unwire (n', f') = unwire (n, f))
    by (cbn [option_map] in He; congruence).
  exists f'. unfold unwire in He'. simpl in He'.
  injection He' as _ Hc _ Ht _ Ho. auto.
Qed.

Lemma evolves_keeps_held (s s' : State) :
  evolves s s' -> keeps_held (_repository s) (_repository s').
Proof.
  induction 1 as [s|reg s s' _ IH|s s' _ IH|fuel key s s' _ IH].
  - apply keeps_held_refl.
  - eapply keeps_held_trans; [exact IH|].
    destruct (register_cases reg s') as [[_ ->]|[_ ->]];
      [apply keeps_held_refl|].
    intros i f Hf _. exists f. split; [|auto].
    cbn [snd with_repository _repository]. unfold factory_at in *.
    cbn [factory_by_name].
    destruct (nth_error (factory_by_name (_repository s')) i) eqn:E;
      [|discriminate].
    rewrite nth_error_app1 by (apply nth_error_Some; congruence).
    now rewrite E.
  - eapply keeps_held_trans; [exact IH|].
    destruct (setup_loop_unwire (factories (_repository s')) s') as (U & _).
    intros i f Hf _. unfold setup.
    destruct (factory_at_unwired _ _ i f (eq_sym U) Hf) as (f' & H1 & H2 & H3 & _).
    now exists f'.
  - eapply keeps_held_trans; [exact IH|].
    apply get_component_with_keeps. intros i. apply get_object_keeps.
Qed.

Lemma evolves_keys (s s' : State) :
  evolves s s' ->
  exists extra, keys (_repository s') = keys (_repository s) ++ extra.
Proof.
  induction 1 as [s|reg s s' _ [extra IH]|s s' _ [extra IH]
                 |fuel key s s' _ [extra IH]].
  - exists []. now rewrite app_nil_r.
  - destruct (register_cases reg s') as [[_ ->]|[_ ->]]; [now exists extra|].
    exists (extra ++ [registration_name reg]).
    unfold keys in *. cbn [snd with_repository _repository factory_by_name].
    rewrite map_app, IH, <- app_assoc. reflexivity.
  - exists extra. rewrite <- IH.
    destruct (setup_loop_unwire (factories (_repository s')) s') as (U & _).
    unfold keys, setup.
    replace (map fst (factory_by_name (_repository s')))
      with (map fst (map unwire (factory_by_name (_repository s'))))
      by (rewrite map_map; reflexivity).
    rewrite <- U, map_map. reflexivity.
  - exists extra. rewrite <- IH.
    destruct (get_component_preserves fuel key s') as (Hd & _).
    unfold keys.
    replace (map fst (factory_by_name (_repository s')))
      with (map fst (map erase (factory_by_name (_repository s'))))
      by (rewrite map_map; reflexivity).
    rewrite Hd, map_map. reflexivity.
Qed.

Lemma find_from_keys_prefix (k : nat) (n : string)
  (d d' : list (string * Factory)) (extra : list string) (i : nat) (f : Factory) :
  map fst d' = map fst d ++ extra ->
  find_from k n d = Some (i, f) ->
  exists f', find_from k n d' = Some (i, f').
Proof.
  revert k d'. induction d as [|[m g] d IH]; intros k d' Hk H; [discriminate|].
  destruct d' as [|[m' g'] d']; [discriminate|].
  simpl in Hk. injection Hk as -> Hk. simpl in *.
  destruct (String.eqb m n).
  - injection H as <- _. now exists g'.
  - now apply (IH (S k)).
Qed.

(** X13.  A component that is held stays.  When a name is bound to a static
    factory, or to a singleton factory that has built its component, then
    after any further calls of [register_type], [register_instance],
    [setup] and [get_component], a [get_component] call for that name
    returns that very component and changes nothing. *)
Theorem held_component_stays (s s' : State) (n : string) (i : nat)
  (f : Factory) (fuel : nat) :
  evolves s s' ->
  find_by_name n (_repository s) = Some (i, f) ->
  holds_instance f = true ->
  get_component (S fuel) (KStr n) s' = (Ret (_instance f), s').
Proof.
  intros Hev Hfind Hh.
  destruct (evolves_keys s s' Hev) as [extra Hk].
  destruct (find_from_keys_prefix 0 n _ _ extra i f Hk Hfind) as [f'' Hfind'].
  assert (Hat : factory_at i (_repository s) = Some f).
  { apply find_from_nth in Hfind. rewrite Nat.sub_0_r in Hfind.
    destruct Hfind as (_ & Hn & _). unfold factory_at. now rewrite Hn. }
  destruct (evolves_keeps_held s s' Hev i f Hat Hh) as (f' & Hf' & Hc' & Ho').
  unfold get_component, get_component_with. simpl lookup.
  unfold find_by_name. rewrite Hfind'. simpl. unfold get_object_with.
  rewrite Hf', Hc', Ho'. unfold holds_instance in Hh.
  destruct (factory_class f); [reflexivity | | discriminate].
  apply negb_true_iff in Hh. now rewrite Hh.
Qed.

(* ------------------------------------------------------------------ *)
(** *** Construction *)

Lemma get_object_held (fuel j : nat) (g : Factory) (s : State) :
  factory_at j (_repository s) = Some g ->
  holds_instance g = true ->
  get_object (S fuel) j s = (Ret (_instance g), s).
Proof.
  intros Hf Hh. simpl. unfold get_object_with. rewrite Hf.
  unfold holds_instance in Hh.
  destruct (factory_class g); [reflexivity | | discriminate].
  apply negb_true_iff in Hh. now rewrite Hh.
Qed.

Lemma get_objects_held (fuel : nat) (fs : list nat) (s : State) :
  Forall (fun j => exists g, factory_at j (_repository s) = Some g
                             /\ holds_instance g = true) fs ->
  get_objects (get_object (S fuel)) fs s
  = (Ret (held_instances (_repository s) fs), s).
Proof.
  induction 1 as [|j fs (g & Hf & Hh) _ IH]; [reflexivity|].
  cbn [get_objects held_instances map]. unfold bind at 1.
  rewrite (get_object_held fuel j g s Hf Hh). unfold bind. rewrite IH.
  unfold ret. now rewrite Hf.
Qed.

(** X14.  A singleton factory that is initialized, has not built its
    component and is not under construction, and whose factories all hold
    their components, builds its component from those components, in the
    order of its requirements: when the constructor makes no lookup and
    does not raise, [get_object] returns the new object, the factory holds
    it from then on, one object was allocated, and nothing else changed --
    the detector's stack is as it was. *)
Theorem singleton_built_from_held (s : State) (i : nat) (self : Factory)
  (fs : list nat) (fuel : nat) :
  factory_at i (_repository s) = Some self ->
  factory_class self = SingletonComponentFactory ->
  _instance self = PyNone ->
  _initialized self = true ->
  _init_factories self = Some fs ->
  ~ In (_component_name self) (context s) ->
  Forall (fun j => exists g, factory_at j (_repository s) = Some g
                             /\ holds_instance g = true) fs ->
  init_lookups (init_body (_component_type self)
                  (held_instances (_repository s) fs)) = [] ->
  init_raises (init_body (_component_type self)
                 (held_instances (_repository s) fs)) = false ->
  get_object (S (S fuel)) i s
  = (Ret (Created (allocated s) (_component_type self)
            (held_instances (_repository s) fs)),
     {| _repository :=
          update_factory i
            (set_instance
               (Created (allocated s) (_component_type self)
                  (held_instances (_repository s) fs)))
            (_repository s);
        context := context s;
        allocated := S (allocated s) |}).
Proof.
  intros Hf Hc Ho Hi Hw Hctx Hheld Hl Hr.
  set (args := held_instances (_repository s) fs) in *.
  set (s0 := with_context (context s ++ [_component_name self]) s).
  assert (G : get_objects (get_object (S fuel)) fs s0 = (Ret args, s0))
    by (apply (get_objects_held fuel fs s0); exact Hheld).
  assert (B : bind (lift (assert_state (_initialized self)
                            "Factory not initialized."))
                (fun _ =>
                   match _init_factories self with
                   | None => raise TypeError
                   | Some fs =>
                       bind (get_objects (get_object (S fuel)) fs)
                         (fun args =>
                            construct (get_object (S fuel))
                              (_component_type self) args)
                   end) s0
              = (Ret (Created (allocated s) (_component_type self) args),
                 allocate s0)).
  { unfold bind at 1, lift, assert_state. rewrite Hi, Hw. cbn [negb].
    unfold bind. rewrite G. unfold construct, bind. rewrite Hl, Hr.
    reflexivity. }
  change (get_object (S (S fuel)) i s)
    with (get_object_with (get_object (S fuel)) i s).
  unfold get_object_with. rewrite Hf, Hc, Ho. cbn [is_None].
  unfold _create_component.
  rewrite with_detector_enter;
    [|apply body_preserves; intros j; apply get_object_preserves
     |now apply str_in_not_In].
  fold s0. rewrite B. reflexivity.
Qed.

(* ------------------------------------------------------------------ *)
(** *** A factory under construction is left alone *)

Lemma guarded_refl (c : list string) (r : Repository) : guarded c r r.
Proof. intros i f Hf _. exact Hf. Qed.

Lemma guarded_trans (c : list string) (r1 r2 r3 : Repository) :
  guarded c r1 r2 -> guarded c r2 r3 -> guarded c r1 r3.
Proof. intros H12 H23 i f Hf Hin. apply H23; auto. Qed.

Lemma guards_same (A : Type) (m : M A) :
  (forall s, _repository (snd (m s)) = _repository s) -> guards m.
Proof. intros H s. rewrite H. apply guarded_refl. Qed.

Lemma guards_bind (A B : Type) (m : M A) (k : A -> M B) :
  preserves m -> guards m -> (forall a, guards (k a)) -> guards (bind m k).
Proof.
  intros Hp Hm Hk s. unfold bind. specialize (Hm s). specialize (Hp s).
  destruct (m s) as [[a|e|] s1]; simpl in *; auto.
  eapply guarded_trans; [exact Hm|].
  destruct Hp as (_ & _ & Hc & _). rewrite Hc. apply Hk.
Qed.

Lemma guards_with_detector (A : Type) (n : string) (body : M A) :
  guards body -> guards (with_DependencyCyclicDetector n body).
Proof.
  intros Hb s. unfold with_DependencyCyclicDetector, on_context at 1, push.
  destruct (str_in n (context s)).
  - simpl. apply guarded_refl.
  - specialize (Hb (with_context (context s ++ [n]) s)).
    destruct (body (with_context (context s ++ [n]) s)) as [r s2].
    cbn [snd context _repository with_context] in Hb.
    pose proof (on_context_repository _ (pop n) s2) as E2.
    destruct (on_context (pop n) s2) as [p s3]. cbn [snd] in E2.
    assert (K : guarded (context s) (_repository s) (_repository s3)).
    { rewrite E2. intros i f Hf Hin. apply Hb; [exact Hf|].
      apply in_app_iff. now left. }
    destruct r; destruct p; exact K.
Qed.

Section Producing_guards.

Variable rec : nat -> M (obj cls).
Hypothesis rec_preserves : forall i, preserves (rec i).
Hypothesis rec_guards : forall i, guards (rec i).

Lemma get_component_with_guards (key : Key cls) :
  guards (get_component_with rec key).
Proof.
  intros s. unfold get_component_with.
  destruct (lookup key (_repository s)); try apply guarded_refl.
  apply rec_guards.
Qed.

Lemma get_objects_guards (fs : list nat) : guards (get_objects rec fs).
Proof.
  induction fs as [|f fs IH]; simpl; [now apply guards_same|].
  apply guards_bind; [apply rec_preserves | apply rec_guards |]. intros o.
  apply guards_bind; [now apply get_objects_preserves | exact IH |].
  intros os. now apply guards_same.
Qed.

Lemma run_lookups_guards (keys : list (Key cls)) : guards (run_lookups rec keys).
Proof.
  induction keys as [|k keys IH]; simpl; [now apply guards_same|].
  apply guards_bind;
    [now apply get_component_with_preserves
    | apply get_component_with_guards
    | intros _; exact IH].
Qed.

Lemma construct_guards (c : cls) (args : list (obj cls)) :
  guards (construct rec c args).
Proof.
  intros s. unfold construct.
  change (_repository s) with (_repository (allocate s)).
  change (context s) with (context (allocate s)).
  apply guards_bind;
    [now apply run_lookups_preserves | apply run_lookups_guards |].
  intros _. destruct (init_raises (init_body c args)); now apply guards_same.
Qed.

Lemma body_guards (self : Factory) :
  guards
    (bind (lift (assert_state (_initialized self) "Factory not initialized."))
       (fun _ =>
          match _init_factories self with
          | None => raise TypeError
          | Some fs =>
              bind (get_objects rec fs)
                (fun args => construct rec (_component_type self) args)
          end)).
Proof.
  apply guards_bind; [apply preserves_lift | now apply guards_same |].
  intros _. destruct (_init_factories self) as [fs|]; [|now apply guards_same].
  apply guards_bind;
    [now apply get_objects_preserves | apply get_objects_guards |].
  intros args. apply construct_guards.
Qed.

Lemma _create_component_guards (self : Factory) :
  guards (_create_component rec self).
Proof.
  unfold _create_component. apply guards_with_detector. apply body_guards.
Qed.

(** A [_create_component] that returns had pushed its name. *)
Lemma _create_component_returns (self : Factory) (s s1 : State) (o : obj cls) :
  _create_component rec self s = (Ret o, s1) ->
  ~ In (_component_name self) (context s).
Proof.
  intros H Hin. apply str_in_In in Hin.
  rewrite (_create_component_cyclic rec self s Hin) in H. discriminate.
Qed.

Lemma get_object_with_guards (i : nat) : guards (get_object_with rec i).
Proof.
  intros s. unfold get_object_with.
  destruct (factory_at i (_repository s)) as [self|] eqn:Hf;
    [|apply guarded_refl].
  destruct (factory_class self) eqn:Hc; try apply guarded_refl.
  - destruct (is_None (_instance self)) eqn:En; [|apply guarded_refl].
    pose proof (_create_component_guards self s) as K.
    pose proof (_create_component_returns self s) as Hret.
    destruct (_create_component rec self s) as [[o|e|] s1]; simpl in *; auto.
    intros j f Hfj Hin.
    assert (Hne : i <> j).
    { intros ->. assert (f = self) by congruence. subst f.
      exact (Hret s1 o eq_refl Hin). }
    rewrite factory_at_update_other by assumption. now apply K.
  - apply _create_component_guards.
Qed.

End Producing_guards.

Lemma get_object_guards (fuel i : nat) : guards (get_object fuel i).
Proof.
  revert i. induction fuel as [|fuel IH]; intros i.
  - now apply guards_same.
  - simpl. apply get_object_with_guards; [|exact IH].
    intros j. apply get_object_preserves.
Qed.

(** What [_create_component] leaves of the factory it runs for. *)
Lemma _create_component_self (fuel i : nat) (self : Factory) (s : State) :
  factory_at i (_repository s) = Some self ->
  factory_at i (_repository (snd (_create_component (get_object fuel) self s)))
  = Some self.
Proof.
  intros Hf. unfold _create_component.
  destruct (str_in (_component_name self) (context s)) eqn:E.
  - unfold with_DependencyCyclicDetector, on_context.
    rewrite (push_present _ _ E). simpl. exact Hf.
  - rewrite with_detector_enter;
      [|apply body_preserves; intros j; apply get_object_preserves | exact E].
    cbn [snd _repository with_context].
    apply (body_guards (get_object fuel) (get_object_preserves fuel)
             (get_object_guards fuel) self
             (with_context (context s ++ [_component_name self]) s) i self Hf).
    cbn [context with_context]. apply in_app_iff. right. now left.
Qed.

(** X15.  Nothing touches a factory while it produces.  When [get_object]
    of a singleton factory that has not built its component raises --
    because a dependency or the constructor failed, a cycle was found or
    the factory is not initialized --, the factory is exactly as it was, its
    cache empty, so a later call tries again; when it returns, the factory
    differs only by holding the object returned.  A prototype factory,
    which holds no instance, is never changed by its [get_object]. *)
Theorem producing_factory_untouched (s : State) (i : nat) (self : Factory)
  (fuel : nat) :
  factory_at i (_repository s) = Some self ->
  _instance self = PyNone ->
  factory_class self <> StaticComponentFactory ->
  match fst (get_object fuel i s) with
  | Ret o =>
      factory_at i (_repository (snd (get_object fuel i s)))
      = Some (match factory_class self with
              | SingletonComponentFactory => set_instance o self
              | _ => self
              end)
  | _ => factory_at i (_repository (snd (get_object fuel i s))) = Some self
  end.
Proof.
  intros Hf Ho Hc. destruct fuel as [|fuel]; [exact Hf|].
  simpl. unfold get_object_with. rewrite Hf.
  pose proof (_create_component_self fuel i self s Hf) as K.
  destruct (factory_class self); [congruence | |].
  - rewrite Ho. cbn [is_None].
    destruct (_create_component (get_object fuel) self s) as [[o|e|] s1];
      cbn [fst snd] in *; auto.
    cbn [_repository with_repository]. now apply factory_at_update.
  - destruct (_create_component (get_object fuel) self s) as [[o|e|] s1];
      cbn [fst snd] in *; auto.
Qed.

(* ------------------------------------------------------------------ *)
(** *** Components are instances of their factory's type *)

Lemma keeps_typed_bind (A B : Type) (m : M A) (k : A -> M B) :
  keeps_typed m -> (forall a, keeps_typed (k a)) -> keeps_typed (bind m k).
Proof.
  intros Hm Hk s T. unfold bind. specialize (Hm s T).
  destruct (m s) as [[a|e|] s1]; simpl in *; auto.
  now apply Hk.
Qed.

Lemma keeps_typed_same (A : Type) (m : M A) :
  (forall s, _repository (snd (m s)) = _repository s) -> keeps_typed m.
Proof. intros H s T. now rewrite H. Qed.

Lemma keeps_typed_with_detector (A : Type) (n : string) (body : M A) :
  keeps_typed body -> keeps_typed (with_DependencyCyclicDetector n body).
Proof.
  intros Hb s T. unfold with_DependencyCyclicDetector.
  pose proof (on_context_repository _ (push n) s) as E1.
  destruct (on_context (push n) s) as [[[]|e|] s1]; cbn [snd] in *;
    try (now rewrite E1).
  rewrite <- E1 in T. specialize (Hb s1 T).
  destruct (body s1) as [r s2]. cbn [snd] in Hb.
  pose proof (on_context_repository _ (pop n) s2) as E2.
  destruct (on_context (pop n) s2) as [p s3]. cbn [snd] in E2.
  assert (K : typed (_repository s3)) by now rewrite E2.
  destruct r; destruct p; exact K.
Qed.

Section Producing_typed.

Variable rec : nat -> M (obj cls).
Hypothesis rec_preserves : forall i, preserves (rec i).
Hypothesis rec_typed : forall i, keeps_typed (rec i).

Lemma get_component_with_typed (key : Key cls) :
  keeps_typed (get_component_with rec key).
Proof.
  intros s T. unfold get_component_with.
  destruct (lookup key (_repository s)); try exact T.
  now apply rec_typed.
Qed.

Lemma get_objects_typed (fs : list nat) : keeps_typed (get_objects rec fs).
Proof.
  induction fs as [|f fs IH]; simpl; [now apply keeps_typed_same|].
  apply keeps_typed_bind; [apply rec_typed|]. intros o.
  apply keeps_typed_bind; [exact IH|]. intros os. now apply keeps_typed_same.
Qed.

Lemma run_lookups_typed (keys : list (Key cls)) :
  keeps_typed (run_lookups rec keys).
Proof.
  induction keys as [|k keys IH]; simpl; [now apply keeps_typed_same|].
  apply keeps_typed_bind; [apply get_component_with_typed | intros _; exact IH].
Qed.

Lemma construct_typed (c : cls) (args : list (obj cls)) :
  keeps_typed (construct rec c args).
Proof.
  intros s T. unfold construct.
  apply keeps_typed_bind; [apply run_lookups_typed | | exact T].
  intros _. destruct (init_raises (init_body c args));
    now apply keeps_typed_same.
Qed.

Lemma _create_component_typed (self : Factory) :
  keeps_typed (_create_component rec self).
Proof.
  unfold _create_component. apply keeps_typed_with_detector.
  apply keeps_typed_bind; [now apply keeps_typed_same|]. intros _.
  destruct (_init_factories self) as [fs|]; [|now apply keeps_typed_same].
  apply keeps_typed_bind; [apply get_objects_typed|]. intros args.
  apply construct_typed.
Qed.

Lemma get_object_with_typed (i : nat) : keeps_typed (get_object_with rec i).
Proof.
  intros s T. unfold get_object_with.
  destruct (factory_at i (_repository s)) as [self|] eqn:Hf; [|exact T].
  destruct (factory_class self) eqn:Hc; try exact T.
  - destruct (is_None (_instance self)) eqn:En; [|exact T].
    pose proof (_create_component_typed self s T) as K.
    pose proof (_create_component_preserves rec rec_preserves self s) as F.
    pose proof (_create_component_fresh rec rec_preserves self s) as Hfr.
    destruct (_create_component rec self s) as [[o|e|] s1]; simpl in *; auto.
    destruct (Hfr s1 o eq_refl) as (serial & args & -> & _).
    destruct (factory_at_frame _ _ i _ F Hf) as (f1 & Hf1 & _ & _ & Ht1 & _).
    intros j f Hfj Hh.
    destruct (Nat.eq_dec i j) as [<-|Hne].
    + rewrite (factory_at_update i _ _ f1 Hf1) in Hfj. injection Hfj as <-.
      simpl. now symmetry.
    + rewrite factory_at_update_other in Hfj by assumption. now apply (K j).
  - now apply _create_component_typed.
Qed.

End Producing_typed.

Lemma get_object_typed (fuel i : nat) : keeps_typed (get_object fuel i).
Proof.
  revert i. induction fuel as [|fuel IH]; intros i.
  - now apply keeps_typed_same.
  - simpl. apply get_object_with_typed; [|exact IH].
    intros j. apply get_object_preserves.
Qed.

Lemma reachable_typed (s : State) : reachable s -> typed (_repository s).
Proof.
  induction 1 as [|reg s _ IH|s _ IH|fuel key s _ IH _].
  - intros i f Hf _. destruct i as [|[|i]]; simpl in Hf; try discriminate.
    injection Hf as <-. reflexivity.
  - destruct (register_cases reg s) as [[_ ->]|[_ ->]]; [exact IH|].
    cbn [snd with_repository _repository]. intros i f Hf Hh.
    apply (factory_at_app _ _ _ _ _ _ (available_component_types (_repository s)))
      in Hf.
    destruct Hf as [Hf|[_ ->]].
    + apply (IH i); [|exact Hh]. destruct (_repository s); exact Hf.
    + destruct reg as [c n|o n]; [discriminate | reflexivity].
  - destruct (setup_loop_unwire (factories (_repository s)) s) as (U & _).
    intros i f' Hf' Hh'. unfold setup in Hf'.
    destruct (factory_at_unwired _ _ i f' U Hf') as (f & Hf & Hc & Ho & Ht).
    rewrite <- Ho, <- Ht. apply (IH i f Hf).
    now rewrite (holds_instance_same f' f).
  - apply get_component_with_typed; [|exact IH].
    intros i. apply get_object_typed.
Qed.

(** What a factory returns is an instance of its component type. *)
Lemma get_object_type (s s' : State) (fuel j : nat) (f : Factory) (o : obj cls) :
  typed (_repository s) ->
  factory_at j (_repository s) = Some f ->
  get_object fuel j s = (Ret o, s') ->
  type_of o = _component_type f.
Proof.
  intros T Hf H. destruct (factory_class f) eqn:Hc.
  - destruct fuel as [|fuel]; [discriminate|].
    simpl in H. unfold get_object_with in H. rewrite Hf, Hc in H.
    injection H as <- _. apply (T j f Hf). unfold holds_instance. now rewrite Hc.
  - destruct (get_object_singleton fuel j f s s' o Hf Hc H)
      as ((f1 & Hf1 & Hc1 & Ho1) & Hnn & Hfresh & Hsame).
    destruct (is_None (_instance f)) eqn:En.
    + assert (Hn : _instance f = PyNone) by (destruct (_instance f); auto; discriminate).
      destruct (Hfresh Hn) as (serial & args & -> & _). reflexivity.
    + assert (Hn : _instance f <> PyNone) by (intros E; rewrite E in En; discriminate).
      rewrite (Hsame Hn) in Hf1. assert (f1 = f) by congruence. subst f1.
      rewrite <- Ho1. apply (T j f Hf). unfold holds_instance.
      now rewrite Hc, En.
  - destruct (get_object_prototype fuel j f s s' o Hf Hc H)
      as ((serial & args & -> & _) & _).
    reflexivity.
Qed.

(** X16.  What [get_component] returns has the type asked for.  In a state
    a container can be in, the component returned for a type is an instance
    of that type or of a subclass of it, and the component returned for a
    name is an instance of the component type of the factory registered
    under that name. *)
Theorem get_component_typed (s s' : State) (fuel : nat) (key : Key cls)
  (o : obj cls) :
  reachable s ->
  get_component fuel key s = (Ret o, s') ->
  match key with
  | KType c => issubclass (type_of o) c = true
  | KStr n =>
      exists i f, find_by_name n (_repository s) = Some (i, f)
                  /\ type_of o = _component_type f
  | KOther => False
  end.
Proof.
  intros R H. pose proof (reachable_typed s R) as T.
  unfold get_component, get_component_with in H.
  destruct key as [n|c|]; [| |discriminate].
  - simpl in H. destruct (find_by_name n (_repository s)) as [[i f]|] eqn:Ef;
      [|discriminate].
    exists i, f. split; [reflexivity|].
    apply (get_object_type s s' fuel i f o T); [|exact H].
    apply find_from_nth in Ef. rewrite Nat.sub_0_r in Ef.
    destruct Ef as (_ & Hn & _). unfold factory_at. now rewrite Hn.
  - rewrite lookup_KType in H.
    destruct (type_in c (available_component_types (_repository s)));
      [|discriminate].
    destruct (find_by_type c (_repository s)) as [|[n j] [|y l]] eqn:Ef;
      try discriminate.
    assert (Hin : In (n, j) (find_by_type c (_repository s)))
      by (rewrite Ef; now left).
    apply filter_type_from_In in Hin. rewrite Nat.sub_0_r in Hin.
    destruct Hin as (g & _ & Hn & Ht).
    assert (Hg : factory_at j (_repository s) = Some g)
      by (unfold factory_at; now rewrite Hn).
    rewrite (get_object_type s s' fuel j g o T Hg H). exact Ht.
Qed.

(* ------------------------------------------------------------------ *)
(** *** Registration, seen from the container *)


(* ------------------------------------------------------------------ *)
(** *** [setup], called again *)

Lemma factory_at_rewired (r r' : Repository) (i : nat) :
  map unwire (factory_by_name r) = map unwire (factory_by_name r') ->
  match factory_at i r, factory_at i r' with
  | Some f, Some f' =>
      factory_class f' = factory_class f
      /\ _requirements f' = _requirements f
  | None, None => True
  | _, _ => False
  end.
Proof.
  intros Hd. unfold factory_at.
  assert (He : nth_error (map unwire (factory_by_name r)) i
               = nth_error (map unwire (factory_by_name r')) i)
    by now rewrite Hd.
  rewrite !nth_error_map in He.
  destruct (nth_error (factory_by_name r) i) as [[n f]|],
           (nth_error (factory_by_name r') i) as [[n' f']|];
    cbn [option_map] in He; try discriminate; [|exact I].
  injection He as _ Hc _ _ Hq _. auto.
Qed.

Lemma post_init_loop_rewired (r r' : Repository) (reqs : list Dependency)
  (self self' : Factory) :
  (forall req, resolve r req = resolve r' req) ->
  fst (post_init_loop r reqs self) = fst (post_init_loop r' reqs self').
Proof.
  intros H. revert self self'.
  induction reqs as [|req reqs IH]; intros self self'; [reflexivity|].
  simpl. rewrite <- (H req).
  destruct (resolve r req) as [[n j]|e|]; [apply IH | reflexivity | reflexivity].
Qed.

Lemma post_init_rewired (i : nat) (r r' : Repository) :
  map unwire (factory_by_name r) = map unwire (factory_by_name r') ->
  fst (post_init i r) = fst (post_init i r').
Proof.
  intros Hd. pose proof (factory_at_rewired r r' i Hd) as Hf.
  unfold post_init.
  destruct (factory_at i r) as [f|], (factory_at i r') as [f'|];
    try contradiction; [|reflexivity].
  destruct Hf as [Hc Hq]. rewrite Hc.
  destruct (factory_class f); [reflexivity| |];
    (pose proof (post_init_loop_rewired r r'
                   (_requirements (set_init_factories (Some []) f))
                   (set_init_factories (Some []) f)
                   (set_init_factories (Some []) f')
                   (fun req => resolve_rewired r r' req Hd)) as E;
     assert (Hq' : _requirements (set_init_factories (Some []) f')
                   = _requirements (set_init_factories (Some []) f))
       by exact Hq;
     rewrite Hq';
     destruct (post_init_loop r (_requirements (set_init_factories (Some []) f))
                 (set_init_factories (Some []) f)) as [[[]|e|] g],
              (post_init_loop r' (_requirements (set_init_factories (Some []) f))
                 (set_init_factories (Some []) f')) as [[[]|e'|] g'];
     cbn [fst] in *; congruence).
Qed.

Lemma setup_loop_rewired (fs : list nat) (s s' : State) :
  map unwire (factory_by_name (_repository s))
  = map unwire (factory_by_name (_repository s')) ->
  fst (setup_loop fs s) = fst (setup_loop fs s').
Proof.
  revert s s'. induction fs as [|i fs IH]; intros s s' Hd; [reflexivity|].
  rewrite !setup_loop_cons.
  pose proof (post_init_rewired i _ _ Hd) as E.
  destruct (post_init_unwire i (_repository s)) as [U _].
  destruct (post_init_unwire i (_repository s')) as [U' _].
  destruct (post_init i (_repository s)) as [[[]|e|] r1],
           (post_init i (_repository s')) as [[[]|e'|] r1'];
    cbn [fst snd] in *; try congruence.
  apply IH. cbn [_repository with_repository]. congruence.
Qed.

Lemma resolved_unique (r : Repository) (reqs : list Dependency)
  (l l' : list (string * nat)) :
  Forall2 (fun req x => resolve r req = Ret x) reqs l ->
  Forall2 (fun req x => resolve r req = Ret x) reqs l' ->
  l = l'.
Proof.
  intros H. revert l'. induction H as [|req x reqs l Hx _ IH]; intros l' H'.
  - now inversion H'.
  - inversion H' as [|? y ? l2 Hy H2]; subst. f_equal; [congruence | now apply IH].
Qed.

Lemma post_initialized_fields (f : Factory) (resolved : list (string * nat)) :
  factory_class (post_initialized f resolved) = factory_class f
  /\ _requirements (post_initialized f resolved) = _requirements f
  /\ _instance (post_initialized f resolved) = _instance f
  /\ _initialized (post_initialized f resolved) = true
  /\ _init_factories (post_initialized f resolved) = Some (map snd resolved)
  /\ _init_dependencies (post_initialized f resolved)
     = _init_dependencies f ++ map fst resolved.
Proof.
  assert (G : forall l g, _requirements (wired g l) = _requirements g).
  { induction l as [|[n j] l IH]; intros g; [reflexivity|].
    unfold wired in *. simpl. now rewrite IH. }
  destruct (wired_fields resolved (set_init_factories (Some []) f))
    as (W1 & _ & W3 & W4 & W5).
  unfold post_initialized.
  cbn [_set_initialized factory_class _requirements _instance _initialized
       _init_factories _init_dependencies].
  rewrite W1, W3, W4, W5, G. repeat split; reflexivity.
Qed.

(** X18.  [setup] may be called again.  A second call, right after the
    first, has the outcome of the first; and when they return, the second
    leaves every factory with the class, the instance and the wired
    factories it had: a static factory is untouched, and a creating factory
    is initialized and wired to the same factories, only the names that
    [get_init_dependencies] reports are recorded a second time. *)
Theorem setup_repeatable (s : State) :
  fst (setup (snd (setup s))) = fst (setup s)
  /\ (fst (setup s) = Ret tt ->
      forall i f1,
        factory_at i (_repository (snd (setup s))) = Some f1 ->
        exists f2,
          factory_at i (_repository (snd (setup (snd (setup s))))) = Some f2
          /\ factory_class f2 = factory_class f1
          /\ _instance f2 = _instance f1
          /\ _init_factories f2 = _init_factories f1
          /\ (factory_class f1 = StaticComponentFactory -> f2 = f1)
          /\ (factory_class f1 <> StaticComponentFactory ->
              _initialized f1 = true /\ _initialized f2 = true
              /\ exists (f : Factory) (resolved : list (string * nat)),
                   factory_at i (_repository s) = Some f
                   /\ List.length resolved = List.length (_requirements f)
                   /\ _init_dependencies f1
                      = _init_dependencies f ++ map fst resolved
                   /\ _init_dependencies f2
                      = (_init_dependencies f ++ map fst resolved)
                        ++ map fst resolved)).
Proof.
  destruct (setup_loop_unwire (factories (_repository s)) s) as (U & _).
  fold (setup s) in U.
  assert (Hfs : factories (_repository (snd (setup s)))
                = factories (_repository s)).
  { unfold factories. f_equal.
    rewrite <- (length_map unwire (factory_by_name (_repository (snd (setup s))))),
            <- (length_map unwire (factory_by_name (_repository s))).
    now rewrite U. }
  split.
  - unfold setup at 1. rewrite Hfs. unfold setup at 2.
    now apply setup_loop_rewired.
  - intros Hok i f1 Hf1.
    assert (Hok2 : fst (setup (snd (setup s))) = Ret tt).
    { unfold setup at 1. rewrite Hfs. rewrite <- Hok. unfold setup at 2.
      now apply setup_loop_rewired. }
    destruct (factories_spec (_repository s)) as (Hnd & Hv & Hin).
    destruct (setup_loop_spec (factories (_repository s)) s Hnd Hv)
      as (_ & _ & _ & C).
    fold (setup s) in C. specialize (C Hok).
    destruct (factories_spec (_repository (snd (setup s)))) as (Hnd1 & Hv1 & Hin1).
    destruct (setup_loop_spec (factories (_repository (snd (setup s))))
                (snd (setup s)) Hnd1 Hv1) as (_ & _ & _ & C1).
    fold (setup (snd (setup s))) in C1. specialize (C1 Hok2).
    pose proof (factory_at_rewired (_repository (snd (setup s))) (_repository s) i U)
      as Hrw.
    rewrite Hf1 in Hrw.
    destruct (factory_at i (_repository s)) as [f|] eqn:Hf; [|contradiction].
    destruct Hrw as [Hc Hq].
    destruct (C i f (Hin i f Hf) Hf) as [S0 N0].
    destruct (C1 i f1 (Hin1 i f1 Hf1) Hf1) as [S1 N1].
    destruct (factory_class_static_dec f1) as [Hs|Hs].
    + exists f1. rewrite (S1 Hs). repeat split; auto. congruence.
    + assert (Hs0 : factory_class f <> StaticComponentFactory) by congruence.
      destruct (N0 Hs0) as (resolved & F & E).
      destruct (N1 Hs) as (resolved1 & F1 & E1).
      rewrite Hf1 in E. injection E as ->.
      destruct (post_initialized_fields f resolved) as (P1 & P2 & P3 & P4 & P5 & P6).
      assert (resolved1 = resolved).
      { apply (resolved_unique (_repository s) (_requirements f)); [|exact F].
        rewrite P2 in F1. clear - F1 U.
        induction F1 as [|req x l l' Hx _ IH]; constructor; [|exact IH].
        now rewrite (resolve_rewired _ _ req (eq_sym U)). }
      subst resolved1.
      destruct (post_initialized_fields (post_initialized f resolved) resolved)
        as (Q1 & Q2 & Q3 & Q4 & Q5 & Q6).
      exists (post_initialized (post_initialized f resolved) resolved).
      split; [exact E1|]. split; [exact Q1|]. split; [exact Q3|].
      split; [now rewrite Q5, P5|]. split; [intros; contradiction|].
      intros _. split; [exact P4|]. split; [exact Q4|].
      exists f, resolved. split; [reflexivity|]. split.
      * symmetry. apply (Forall2_length F).
      * split; [exact P6 | now rewrite Q6, P6].
Qed.

(* ------------------------------------------------------------------ *)
(** *** The cycle that is reported *)

Lemma distinct_NoDup (l : list string) : distinct l = true <-> NoDup l.
Proof.
  induction l as [|x l IH]; simpl.
  - split; [constructor | reflexivity].
  - rewrite andb_true_iff, negb_true_iff, str_in_not_In, IH. split.
    + intros [H1 H2]. now constructor.
    + intros H. inversion H; auto.
Qed.

Lemma closed_cycle_spec (ns l : list string) :
  closed_cycle ns l = true <->
  exists n mid, l = n :: mid ++ [n] /\ NoDup (n :: mid) /\ incl l ns.
Proof.
  assert (I : forall l0 : list string,
             forallb (fun x => str_in x ns) l0 = true <-> incl l0 ns).
  { intros l0. rewrite forallb_forall. unfold incl.
    split; intros H x Hx; apply str_in_In; auto. }
  unfold closed_cycle. split.
  - destruct l as [|n rest]; [discriminate|].
    destruct (rev rest) as [|m mid] eqn:E; [discriminate|].
    rewrite !andb_true_iff. intros [[Hm Hd] Hi].
    apply String.eqb_eq in Hm. subst m.
    exists n, (rev mid). split; [|split].
    + f_equal. rewrite <- (rev_involutive rest), E. reflexivity.
    + now apply distinct_NoDup.
    + now apply I.
  - intros (n & mid & -> & Hd & Hi).
    rewrite rev_app_distr. cbn [rev app]. rewrite rev_involutive.
    rewrite String.eqb_refl. cbn [andb].
    apply andb_true_iff. split; [now apply distinct_NoDup | now apply I].
Qed.

Lemma lookup_no_cycle (ns : list string) (key : Key cls) (r : Repository) :
  admits (reports_cycle ns) (lookup key r) = true.
Proof.
  destruct key as [n|c|]; [| |reflexivity].
  - simpl. destruct (find_by_name n r) as [[i f]|]; reflexivity.
  - rewrite lookup_KType.
    destruct (type_in c (available_component_types r)); [|reflexivity].
    destruct (find_by_type c r) as [|[m i] [|y l]]; reflexivity.
Qed.

(** X19.  The cycle that [get_component] reports.  From a state a container
    can be in, when a [get_component] call raises
    [CyclicDependencyException], the list it carries begins and ends with
    the same name, names no other component twice, and names only
    components of registered factories. *)
Theorem reported_cycle_closed (s : State) (fuel : nat) (key : Key cls)
  (l : list string) :
  reachable s ->
  fst (get_component fuel key s) = Raise (CyclicDependencyException l) ->
  exists n mid,
    l = n :: mid ++ [n]
    /\ NoDup (n :: mid)
    /\ incl l (names (_repository s)).
Proof.
  intros R H. apply closed_cycle_spec.
  set (ns := names (_repository s)).
  assert (A : admits (reports_cycle ns) (fst (get_component fuel key s)) = true).
  { apply (get_object_admits (reports_cycle ns)
             (fun s0 => well_wired (_repository s0)
                        /\ NoDup (context s0)
                        /\ incl (context s0) ns
                        /\ names (_repository s0) = ns)).
    - intros s0 s1 (W & N & I & E) F. pose proof F as (_ & _ & Hc & _).
      rewrite <- Hc, <- (names_frame s0 s1 F).
      split; [now apply (well_wired_frame s0) | auto].
    - intros s0 i self (W & N & I & E) Hf Hn.
      cbn [with_context _repository context].
      split; [exact W|]. split; [|split; [|exact E]].
      + apply NoDup_app; auto.
        * constructor; [intros [] | constructor].
        * intros a Ha [<-|[]]. apply str_in_not_In in Hn. contradiction.
      + intros a Ha. apply in_app_iff in Ha. destruct Ha as [Ha|[<-|[]]].
        * now apply I.
        * rewrite <- E. now apply (factory_at_name i).
    - intros s0 (W & _). exact W.
    - intros s0 n (_ & N & I & _) Hn. simpl. apply closed_cycle_spec.
      apply str_in_In in Hn.
      destruct (index_first n (context s0) Hn) as (before & after & E & _ & Hi).
      rewrite Hi, E, skipn_app_length. exists n, after.
      split; [reflexivity|]. rewrite E in N, I. split.
      + now apply NoDup_app_remove_l in N.
      + intros a Ha. simpl in Ha. destruct Ha as [<-|Ha].
        * apply I. apply in_app_iff. right. now left.
        * apply in_app_iff in Ha. destruct Ha as [Ha|[<-|[]]].
          -- apply I. apply in_app_iff. right. now right.
          -- apply I. apply in_app_iff. right. now left.
    - reflexivity.
    - intros s0 k _. apply lookup_no_cycle.
    - reflexivity.
    - split; [now apply reachable_well_wired|].
      rewrite (reachable_context s R).
      split; [constructor|]. split; [intros a []| reflexivity]. }
  rewrite H in A. exact A.
Qed.

End Proofs.

(* ================================================================== *)
(** ** The properties on the containers of the test suite *)

Import Fixtures.

(** In [register_types(A, B, C).setup()], requesting [b] reports the cycle
    from [b], not from [a]. *)
Lemma cyclic_path_counterexample :
  fst (get_component 4 (KStr "b") cyclic_container)
  = Raise (CyclicDependencyException ["b"; "c"; "a"; "b"])
  /\ fst (get_component 4 (KStr "b") cyclic_container)
     <> Raise (CyclicDependencyException ["a"; "b"; "c"; "a"]).
Proof.
  assert (E : fst (get_component 4 (KStr "b") cyclic_container)
              = Raise (CyclicDependencyException ["b"; "c"; "a"; "b"]))
    by reflexivity.
  split; [exact E | rewrite E; discriminate].
Qed.

Lemma cyclic_dependency_reported_witness :
  get_component 4 (KStr "b") cyclic_container
  = (Raise (CyclicDependencyException ["b"; "c"; "a"; "b"]), cyclic_container).
Proof.
  refine (proj1 (proj2
    (@cyclic_dependency_reported test_classes cyclic_container 1 2 3
       "a" "b" "c" 0 (KStr "b") eq_refl _ _ _ _ _ _)) eq_refl).
  - unfold requires. eexists. repeat split; reflexivity.
  - unfold requires. eexists. repeat split; reflexivity.
  - unfold requires. eexists. repeat split; reflexivity.
  - discriminate.
  - discriminate.
  - discriminate.
Defined.

(** [InjectableComponent] before [setup]: its requirement, named
    [sample_class], is resolved by name. *)
Lemma wiring_resolves_witness :
  resolve
    (_repository
       (after (register_type InjectableComponent None)
          (after (register_type SampleClass (Some "sample_class"))
             Container_init)))
    {| component_name := Some "sample_class";
       component_type := SampleClass;
       dependency_type := SIMPLE |}
  = Ret ("sample_class", 1).
Proof.
  exact (proj1 (proj1 (@wiring_resolves test_classes)
                  (_repository
                     (after (register_type InjectableComponent None)
                        (after (register_type SampleClass (Some "sample_class"))
                           Container_init)))
                  {| component_name := Some "sample_class";
                     component_type := SampleClass;
                     dependency_type := SIMPLE |})
           "sample_class" 1
           (SingletonComponentFactory_init "sample_class" SampleClass [])
           eq_refl eq_refl).
Defined.

(** A constructor that raises leaves the stack empty. *)
Lemma detector_stack_released_witness :
  fst (get_component 3 (KType Failing) failing_container) = Raise PyException
  /\ context (snd (get_component 3 (KType Failing) failing_container)) = [].
Proof.
  split; [reflexivity|].
  exact (proj1 (@detector_stack_released test_classes 3 (KType Failing)
                  failing_container eq_refl)).
Defined.

(** The second request of [SampleClass] returns the object the first one
    built; two calls of a prototype factory return two objects. *)
Lemma singleton_once_prototype_fresh_witness :
  (get_component 3 (KType SampleClass) injecting_container
   = (Ret (Created 0 SampleClass []),
      snd (get_component 3 (KType SampleClass) injecting_container))
   /\ get_component 1 (KType SampleClass)
        (snd (get_component 3 (KType SampleClass) injecting_container))
      = (Ret (Created 0 SampleClass []),
         snd (get_component 3 (KType SampleClass) injecting_container)))
  /\ (fst (get_object 1 1 prototype_container) = Ret (Created 0 SampleClass [])
      /\ fst (get_object 1 1 (snd (get_object 1 1 prototype_container)))
         = Ret (Created 1 SampleClass [])
      /\ Created 0 SampleClass [] <> Created 1 SampleClass []).
Proof.
  split.
  - assert (H : get_component 3 (KType SampleClass) injecting_container
                = (Ret (Created 0 SampleClass []),
                   snd (get_component 3 (KType SampleClass)
                          injecting_container)))
      by reflexivity.
    split; [exact H|].
    exact (proj1 (proj1 (@singleton_once_prototype_fresh test_classes)
                    injecting_container (KType SampleClass) 1
                    _ 3 (Created 0 SampleClass [])
                    (snd (get_component 3 (KType SampleClass)
                            injecting_container))
                    eq_refl eq_refl eq_refl H) 0).
  - split; [reflexivity|]. split; [reflexivity|].
    exact (proj1 (proj2 (@singleton_once_prototype_fresh test_classes)
                    prototype_container 1 _ 1 1
                    (Created 0 SampleClass []) (Created 1 SampleClass [])
                    (snd (get_object 1 1 prototype_container))
                    (snd (get_object 1 1 (snd (get_object 1 1 prototype_container))))
                    eq_refl eq_refl eq_refl eq_refl)).
Defined.

(** [get_component(SampleClass)] between [register_type(SampleClass)] and
    [setup()]. *)
Lemma get_component_before_setup_witness :
  get_component 1 (KType SampleClass)
    (snd (register (RegisterType SampleClass None) Container_init))
  = (Raise (InvalidStateException "Factory not initialized."),
     snd (register (RegisterType SampleClass None) Container_init))
  /\ fst (get_component 1 (KType SampleClass)
            (snd (setup
                    (snd (get_component 1 (KType SampleClass)
                            (snd (register (RegisterType SampleClass None)
                                    Container_init)))))))
     = Ret (Created 0 SampleClass []).
Proof.
  split; [|reflexivity].
  refine (proj1 (@get_component_before_setup test_classes
                   (snd (register (RegisterType SampleClass None) Container_init))
                   (KType SampleClass) 1 _ 0 _ eq_refl eq_refl eq_refl)).
  exact (@registering_step test_classes (RegisterType SampleClass None) _
           (@registering_init test_classes)).
Defined.

(** With a second container registered as an instance, the requirement
    [c: Container] of [Holder] does not resolve. *)
Lemma container_by_type_counterexample :
  reachable two_containers
  /\ option_map (fun e => _requirements (snd e))
       (find_by_name "holder" (_repository two_containers))
     = Some [{| component_name := Some "c";
                component_type := class_Container;
                dependency_type := SIMPLE |}]
  /\ resolve (_repository two_containers)
       {| component_name := Some "c";
          component_type := class_Container;
          dependency_type := SIMPLE |}
     = Raise TooManyDefinitionsException
  /\ fst (setup two_containers) = Raise TooManyDefinitionsException.
Proof.
  split; [|repeat split; reflexivity].
  exact (@reachable_register test_classes (RegisterType Holder None) _
           (@reachable_register test_classes
              (RegisterInstance (Extern 7 class_Container) "other") _
              (@reachable_init test_classes))).
Qed.

(** [InjectableContainer] is constructed with the container itself. *)
Lemma container_injects_itself_witness :
  resolve (_repository self_injecting_container)
    {| component_name := Some "container";
       component_type := class_Container;
       dependency_type := SIMPLE |}
  = Ret ("container", 0)
  /\ get_object 1 0 self_injecting_container = (Ret Self, self_injecting_container)
  /\ fst (get_component 2 (KType InjectableContainer) self_injecting_container)
     = Ret (Created 0 InjectableContainer [Self]).
Proof.
  assert (R : reachable self_injecting_container).
  { exact (@reachable_setup test_classes _
             (@reachable_register test_classes
                (RegisterType InjectableContainer None) _
                (@reachable_init test_classes))). }
  split; [|split].
  - exact (proj1 (proj2 (@container_injects_itself test_classes _ R))
             class_Container SIMPLE eq_refl).
  - exact (proj1 (proj2 (proj2 (proj2
             (@container_injects_itself test_classes _ R)))) 0).
  - reflexivity.
Defined.

(** [register_type(SampleClass, "message")], then
    [register_instance(..., "message")]. *)
Lemma duplicate_name_rejected_witness :
  register (RegisterInstance (Extern 1 class_str) "message")
    (snd (register (RegisterType SampleClass (Some "message")) Container_init))
  = (Raise NameAlreadyDefinedException,
     snd (register (RegisterType SampleClass (Some "message")) Container_init)).
Proof.
  exact (proj1 (@duplicate_name_rejected test_classes
                  (RegisterType SampleClass (Some "message"))
                  (RegisterInstance (Extern 1 class_str) "message")
                  Container_init eq_refl)).
Defined.

(** A variadic parameter that is not named [args] is kept: the signature
    [(self, *extras)] gives one requirement. *)
Lemma variadic_parameter_counterexample :
  generate_dependency_list
    (Function [param "self" None;
               {| name := "extras"; kind := VAR_POSITIONAL; annotation := None |}])
  = Ret [{| component_name := Some "extras"; component_type := class_object;
            dependency_type := SIMPLE |}]
  /\ ~ (forall sig : list (Param test_cls),
          generate_dependency_list (Function sig) = Ret (spec_requirements sig)).
Proof.
  split; [reflexivity|]. intros H.
  specialize (H [param "self" None;
                 {| name := "extras"; kind := VAR_POSITIONAL;
                    annotation := None |}]).
  simpl in H. discriminate H.
Qed.

(** C3 on [register_type(Dog).setup()], [Dog] a subclass of [Animal]:
    exactly one registered factory produces a subtype of [Animal], a
    requirement of type [Animal] is wired to it, and yet
    [get_component(Animal)] raises [UnknownComponentException], because
    [Animal] itself is not in [available_component_types]. *)
Theorem get_component_supertype_unknown :
  find_by_type Animal (_repository dog_container) = [("dog", 1)]
  /\ resolve (_repository dog_container)
       {| component_name := Some "animal"; component_type := Animal;
          dependency_type := SIMPLE |}
     = Ret ("dog", 1)
  /\ exist (KType Animal) (_repository dog_container) = Ret false
  /\ fst (get_component 2 (KType Animal) dog_container)
     = Raise UnknownComponentException
  /\ fst (get_component 2 (KType Dog) dog_container)
     = Ret (Created 0 Dog []).
Proof. repeat split; reflexivity. Qed.

(* ------------------------------------------------------------------ *)
(** *** Further properties on the containers of the test suite *)

Lemma test_issubclass_refl (c : test_cls) : test_issubclass c c = true.
Proof. destruct c; reflexivity. Qed.

Lemma reachable_dog_container : reachable dog_container.
Proof.
  exact (@reachable_setup test_classes _
           (@reachable_register test_classes (RegisterType Dog None) _
              (@reachable_init test_classes))).
Qed.

Lemma reachable_failing_container : reachable failing_container.
Proof.
  exact (@reachable_setup test_classes _
           (@reachable_register test_classes (RegisterType Failing None) _
              (@reachable_init test_classes))).
Qed.

Lemma reachable_injecting_registered :
  reachable
    (after (register_type InjectableComponent None)
       (after (register_type SampleClass (Some "sample_class")) Container_init)).
Proof.
  exact (@reachable_register test_classes (RegisterType InjectableComponent None) _
           (@reachable_register test_classes
              (RegisterType SampleClass (Some "sample_class")) _
              (@reachable_init test_classes))).
Qed.

Lemma reachable_cyclic_container : reachable cyclic_container.
Proof.
  exact (@reachable_setup test_classes _
           (@reachable_register test_classes (RegisterType class_C None) _
              (@reachable_register test_classes (RegisterType class_B None) _
                 (@reachable_register test_classes (RegisterType class_A None) _
                    (@reachable_init test_classes))))).
Qed.



(** [get_component(Dog)] reaches the factory behind reference 1. *)
Lemma lookup_decided_witness :
  lookup (KType Dog) (_repository dog_container) = Ret 1.
Proof.
  exact (proj1
    (proj1 (proj2 (proj2
       (@lookup_decided test_classes dog_container reachable_dog_container
          test_issubclass_refl)))
       Dog "dog" _ (or_intror (or_introl eq_refl)) eq_refl)).
Defined.

(** [InjectableComponent] is wired to the factory of [sample_class]. *)
Lemma setup_wires_witness :
  exists f',
    factory_at 2 (_repository injecting_container) = Some f'
    /\ _initialized f' = true
    /\ exists resolved : list (string * nat),
         _init_factories f' = Some (map snd resolved).
Proof.
  destruct (@setup_wires test_classes
              (after (@register_type test_classes InjectableComponent None)
                 (after (@register_type test_classes SampleClass
                           (Some "sample_class"))
                    (@Container_init test_classes)))
              2 _ eq_refl eq_refl) as (f' & H1 & _ & H3).
  exists f'. split; [exact H1|].
  destruct (H3 ltac:(discriminate)) as (resolved & _ & Hi & Hw & _).
  split; [exact Hi|]. exists resolved. exact Hw.
Defined.

(** A constructor that raises: the exception is the constructor's. *)
Lemma get_component_raises_witness :
  raises_only get_component_exception
    (fst (get_component 3 (KType Failing) failing_container)) = true.
Proof.
  exact (@get_component_raises test_classes failing_container 3 (KType Failing)
           reachable_failing_container test_issubclass_refl (le_n 3)).
Defined.

(** After [setup], no request meets a factory that is not initialized. *)
Lemma initialized_container_serves_witness :
  raises_only production_exception
    (fst (get_component 4 (KType InjectableComponent) injecting_container))
  = true.
Proof.
  refine (proj1
    (proj2 (@initialized_container_serves test_classes injecting_container 4
              (KType InjectableComponent)
              (@reachable_setup test_classes _ reachable_injecting_registered)
              test_issubclass_refl (le_n 4)) _)).
  exact (proj1 (@initialized_container_serves test_classes _ 4
                  (KType InjectableComponent)
                  reachable_injecting_registered test_issubclass_refl
                  (le_n 4))
           eq_refl).
Defined.

(** [sample_class], once built, is returned after [InjectableComponent]
    was requested too. *)
Lemma held_component_stays_witness :
  fst (get_component 1 (KStr "sample_class")
         (snd (get_component 3 (KType InjectableComponent)
                 (snd (get_component 3 (KType SampleClass)
                         injecting_container)))))
  = Ret (Created 0 SampleClass []).
Proof.
  exact (f_equal fst
    (@held_component_stays test_classes
       (snd (get_component 3 (KType SampleClass) injecting_container))
       (snd (get_component 3 (KType InjectableComponent)
               (snd (get_component 3 (KType SampleClass) injecting_container))))
       "sample_class" 1 _ 0
       (@evolves_get_component test_classes 3 (KType InjectableComponent) _ _
          (@evolves_refl test_classes _))
       eq_refl eq_refl)).
Defined.

(** [InjectableComponent] is built from the [sample_class] that is held. *)
Lemma singleton_built_from_held_witness :
  fst (get_object 2 2
         (snd (get_component 3 (KType SampleClass) injecting_container)))
  = Ret (Created 1 InjectableComponent [Created 0 SampleClass []]).
Proof.
  refine (f_equal fst
    (@singleton_built_from_held test_classes
       (snd (get_component 3 (KType SampleClass) injecting_container))
       2 _ [1] 0 eq_refl eq_refl eq_refl eq_refl eq_refl (fun H => H) _
       eq_refl eq_refl)).
  constructor; [|constructor].
  eexists. split; reflexivity.
Defined.

(** The factory of [Failing] after its constructor raised. *)
Lemma producing_factory_untouched_witness :
  factory_at 1 (_repository (snd (get_object 3 1 failing_container)))
  = factory_at 1 (_repository failing_container).
Proof.
  refine (@producing_factory_untouched test_classes failing_container 1 _ 3
            eq_refl eq_refl _).
  discriminate.
Defined.

(** [get_component(InjectableComponent)] returns an [InjectableComponent]. *)
Lemma get_component_typed_witness :
  issubclass
    (type_of (Created 1 InjectableComponent [Created 0 SampleClass []]))
    InjectableComponent = true.
Proof.
  exact (@get_component_typed test_classes injecting_container
           (snd (get_component 3 (KType InjectableComponent) injecting_container))
           3 (KType InjectableComponent)
           (Created 1 InjectableComponent [Created 0 SampleClass []])
           (@reachable_setup test_classes _ reachable_injecting_registered)
           eq_refl).
Defined.

(** The cycle reported for [b] in [register_types(A, B, C).setup()]. *)
Lemma reported_cycle_closed_witness :
  exists n mid,
    ["b"; "c"; "a"; "b"] = n :: mid ++ [n]
    /\ NoDup (n :: mid)
    /\ incl ["b"; "c"; "a"; "b"] (names (_repository cyclic_container)).
Proof.
  exact (@reported_cycle_closed test_classes cyclic_container 4 (KStr "b")
           ["b"; "c"; "a"; "b"] reachable_cyclic_container eq_refl).
Defined.
